(** * J.A.R.V.I.S. session orchestrator: an executable model of [App.tsx]

    The React component [App] of [src/App.tsx] is embedded as a state
    machine.  One record, [State], holds the component's React state
    ([useState]), its refs ([useRef]) and the part of the browser the
    handlers talk to (timers, the live sessions, the audio graph, local
    storage).  Every handler of the component is a function on [State]
    that keeps the name it has in the source.

    Conventions of the embedding:
    - a handler runs to completion: an [await] inside it is not a point
      where another handler is interleaved, and a call that the source
      does not await is taken to complete at the call;
    - a closure created during a render sees the React state of that
      render: the values a handler reads from its closure are passed
      explicitly as a [Closure];
    - JavaScript numbers are exact: wall-clock times are integers
      (milliseconds), audio times and gains are rationals; rounding of
      doubles is not modelled, and an integer is printed as JavaScript
      prints it as long as it is a safe integer ([Js.isSafeInteger]);
    - strings are byte strings, the UTF-8 encoding of the JavaScript
      strings; [trim] removes the white space of ECMAScript, ASCII or
      not; [toLowerCase] changes ASCII letters only, which decides the
      presence of the (ASCII) command phrases as JavaScript does;
    - [playSystemSound] and [console.log] have no effect on the state
      and are left out of the handlers; the sound that
      [playSystemSound] sets up is described on its own. *)

From Stdlib Require Import ZArith QArith Qminmax Qround List String Ascii Bool Lia Lqa.
From Stdlib Require Import DecimalString DecimalZ.
From coqutil Require Import Datatypes.RecordSetters.
Import ListNotations.
Import DoubleBraceUpdate.

Local Open Scope string_scope.
Local Open Scope list_scope.
Local Open Scope Z_scope.

(** ** Runtime helpers (ECMAScript built-ins used by the component) *)

Module Js.

(** The double-quote character. *)
Definition dquote_char : ascii := ascii_of_nat 34.
Definition dquote : string := String dquote_char EmptyString.

(** The line-feed character, [\n] of a JavaScript literal. *)
Definition newline : string := String (ascii_of_nat 10) EmptyString.



(** [String(n)] for an integral number: plain decimal digits.  This is
    what JavaScript prints for every safe integer; larger numbers are
    printed with rounded digits, and from [1e21] on with an exponent. *)
Definition Number_toString (n : Z) : string :=
  NilZero.string_of_int (Z.to_int n).

(** [s.toLowerCase()], ASCII letters only. *)
Definition lower_char (c : ascii) : ascii :=
  let n := nat_of_ascii c in
  if ((65 <=? n) && (n <=? 90))%nat then ascii_of_nat (n + 32) else c.

Fixpoint toLowerCase (s : string) : string :=
  match s with
  | EmptyString => EmptyString
  | String c r => String (lower_char c) (toLowerCase r)
  end.

(** [s.includes(needle)]. *)
Definition includes (needle s : string) : bool :=
  match String.index 0 needle s with
  | Some _ => true
  | None => false
  end.

(** [s.trim()]: white space and line terminators removed at both ends.
    The ASCII ones are the bytes 9 to 13 and 32.  The others are, in
    UTF-8, sequences of two or three bytes: U+00A0; U+1680, U+2000 to
    U+200A, U+2028, U+2029, U+202F, U+205F, U+3000 and U+FEFF. *)
Definition is_space (c : ascii) : bool :=
  let n := nat_of_ascii c in
  ((n =? 32) || ((9 <=? n) && (n <=? 13)))%nat.

Definition is_space2 (c1 c2 : ascii) : bool :=
  ((nat_of_ascii c1 =? 194) && (nat_of_ascii c2 =? 160))%nat.

Definition is_space3 (c1 c2 c3 : ascii) : bool :=
  let a := nat_of_ascii c1 in
  let b := nat_of_ascii c2 in
  let c := nat_of_ascii c3 in
  (((a =? 225) && (b =? 154) && (c =? 128))
   || ((a =? 226) && (b =? 128)
       && (((128 <=? c) && (c <=? 138)) || (c =? 168) || (c =? 169)
           || (c =? 175)))
   || ((a =? 226) && (b =? 129) && (c =? 159))
   || ((a =? 227) && (b =? 128) && (c =? 128))
   || ((a =? 239) && (b =? 187) && (c =? 191)))%nat.

(** The white space at the front of [s] removed; with [backwards], [s]
    is a string read from its end, in which the bytes of a code point
    come last byte first. *)
Fixpoint strip (backwards : bool) (s : string) : string :=
  match s with
  | EmptyString => EmptyString
  | String c1 r1 =>
      if is_space c1 then strip backwards r1
      else
        match r1 with
        | EmptyString => s
        | String c2 r2 =>
            if (if backwards then is_space2 c2 c1 else is_space2 c1 c2)
            then strip backwards r2
            else
              match r2 with
              | EmptyString => s
              | String c3 r3 =>
                  if (if backwards then is_space3 c3 c2 c1
                      else is_space3 c1 c2 c3)
                  then strip backwards r3
                  else s
              end
        end
  end.

Fixpoint rev_string (s acc : string) : string :=
  match s with
  | EmptyString => acc
  | String c r => rev_string r (String c acc)
  end.

Definition trimStart (s : string) : string := strip false s.

Definition trimEnd (s : string) : string :=
  rev_string (strip true (rev_string s EmptyString)) EmptyString.

Definition trim (s : string) : string := trimEnd (trimStart s).

(** Truthiness of a string: non-empty. *)
Definition truthy (s : string) : bool :=
  match s with EmptyString => false | _ => true end.

(** [parts.join(sep)]. *)
Fixpoint join (sep : string) (parts : list string) : string :=
  match parts with
  | [] => EmptyString
  | [p] => p
  | p :: rest => p ++ sep ++ join sep rest
  end.

(** [JSON.stringify] of a string: quoted, with the escapes of the
    standard (quote, backslash, and control characters). *)
Definition hex_digit (n : nat) : ascii :=
  if (n <? 10)%nat then ascii_of_nat (48 + n) else ascii_of_nat (87 + n).

Definition escape_char (c : ascii) : string :=
  let n := nat_of_ascii c in
  if (n =? 34)%nat then String "\" dquote
  else if (n =? 92)%nat then "\\"
  else if (n =? 8)%nat then "\b"
  else if (n =? 12)%nat then "\f"
  else if (n =? 10)%nat then "\n"
  else if (n =? 13)%nat then "\r"
  else if (n =? 9)%nat then "\t"
  else if (n <? 32)%nat then
    "\u00" ++ String (hex_digit (n / 16)) (String (hex_digit (n mod 16)) EmptyString)
  else String c EmptyString.

Fixpoint escape (s : string) : string :=
  match s with
  | EmptyString => EmptyString
  | String c r => escape_char c ++ escape r
  end.

Definition stringify_string (s : string) : string :=
  dquote ++ escape s ++ dquote.

Definition stringify_bool (b : bool) : string :=
  if b then "true" else "false".

End Js.

(** ** Data model ([types.ts] and the declarations of [App.tsx]) *)

Inductive ConnectionState := DISCONNECTED | CONNECTING | CONNECTED | ERROR.

Inductive Sender := user | jarvis.

(** [MessageLog]; a [Date] is its time value, milliseconds since the epoch. *)
Record MessageLog := {
  id : string;
  sender : Sender;
  text : string;
  timestamp : Z;
  isReport : option bool
}.

Definition RECONNECT_DELAY : Z := 30000.

(** A function call of the tool manifest [TOOLS]: the three declared
    functions with their required, typed parameters.  [other_call] is a
    call whose name is none of the three; its arguments are kept as the
    JSON text they print as.  The level of [set_volume] is a whole
    number: levels with a fraction are not modelled. *)
Inductive FunctionCall :=
| set_camera (fc_id : string) (enable : bool)
| set_volume (fc_id : string) (level : Z)
| create_report (fc_id : string) (title content : string)
| other_call (fc_id : string) (fc_name : string) (args_json : string).

Definition call_id (fc : FunctionCall) : string :=
  match fc with
  | set_camera i _ | set_volume i _ | create_report i _ _ | other_call i _ _ => i
  end.

Definition call_name (fc : FunctionCall) : string :=
  match fc with
  | set_camera _ _ => "set_camera"
  | set_volume _ _ => "set_volume"
  | create_report _ _ _ => "create_report"
  | other_call _ n _ => n
  end.

Definition is_create_report (fc : FunctionCall) : bool :=
  match fc with create_report _ _ _ => true | _ => false end.

(** [JSON.stringify(fc.args)]. *)
Definition call_args_json (fc : FunctionCall) : string :=
  let key (k : string) : string := (Js.stringify_string k ++ ":")%string in
  match fc with
  | set_camera _ e => "{" ++ key "enable" ++ Js.stringify_bool e ++ "}"
  | set_volume _ l => "{" ++ key "level" ++ Js.Number_toString l ++ "}"
  | create_report _ t c =>
      "{" ++ key "title" ++ Js.stringify_string t ++ ","
          ++ key "content" ++ Js.stringify_string c ++ "}"
  | other_call _ _ a => a
  end.

(** One element of [functionResponses]. *)
Record FunctionResponse := {
  fr_id : string;
  fr_name : string;
  fr_result : string
}.

(** A decoded playback buffer ([decodeAudioData] is not among the sources
    at hand: an inline-audio fragment is represented by the buffer it
    decodes to, of which only the duration is used). *)
Record AudioBuffer := { duration : Q }.

(** [LiveServerMessage], restricted to the fields [onmessage] reads. *)
Record LiveServerMessage := {
  toolCall : option (list FunctionCall);
  outputTranscription : option string;
  inputTranscription : option string;
  turnComplete : bool;
  inlineAudio : option AudioBuffer;
  interrupted : bool
}.

(** The pending report, [{id, title, content} | null]. *)
Record PendingReport := {
  pr_id : string;
  pr_title : string;
  pr_content : string
}.

(** What a closure created by a render captured of the React state. *)
Record Closure := {
  cl_isMuted : bool;
  cl_isVideoEnabled : bool;
  cl_pendingReport : option PendingReport;
  cl_editedTitle : string
}.

(** A session created by [ai.live.connect]: its callbacks belong to the
    call of [connectToGemini] that created it. *)
Record Session := {
  s_closure : Closure;
  s_isReconnect : bool
}.

(** Timers of the browser ([setTimeout], [setInterval]). *)
Inductive Callback :=
| CbReconnect (cl : Closure)     (* () => connectToGemini(true) *)
| CbSpeakingOff                  (* () => setIsSpeaking(false) *)
| CbVideoFrame.                  (* () => sendVideoFrame(), repeating *)

Record Timer := {
  t_id : nat;
  t_delay : Z;
  t_callback : Callback
}.

Definition is_reconnect (t : Timer) : bool :=
  match t_callback t with CbReconnect _ => true | _ => false end.

(** A captured microphone chunk and its encoding by [createAudioBlob]
    (of [utils/audioUtils], not among the sources at hand: the encoded
    blob is represented by the chunk it was made from). *)
Definition Chunk := list Z.

Inductive Blob := createAudioBlob (inputData : Chunk).

(** Messages sent on the channel of a session. *)
Inductive Outbound :=
| sendToolResponse (functionResponses : list FunctionResponse)
| sendRealtimeInput (media : Blob)
| sendVideoFrame_jpeg.

(** A call [source.start(when)] of a playback source. *)
Record Started := {
  st_handle : nat;
  st_when : Q;
  st_duration : Q;
  st_gain : Q
}.

(** What the environment answers when a handler asks. *)
Record Env := {
  e_now : Z;          (* Date.now(), new Date() *)
  e_clock : Q;        (* outputAudioContext.currentTime *)
  e_apiKey : bool;    (* process.env.API_KEY is set *)
  e_mic : bool;       (* getUserMedia({audio}) is granted *)
  e_cam : bool        (* getUserMedia({video}) is granted and plays *)
}.

(** Serialized form of the transcript in local storage: the JSON value
    written by [JSON.stringify] and read back by [JSON.parse]. *)
#[local] Set Warnings "-register-all".
Inductive Json :=
| JNull
| JBool (b : bool)
| JNum (n : Z)
| JStr (s : string)
| JArr (items : list Json)
| JObj (fields : list (string * Json)).

(** The component: React state, refs, and the browser around it. *)
Record State := {
  (* useState *)
  connectionState : ConnectionState;
  isMuted : bool;
  isVideoEnabled : bool;
  volume : Q;
  logs : list MessageLog;
  isSpeaking : bool;
  errorMsg : option string;
  pendingReport : option PendingReport;
  editedTitle : string;
  (* useRef *)
  inputAudioContextRef : bool;
  outputAudioContextRef : bool;
  sessionPromiseRef : option nat;
  nextStartTimeRef : Q;
  sourcesRef : list nat;
  frameIntervalRef : option nat;
  mediaStreamRef : bool;
  volumeRef : Q;
  isManuallyDisconnectedRef : bool;
  reconnectTimeoutRef : option nat;
  currentInputTranscription : string;
  currentOutputTranscription : string;
  lastProcessedCommandRef : Z;
  (* browser and remote service *)
  videoSrcObject : bool;
  timers : list Timer;
  nextTimerId : nat;
  sessions : list Session;
  closedSessions : list nat;
  sent : list (nat * Outbound);
  processors : list Closure;
  nextSourceId : nat;
  started : list Started;
  stopped : list nat;
  connectCalls : list bool;
  storage : option Json
}.

(** ** Primitive operations on the state *)

(** The closures of the current render. *)
Definition render (st : State) : Closure :=
  {| cl_isMuted := isMuted st;
     cl_isVideoEnabled := isVideoEnabled st;
     cl_pendingReport := pendingReport st;
     cl_editedTitle := editedTitle st |}.

(** [setTimeout(cb, delay)] and [setInterval(cb, delay)]: the new timer
    gets the next identifier, which is the value returned. *)
Definition setTimer (cb : Callback) (delay : Z) (st : State) : State :=
  st {{ timers ::= fun ts =>
          ts ++ [{| t_id := nextTimerId st; t_delay := delay; t_callback := cb |}];
        nextTimerId ::= S }}.

(** [clearTimeout(i)], [clearInterval(i)]. *)
Definition clearTimer (i : nat) (st : State) : State :=
  st {{ timers ::= filter (fun t => negb (t_id t =? i)%nat) }}.

(** [if (ref.current) clearTimeout(ref.current)]. *)
Definition clearTimerRef (r : option nat) (st : State) : State :=
  match r with
  | Some i => clearTimer i st
  | None => st
  end.

(** [setLogs(prev => [...prev, e])]. *)
Definition appendLog (e : MessageLog) (st : State) : State :=
  st {{ logs ::= fun l => l ++ [e] }}.

(** [sessionPromiseRef.current?.then(session => session.send...(o))]. *)
Definition send (o : Outbound) (st : State) : State :=
  match sessionPromiseRef st with
  | Some sid => st {{ sent ::= fun l => l ++ [(sid, o)] }}
  | None => st
  end.

(** A log entry created now: [{ id: Date.now() + tag, sender, text,
    timestamp: new Date() }]. *)
Definition logEntry (env : Env) (tag : string) (who : Sender) (t : string)
  : MessageLog :=
  {| id := (Js.Number_toString (e_now env) ++ tag)%string;
     sender := who;
     text := t;
     timestamp := e_now env;
     isReport := None |}.

(** ** Handlers of the component *)

Definition initializeAudioContexts (st : State) : State :=
  st {{ inputAudioContextRef := true; outputAudioContextRef := true }}.

(** Closing the input context takes its script processors with it. *)
Definition stopAudioContexts (st : State) : State :=
  st {{ inputAudioContextRef := false;
        outputAudioContextRef := false;
        processors := [] }}.

Definition toggleMute (st : State) : State :=
  st {{ isMuted ::= negb }}.

Definition startVideo (env : Env) (st : State) : State :=
  if e_cam env then
    (setTimer CbVideoFrame 1000
       (st {{ videoSrcObject := true; isVideoEnabled := true }}))
      {{ frameIntervalRef := Some (nextTimerId st) }}
  else
    appendLog
      (logEntry env "sys" jarvis "Camera access denied or unavailable.")
      (st {{ isVideoEnabled := false }}).

Definition stopVideo (st : State) : State :=
  let st1 := st {{ videoSrcObject := false }} in
  let st2 :=
    match frameIntervalRef st1 with
    | Some i => (clearTimer i st1) {{ frameIntervalRef := None }}
    | None => st1
    end in
  st2 {{ isVideoEnabled := false }}.

Definition sendVideoFrame (st : State) : State :=
  send sendVideoFrame_jpeg st.

Definition scheduleReconnect (cl : Closure) (env : Env) (st : State) : State :=
  let st1 := clearTimerRef (reconnectTimeoutRef st) st in
  let st2 :=
    appendLog
      (logEntry env "sys" jarvis
         ("⚠️ CONNECTION LOST. ATTEMPTING RECONNECT IN "
            ++ Js.Number_toString (RECONNECT_DELAY / 1000) ++ " SECONDS..."))
      st1 in
  (setTimer (CbReconnect cl) RECONNECT_DELAY st2)
    {{ reconnectTimeoutRef := Some (nextTimerId st2) }}.

Definition disconnect (st : State) : State :=
  let st1 := st {{ isManuallyDisconnectedRef := true }} in
  let st2 := clearTimerRef (reconnectTimeoutRef st1) st1 in
  let st3 := stopVideo st2 in
  let st4 :=
    match sessionPromiseRef st3 with
    | Some sid =>
        st3 {{ closedSessions ::= fun l => l ++ [sid];
               sessionPromiseRef := None }}
    | None => st3
    end in
  let st5 := st4 {{ mediaStreamRef := false }} in
  let st6 := stopAudioContexts st5 in
  st6 {{ connectionState := DISCONNECTED;
         isSpeaking := false;
         isVideoEnabled := false }}.

(** The [catch] block of [connectToGemini]. *)
Definition connectFailed (cl : Closure) (env : Env) (message : string)
    (st : State) : State :=
  let st1 := st {{ errorMsg := Some message; connectionState := ERROR }} in
  if negb (isManuallyDisconnectedRef st1) then scheduleReconnect cl env st1
  else st1.

Definition connectToGemini (cl : Closure) (isReconnect : bool) (env : Env)
    (st : State) : State :=
  let st0 := st {{ connectCalls ::= fun l => l ++ [isReconnect] }} in
  let st1 :=
    if isReconnect then st0 else st0 {{ isManuallyDisconnectedRef := false }} in
  let st2 := clearTimerRef (reconnectTimeoutRef st1) st1 in
  let st3 := st2 {{ errorMsg := None; connectionState := CONNECTING }} in
  let st4 := initializeAudioContexts st3 in
  if negb (e_apiKey env) then
    connectFailed cl env "API Key not found in environment variables" st4
  else if negb (e_mic env) then
    connectFailed cl env "Microphone access denied. Please check permissions." st4
  else
    st4 {{ mediaStreamRef := true;
           sessions ::= fun l =>
             l ++ [{| s_closure := cl; s_isReconnect := isReconnect |}];
           sessionPromiseRef := Some (List.length (sessions st4)) }}.

Definition toggleConnection (env : Env) (st : State) : State :=
  match connectionState st with
  | CONNECTED | CONNECTING => disconnect st
  | _ => connectToGemini (render st) false env st
  end.

Definition toggleVideo (env : Env) (st : State) : State :=
  if isVideoEnabled st then stopVideo st else startVideo env st.

(** *** Local voice commands *)

Inductive VoiceCommand :=
| CmdToggleMute
| CmdCameraOn
| CmdCameraOff
| CmdDisconnect.

(** The [if / else if] chain of [checkLocalCommands] on the lower-cased
    text: the first phrase group that is present decides. *)
Definition matchCommand (lower : string) : option VoiceCommand :=
  if Js.includes "toggle mute" lower then Some CmdToggleMute
  else if Js.includes "turn on camera" lower || Js.includes "enable camera" lower
  then Some CmdCameraOn
  else if Js.includes "turn off camera" lower || Js.includes "disable camera" lower
  then Some CmdCameraOff
  else if Js.includes "disconnect" lower || Js.includes "shut down" lower
          || Js.includes "deactivate" lower
  then Some CmdDisconnect
  else None.

(** The body of the branch taken. *)
Definition runCommand (cl : Closure) (env : Env) (c : VoiceCommand)
    (st : State) : State :=
  match c with
  | CmdToggleMute => toggleMute st
  | CmdCameraOn => if negb (cl_isVideoEnabled cl) then startVideo env st else st
  | CmdCameraOff => if cl_isVideoEnabled cl then stopVideo st else st
  | CmdDisconnect => disconnect st
  end.

Definition voiceCommandEntry (env : Env) (t : string) : MessageLog :=
  logEntry env "cmd" user ("[VOICE COMMAND]: " ++ t).

Definition checkLocalCommands (cl : Closure) (env : Env) (t : string)
    (st : State) : State :=
  let now := e_now env in
  if (now - lastProcessedCommandRef st <? 2000)%Z then st
  else
    match matchCommand (Js.toLowerCase t) with
    | Some c =>
        appendLog (voiceCommandEntry env t)
          ((runCommand cl env c st) {{ lastProcessedCommandRef := now }})
    | None => st
    end.

(** *** Tool calls *)

(** [Math.max(0, Math.min(100, level)) / 100]. *)
Definition newVol (level : Z) : Q :=
  inject_Z (Z.max 0 (Z.min 100 level)) / inject_Z 100.

(** One turn of the loop over [message.toolCall.functionCalls].  The
    [catch] of the loop body is not reachable: [startVideo] handles its
    own failure and the other calls cannot throw. *)
Definition execCall (env : Env) (acc : State * list FunctionResponse)
    (fc : FunctionCall) : State * list FunctionResponse :=
  let '(st, responses) := acc in
  match fc with
  | create_report i t c =>
      (st {{ editedTitle := t;
             pendingReport := Some {| pr_id := i; pr_title := t; pr_content := c |} }},
       responses)
  | _ =>
      let '(st1, result) :=
        match fc with
        | set_camera _ e =>
            (if e then startVideo env st else stopVideo st,
             if e then "Camera enabled." else "Camera disabled.")
        | set_volume _ l =>
            (st {{ volume := newVol l }},
             ("Volume set to " ++ Js.Number_toString l ++ "%.")%string)
        | _ => (st, "Function executed successfully.")
        end in
      (st1,
       responses ++ [{| fr_id := call_id fc;
                        fr_name := call_name fc;
                        fr_result := result |}])
  end.

Definition toolLogText (calls : list FunctionCall) : string :=
  "⚙️ EXECUTING PROTOCOL: "
    ++ Js.join ", "
         (map (fun fc => (call_name fc ++ "(" ++ call_args_json fc ++ ")")%string)
              calls).

Definition handleToolCall (env : Env) (calls : list FunctionCall)
    (st : State) : State :=
  let st1 := appendLog (logEntry env "sys" jarvis (toolLogText calls)) st in
  let '(st2, responses) := fold_left (execCall env) calls (st1, []) in
  match responses with
  | [] => st2
  | _ => send (sendToolResponse responses) st2
  end.

(** *** The message handler of a session *)

Definition handleTranscription (cl : Closure) (env : Env)
    (m : LiveServerMessage) (st : State) : State :=
  match outputTranscription m with
  | Some t => st {{ currentOutputTranscription ::= fun s => (s ++ t)%string }}
  | None =>
      match inputTranscription m with
      | Some t =>
          let st1 :=
            st {{ currentInputTranscription ::= fun s => (s ++ t)%string }} in
          checkLocalCommands cl env (currentInputTranscription st1) st1
      | None => st
      end
  end.

Definition handleTurnComplete (env : Env) (st : State) : State :=
  let userText := Js.trim (currentInputTranscription st) in
  let modelText := Js.trim (currentOutputTranscription st) in
  let st1 :=
    if Js.truthy userText || Js.truthy modelText then
      st {{ logs ::= fun l =>
              l ++ (if Js.truthy userText
                    then [logEntry env "u" user userText] else [])
                ++ (if Js.truthy modelText
                    then [logEntry env "m" jarvis modelText] else []) }}
    else st in
  st1 {{ currentInputTranscription := EmptyString;
         currentOutputTranscription := EmptyString;
         isSpeaking := false }}.

(** Inline audio: the buffer is started at
    [max(nextStartTime, currentTime)] and the next start time moves to
    its end. *)
Definition handleAudio (env : Env) (buf : AudioBuffer) (st : State) : State :=
  if outputAudioContextRef st then
    let st1 := st {{ isSpeaking := true }} in
    let st2 := st1 {{ nextStartTimeRef ::= fun t => Qmax t (e_clock env) }} in
    st2 {{ started ::= fun l =>
             l ++ [{| st_handle := nextSourceId st2;
                      st_when := nextStartTimeRef st2;
                      st_duration := duration buf;
                      st_gain := volumeRef st2 |}];
           nextStartTimeRef ::= fun t => (t + duration buf)%Q;
           sourcesRef ::= fun l => l ++ [nextSourceId st2];
           nextSourceId ::= S }}
  else st.

Definition handleInterrupted (st : State) : State :=
  st {{ stopped ::= fun l => l ++ sourcesRef st;
        sourcesRef := [];
        nextStartTimeRef := 0%Q;
        isSpeaking := false;
        currentOutputTranscription := EmptyString }}.

Definition onmessage (cl : Closure) (env : Env) (m : LiveServerMessage)
    (st : State) : State :=
  let st1 :=
    match toolCall m with
    | Some calls => handleToolCall env calls st
    | None => st
    end in
  let st2 := handleTranscription cl env m st1 in
  let st3 := if turnComplete m then handleTurnComplete env st2 else st2 in
  let st4 :=
    match inlineAudio m with
    | Some buf => handleAudio env buf st3
    | None => st3
    end in
  if interrupted m then handleInterrupted st4 else st4.

(** The [ended] event of a playback source. *)
Definition onended (h : nat) (st : State) : State :=
  let st1 := st {{ sourcesRef ::= filter (fun x => negb (x =? h)%nat) }} in
  match sourcesRef st1 with
  | [] => setTimer CbSpeakingOff 200 st1
  | _ => st1
  end.

(** *** The other callbacks of a session *)

Definition onopen (cl : Closure) (st : State) : State :=
  let st1 := st {{ connectionState := CONNECTED }} in
  if inputAudioContextRef st1 then st1 {{ processors ::= fun l => l ++ [cl] }}
  else st1.

(** [scriptProcessor.onaudioprocess]: [isMuted] is the value the closure
    of the session captured. *)
Definition onaudioprocess (cl : Closure) (inputData : Chunk) (st : State)
  : State :=
  if cl_isMuted cl then st
  else send (sendRealtimeInput (createAudioBlob inputData)) st.

Definition onclose (cl : Closure) (env : Env) (st : State) : State :=
  let st1 :=
    if negb (isManuallyDisconnectedRef st) then scheduleReconnect cl env st
    else st in
  st1 {{ connectionState := DISCONNECTED }}.

(** [err.message || "Connection lost. ..."]. *)
Definition onerror (cl : Closure) (env : Env) (message : string) (st : State)
  : State :=
  let shown :=
    if Js.truthy message then message
    else "Connection lost. J.A.R.V.I.S. is currently unavailable." in
  let st1 := st {{ errorMsg := Some shown; connectionState := ERROR }} in
  if negb (isManuallyDisconnectedRef st1) then scheduleReconnect cl env st1
  else st1.

(** *** Report actions *)

Definition handleConfirmReport (cl : Closure) (env : Env) (st : State) : State :=
  match cl_pendingReport cl with
  | None => st
  | Some r =>
      let entry :=
        {| id := (Js.Number_toString (e_now env) ++ "r")%string;
           sender := jarvis;
           text := (cl_editedTitle cl ++ Js.newline ++ Js.newline
                      ++ pr_content r)%string;
           timestamp := e_now env;
           isReport := Some true |} in
      let st1 := appendLog entry st in
      let st2 :=
        send (sendToolResponse
                [{| fr_id := pr_id r;
                    fr_name := "create_report";
                    fr_result :=
                      ("Report " ++ Js.dquote ++ cl_editedTitle cl ++ Js.dquote
                         ++ " generated successfully.")%string |}])
             st1 in
      st2 {{ pendingReport := None }}
  end.

Definition handleCancelReport (cl : Closure) (st : State) : State :=
  let st1 :=
    match cl_pendingReport cl with
    | Some r =>
        send (sendToolResponse
                [{| fr_id := pr_id r;
                    fr_name := "create_report";
                    fr_result := "User cancelled the report generation." |}])
             st
    | None => st
    end in
  st1 {{ pendingReport := None }}.

(** *** Timers *)

(** The browser runs the callback of timer [i], if it is pending.  A
    time-out is spent by running; an interval stays. *)
Definition fireTimer (i : nat) (env : Env) (st : State) : State :=
  match find (fun t => (t_id t =? i)%nat) (timers st) with
  | None => st
  | Some t =>
      match t_callback t with
      | CbReconnect cl => connectToGemini cl true env (clearTimer i st)
      | CbSpeakingOff => (clearTimer i st) {{ isSpeaking := false }}
      | CbVideoFrame => sendVideoFrame st
      end
  end.

(** ** Dates and their ISO rendering ([Date.prototype.toISOString],
    used by [JSON.stringify], and the [Date] constructor on a string) *)

Module JsDate.

Definition msPerDay : Z := 86400000.

(** Year, month (1..12) and day of month of a day number counted from
    1970-01-01, in the proleptic Gregorian calendar.  Days are counted
    from 0000-03-01 and split into 400-year eras, centuries, 4-year
    cycles and years that start in March. *)
Definition civil_from_days (z : Z) : Z * Z * Z :=
  let z1 := z + 719468 in
  let era := z1 / 146097 in
  let doe := z1 mod 146097 in
  let n100 := Z.min (doe / 36524) 3 in
  let r1 := doe - 36524 * n100 in
  let n4 := r1 / 1461 in
  let r2 := r1 mod 1461 in
  let n1 := Z.min (r2 / 365) 3 in
  let doy := r2 - 365 * n1 in
  let y := 400 * era + 100 * n100 + 4 * n4 + n1 in
  let mp := (5 * doy + 2) / 153 in
  let d := doy - (153 * mp + 2) / 5 + 1 in
  let m := if mp <? 10 then mp + 3 else mp - 9 in
  (if m <=? 2 then y + 1 else y, m, d).

(** The day number of a calendar date. *)
Definition days_from_civil (y m d : Z) : Z :=
  let y1 := if m <=? 2 then y - 1 else y in
  let era := y1 / 400 in
  let yoe := y1 mod 400 in
  let mp := if 2 <? m then m - 3 else m + 9 in
  let doy := (153 * mp + 2) / 5 + d - 1 in
  let doe := yoe * 365 + yoe / 4 - yoe / 100 + doy in
  era * 146097 + doe - 719468.

Definition isLeapYear (y : Z) : bool :=
  ((y mod 4 =? 0) && negb (y mod 100 =? 0)) || (y mod 400 =? 0).

Definition daysInMonth (y m : Z) : Z :=
  if m =? 2 then (if isLeapYear y then 29 else 28)
  else if (m =? 4) || (m =? 6) || (m =? 9) || (m =? 11) then 30
  else 31.

(** Decimal digits. *)
Definition digit_char (n : Z) : ascii := ascii_of_nat (48 + Z.to_nat n).

Definition digit_value (c : ascii) : option Z :=
  let n := nat_of_ascii c in
  if ((48 <=? n) && (n <=? 57))%nat then Some (Z.of_nat n - 48) else None.

(** [n] written with exactly [k] digits. *)
Fixpoint pad (k : nat) (n : Z) : string :=
  match k with
  | O => EmptyString
  | S k' => String (digit_char ((n / 10 ^ Z.of_nat k') mod 10)) (pad k' n)
  end.

(** [toISOString]: [YYYY-MM-DDTHH:mm:ss.sssZ], with a sign and six
    digits for a year outside 0..9999. *)
Definition year_string (y : Z) : string :=
  if ((0 <=? y) && (y <=? 9999))%Z then pad 4 y
  else ((if (y <? 0)%Z then "-" else "+") ++ pad 6 (Z.abs y))%string.

Definition toISOString (t : Z) : string :=
  let '(y, m, d) := civil_from_days (t / msPerDay) in
  let r := t mod msPerDay in
  (year_string y ++ "-" ++ pad 2 m ++ "-" ++ pad 2 d ++ "T"
     ++ pad 2 (r / 3600000) ++ ":" ++ pad 2 ((r / 60000) mod 60) ++ ":"
     ++ pad 2 ((r / 1000) mod 60) ++ "." ++ pad 3 (r mod 1000) ++ "Z")%string.

(** Reading: [k] digits, then the rest. *)
Fixpoint number (k : nat) (acc : Z) (s : string) : option (Z * string) :=
  match k with
  | O => Some (acc, s)
  | S k' =>
      match s with
      | EmptyString => None
      | String c r =>
          match digit_value c with
          | Some v => number k' (10 * acc + v) r
          | None => None
          end
      end
  end.

Definition expect (c : ascii) (s : string) : option string :=
  match s with
  | String c' r => if Ascii.eqb c c' then Some r else None
  | EmptyString => None
  end.

Definition bind {A B} (x : option A) (f : A -> option B) : option B :=
  match x with Some a => f a | None => None end.

(** [new Date(s).getTime()] for a string in the format [toISOString]
    emits for the years 0..9999; [None] is the invalid date.  The other
    formats the runtime accepts are not covered. *)
Definition parse (s : string) : option Z :=
  bind (number 4 0 s) (fun '(y, s) =>
  bind (expect "-" s) (fun s =>
  bind (number 2 0 s) (fun '(m, s) =>
  bind (expect "-" s) (fun s =>
  bind (number 2 0 s) (fun '(d, s) =>
  bind (expect "T" s) (fun s =>
  bind (number 2 0 s) (fun '(h, s) =>
  bind (expect ":" s) (fun s =>
  bind (number 2 0 s) (fun '(mi, s) =>
  bind (expect ":" s) (fun s =>
  bind (number 2 0 s) (fun '(sec, s) =>
  bind (expect "." s) (fun s =>
  bind (number 3 0 s) (fun '(ms, s) =>
  bind (expect "Z" s) (fun s =>
    match s with
    | EmptyString =>
        if (1 <=? m) && (m <=? 12) && (1 <=? d) && (d <=? daysInMonth y m)
           && (h <=? 23) && (mi <=? 59) && (sec <=? 59)
        then Some (days_from_civil y m d * msPerDay
                   + h * 3600000 + mi * 60000 + sec * 1000 + ms)
        else None
    | _ => None
    end)))))))))))))).

End JsDate.

(** ** The transcript in local storage *)

Definition sender_string (s : Sender) : string :=
  match s with user => "user" | jarvis => "jarvis" end.

(** [JSON.stringify(logs)]: a [Date] prints as its ISO string, a field
    that is [undefined] is left out. *)
Definition stringify_log (e : MessageLog) : Json :=
  JObj ([("id", JStr (id e));
         ("sender", JStr (sender_string (sender e)));
         ("text", JStr (text e));
         ("timestamp", JStr (JsDate.toISOString (timestamp e)))]
        ++ match isReport e with
           | Some b => [("isReport", JBool b)]
           | None => []
           end).

Definition stringify_logs (l : list MessageLog) : Json :=
  JArr (map stringify_log l).

(** A field of a parsed object (of two equal keys the last one counts). *)
Fixpoint field (k : string) (fields : list (string * Json)) : option Json :=
  match fields with
  | [] => None
  | (k', v) :: rest =>
      match field k rest with
      | Some v' => Some v'
      | None => if String.eqb k k' then Some v else None
      end
  end.

(** [{ ...log, timestamp: new Date(log.timestamp) }] for an object that
    has the shape of a [MessageLog]; [None] for anything else. *)
Definition revive (j : Json) : option MessageLog :=
  match j with
  | JObj fs =>
      match field "id" fs, field "sender" fs, field "text" fs,
            field "timestamp" fs with
      | Some (JStr i), Some (JStr s), Some (JStr t), Some (JStr d) =>
          match (if String.eqb s "user" then Some user
                 else if String.eqb s "jarvis" then Some jarvis else None),
                JsDate.parse d,
                (match field "isReport" fs with
                 | None => Some None
                 | Some (JBool b) => Some (Some b)
                 | Some _ => None
                 end) with
          | Some who, Some ts, Some rep =>
              Some {| id := i; sender := who; text := t;
                      timestamp := ts; isReport := rep |}
          | _, _, _ => None
          end
      | _, _, _, _ => None
      end
  | _ => None
  end.

Fixpoint revive_all (items : list Json) : option (list MessageLog) :=
  match items with
  | [] => Some []
  | j :: rest =>
      match revive j, revive_all rest with
      | Some e, Some l => Some (e :: l)
      | _, _ => None
      end
  end.

(** The initializer of [logs]: the stored array with its time stamps
    turned back into dates; the empty transcript when nothing is stored
    or when reading fails.  Stored arrays whose items do not have the
    shape of a [MessageLog] are outside the model and read as empty. *)
Definition loadLogs (saved : option Json) : list MessageLog :=
  match saved with
  | Some (JArr items) =>
      match revive_all items with
      | Some l => l
      | None => []
      end
  | _ => []
  end.

(** The effects that run after a render: [volumeRef.current = volume]
    and [localStorage.setItem('jarvis_logs', JSON.stringify(logs))]. *)
Definition commit (st : State) : State :=
  st {{ volumeRef := volume st;
        storage := Some (stringify_logs (logs st)) }}.

(** The component as first rendered, before its effects have run. *)
Definition initialState (saved : option Json) : State :=
  {| connectionState := DISCONNECTED;
     isMuted := false;
     isVideoEnabled := false;
     volume := 1;
     logs := loadLogs saved;
     isSpeaking := false;
     errorMsg := None;
     pendingReport := None;
     editedTitle := EmptyString;
     inputAudioContextRef := false;
     outputAudioContextRef := false;
     sessionPromiseRef := None;
     nextStartTimeRef := 0;
     sourcesRef := [];
     frameIntervalRef := None;
     mediaStreamRef := false;
     volumeRef := 1;
     isManuallyDisconnectedRef := false;
     reconnectTimeoutRef := None;
     currentInputTranscription := EmptyString;
     currentOutputTranscription := EmptyString;
     lastProcessedCommandRef := 0;
     videoSrcObject := false;
     timers := [];
     nextTimerId := 1;
     sessions := [];
     closedSessions := [];
     sent := [];
     processors := [];
     nextSourceId := 0;
     started := [];
     stopped := [];
     connectCalls := [];
     storage := saved |}.

(** ** The event loop *)

(** What can happen to the mounted component: an action of the user, a
    callback of a session, an event of the audio graph, a timer. *)
Inductive Event :=
| EvToggleConnection (env : Env)
| EvToggleMute
| EvToggleVideo (env : Env)
| EvVolumeSlider (v : Q)
| EvEditTitle (s : string)
| EvConfirmReport (env : Env)
| EvCancelReport
| EvOpen (sid : nat)
| EvMessage (sid : nat) (env : Env) (m : LiveServerMessage)
| EvClose (sid : nat) (env : Env)
| EvError (sid : nat) (env : Env) (message : string)
| EvAudioProcess (k : nat) (inputData : Chunk)
| EvEnded (h : nat)
| EvTimer (i : nat) (env : Env).

(** A callback of session [sid] runs with the closure of the call of
    [connectToGemini] that created the session. *)
Definition withSession (sid : nat) (f : Closure -> State -> State)
    (st : State) : State :=
  match nth_error (sessions st) sid with
  | Some s => f (s_closure s) st
  | None => st
  end.

(** The handler of an event.  The mute and video buttons are disabled
    unless the state is [CONNECTED]; the report dialog exists only while
    a report is pending. *)
Definition handle (ev : Event) (st : State) : State :=
  match ev with
  | EvToggleConnection env => toggleConnection env st
  | EvToggleMute =>
      match connectionState st with
      | CONNECTED => toggleMute st
      | _ => st
      end
  | EvToggleVideo env =>
      match connectionState st with
      | CONNECTED => toggleVideo env st
      | _ => st
      end
  | EvVolumeSlider v => st {{ volume := v }}
  | EvEditTitle s =>
      match pendingReport st with
      | Some _ => st {{ editedTitle := s }}
      | None => st
      end
  | EvConfirmReport env => handleConfirmReport (render st) env st
  | EvCancelReport => handleCancelReport (render st) st
  | EvOpen sid => withSession sid onopen st
  | EvMessage sid env m => withSession sid (fun cl => onmessage cl env m) st
  | EvClose sid env => withSession sid (fun cl => onclose cl env) st
  | EvError sid env message =>
      withSession sid (fun cl => onerror cl env message) st
  | EvAudioProcess k inputData =>
      match nth_error (processors st) k with
      | Some cl => onaudioprocess cl inputData st
      | None => st
      end
  | EvEnded h => onended h st
  | EvTimer i env => fireTimer i env st
  end.

(** One turn of the loop: the handler, then the render and its effects. *)
Definition step (ev : Event) (st : State) : State :=
  commit (handle ev st).

Definition run (evs : list Event) (st : State) : State :=
  fold_left (fun s ev => step ev s) evs st.

(** The component after mounting on a page whose storage holds [saved]. *)
Definition mounted (saved : option Json) : State :=
  commit (initialState saved).

Inductive reachable : State -> Prop :=
| reachable_mounted saved : reachable (mounted saved)
| reachable_step ev st : reachable st -> reachable (step ev st).

(** ** Scenarios used to exercise the model *)

(** An environment in which every request is granted. *)
Definition envAt (now : Z) (clock : Q) : Env :=
  {| e_now := now; e_clock := clock;
     e_apiKey := true; e_mic := true; e_cam := true |}.

(** The same with no API key configured. *)
Definition envNoKey (now : Z) : Env :=
  {| e_now := now; e_clock := 0;
     e_apiKey := false; e_mic := true; e_cam := true |}.

Definition toolCallMessage (calls : list FunctionCall) : LiveServerMessage :=
  {| toolCall := Some calls;
     outputTranscription := None;
     inputTranscription := None;
     turnComplete := false;
     inlineAudio := None;
     interrupted := false |}.

Definition audioFragment (buf : AudioBuffer) : LiveServerMessage :=
  {| toolCall := None;
     outputTranscription := None;
     inputTranscription := None;
     turnComplete := false;
     inlineAudio := Some buf;
     interrupted := false |}.

Definition interruption : LiveServerMessage :=
  {| toolCall := None;
     outputTranscription := None;
     inputTranscription := None;
     turnComplete := false;
     inlineAudio := None;
     interrupted := true |}.

(** A fragment of the transcription of what the user says. *)
Definition inputFragmentMessage (t : string) : LiveServerMessage :=
  {| toolCall := None;
     outputTranscription := None;
     inputTranscription := Some t;
     turnComplete := false;
     inlineAudio := None;
     interrupted := false |}.

(** A fresh page on which the user pressed the power button at wall-clock
    time [now] and the session opened. *)
Definition connectedAt (now : Z) : State :=
  run [EvToggleConnection (envAt now 0); EvOpen 0] (mounted None).

(** ** Observations used in the statements *)

(** The response the loop of [handleToolCall] builds for a call that is
    answered at once. *)
Definition responseOf (fc : FunctionCall) : FunctionResponse :=
  {| fr_id := call_id fc;
     fr_name := call_name fc;
     fr_result :=
       match fc with
       | set_camera _ e => if e then "Camera enabled." else "Camera disabled."
       | set_volume _ l => "Volume set to " ++ Js.Number_toString l ++ "%."
       | _ => "Function executed successfully."
       end |}.

Definition answeredAtOnce (calls : list FunctionCall) : list FunctionCall :=
  filter (fun fc => negb (is_create_report fc)) calls.

(** The report staged by a batch: the last [create_report] call, or what
    was staged before when the batch has none. *)
Definition stagedReport (calls : list FunctionCall)
    (before : option PendingReport) : option PendingReport :=
  fold_left
    (fun acc fc =>
       match fc with
       | create_report i t c =>
           Some {| pr_id := i; pr_title := t; pr_content := c |}
       | _ => acc
       end)
    calls before.

(** All the function responses sent so far that carry identifier [i]. *)
Definition responsesFor (i : string) (st : State) : list FunctionResponse :=
  flat_map
    (fun '(_, o) =>
       match o with
       | sendToolResponse rs => filter (fun r => String.eqb (fr_id r) i) rs
       | _ => []
       end)
    (sent st).

(** The reconnect timers that are pending. *)
Definition reconnectTimers (st : State) : list Timer :=
  filter is_reconnect (timers st).

(** The pending timers are well identified: identifiers are below the
    next one to hand out and pairwise distinct, and a pending reconnect
    timer is the one [reconnectTimeoutRef] points to. *)
Definition TimersOk (st : State) : Prop :=
  (forall t, In t (timers st) -> (t_id t < nextTimerId st)%nat) /\
  NoDup (map t_id (timers st)) /\
  (forall t, In t (timers st) -> is_reconnect t = true ->
             reconnectTimeoutRef st = Some (t_id t)).


(** The log entries that are tagged as voice commands. *)
Definition voiceCommandLogs (st : State) : list MessageLog :=
  filter (fun e => String.prefix "[VOICE COMMAND]: " (text e)) (logs st).

(** A sequence of inline-audio fragments, each handled at the clock time
    paired with it. *)
Definition playFragments (cl : Closure) (fs : list (Env * AudioBuffer))
    (st : State) : State :=
  fold_left (fun s '(env, buf) => onmessage cl env (audioFragment buf) s) fs st.

(** The schedule the specification describes: each buffer starts at the
    later of the previous end and the clock, and ends one duration on. *)
Fixpoint gaplessSchedule (next : Q) (fs : list (Env * AudioBuffer))
  : list (Q * Q) :=
  match fs with
  | [] => []
  | (env, buf) :: rest =>
      let start := Qmax next (e_clock env) in
      (start, duration buf) :: gaplessSchedule (start + duration buf)%Q rest
  end.

(** Appending entries one at a time, the effects running after each. *)
Definition appendAll (es : list MessageLog) (st : State) : State :=
  fold_left (fun s e => commit (appendLog e s)) es st.

(** ** Footprints of the handlers

    [untouched p g] says that the observation [p] of the state does not
    depend on field [g]. *)
Definition untouched {A E : Type} (p : State -> A) (g : State -> E)
    {s : Setter g} : Prop :=
  forall f st, p (apply_update (mk_update g f) st) = p st.

Definition untouched_by_video {A} (p : State -> A) : Prop :=
  untouched p videoSrcObject /\ untouched p isVideoEnabled /\
  untouched p frameIntervalRef /\ untouched p timers /\
  untouched p nextTimerId.

Definition untouched_by_disconnect {A} (p : State -> A) : Prop :=
  untouched_by_video p /\
  untouched p isManuallyDisconnectedRef /\ untouched p closedSessions /\
  untouched p sessionPromiseRef /\ untouched p mediaStreamRef /\
  untouched p inputAudioContextRef /\ untouched p outputAudioContextRef /\
  untouched p processors /\ untouched p connectionState /\
  untouched p isSpeaking.

Definition untouched_by_commands {A} (p : State -> A) : Prop :=
  untouched_by_disconnect p /\ untouched p isMuted /\
  untouched p lastProcessedCommandRef /\ untouched p logs.

Definition untouched_by_tools {A} (p : State -> A) : Prop :=
  untouched_by_video p /\ untouched p volume /\ untouched p editedTitle /\
  untouched p pendingReport /\ untouched p logs.

Definition untouched_by_transcripts {A} (p : State -> A) : Prop :=
  untouched_by_commands p /\ untouched p currentInputTranscription /\
  untouched p currentOutputTranscription.

Definition untouched_by_reconnect {A} (p : State -> A) : Prop :=
  untouched p timers /\ untouched p nextTimerId /\
  untouched p reconnectTimeoutRef /\ untouched p logs.

Definition untouched_by_playback {A} (p : State -> A) : Prop :=
  untouched p isSpeaking /\ untouched p nextStartTimeRef /\
  untouched p started /\ untouched p sourcesRef /\
  untouched p nextSourceId /\ untouched p stopped /\
  untouched p currentOutputTranscription.

(** ** System sounds *)

Module Cue.
Inductive t := connect | disconnect | error | mute | unmute.
End Cue.

Inductive OscillatorType := sine | sawtooth.

(** A call that schedules a value on an [AudioParam]. *)
Inductive ParamEvent :=
| setValueAtTime (value startTime : Q)
| exponentialRampToValueAtTime (value endTime : Q)
| linearRampToValueAtTime (value endTime : Q).

Definition eventValue (e : ParamEvent) : Q :=
  match e with
  | setValueAtTime v _ | exponentialRampToValueAtTime v _
  | linearRampToValueAtTime v _ => v
  end.

Definition eventTime (e : ParamEvent) : Q :=
  match e with
  | setValueAtTime _ t | exponentialRampToValueAtTime _ t
  | linearRampToValueAtTime _ t => t
  end.

(** What [playSystemSound] sets up: an oscillator through a gain node,
    with the values scheduled on the oscillator's frequency and on the
    gain, and the times at which the oscillator starts and stops. *)
Record SystemSound := {
  osc_type : OscillatorType;
  osc_frequency : list ParamEvent;
  gain_gain : list ParamEvent;
  osc_start : Q;
  osc_stop : Q
}.

(** [playSystemSound(type)]; [now] is the [currentTime] of the context
    it creates.  Nothing is played when the page has no [AudioContext]. *)
Definition playSystemSound (hasAudioContext : bool) (now : Q) (type : Cue.t)
  : option SystemSound :=
  if negb hasAudioContext then None
  else
    let '(ty, frequency, gain) :=
      match type with
      | Cue.connect =>
          (sine,
           [setValueAtTime 400 now;
            exponentialRampToValueAtTime 800 (now + (1 # 10))],
           [setValueAtTime (5 # 100) now;
            exponentialRampToValueAtTime (1 # 1000) (now + (3 # 10))])
      | Cue.disconnect =>
          (sine,
           [setValueAtTime 800 now;
            exponentialRampToValueAtTime 400 (now + (1 # 10))],
           [setValueAtTime (5 # 100) now;
            exponentialRampToValueAtTime (1 # 1000) (now + (3 # 10))])
      | Cue.error =>
          (sawtooth,
           [setValueAtTime 100 now;
            linearRampToValueAtTime 50 (now + (3 # 10))],
           [setValueAtTime (1 # 10) now;
            linearRampToValueAtTime (1 # 1000) (now + (5 # 10))])
      | Cue.mute =>
          (sine,
           [setValueAtTime 300 now],
           [setValueAtTime (3 # 100) now;
            exponentialRampToValueAtTime (1 # 1000) (now + (1 # 10))])
      | Cue.unmute =>
          (sine,
           [setValueAtTime 600 now],
           [setValueAtTime (3 # 100) now;
            exponentialRampToValueAtTime (1 # 1000) (now + (1 # 10))])
      end in
    Some {| osc_type := ty;
            osc_frequency := frequency;
            gain_gain := gain;
            osc_start := now;
            osc_stop := now + (5 # 10) |}.

(** ** What the component shows *)

(** [getErrorDetails]: the title and the hint of the error panel. *)
Record ErrorDetails := { title : string; hint : string }.

Definition getErrorDetails (msg : option string) : ErrorDetails :=
  match msg with
  | None => {| title := "System Failure"; hint := "Unknown error." |}
  | Some m =>
      if negb (Js.truthy m) then
        {| title := "System Failure"; hint := "Unknown error." |}
      else if Js.includes "401" m || Js.includes "403" m
              || Js.includes "API Key" m then
        {| title := "Authentication Error";
           hint := "Check your API Key configuration." |}
      else if Js.includes "Microphone" m || Js.includes "media" m
              || Js.includes "permission" m then
        {| title := "Hardware Access Denied";
           hint := "Please allow microphone/camera permissions." |}
      else if Js.includes "network" m || Js.includes "fetch" m
              || Js.includes "Failed to connect" m then
        {| title := "Network Failure";
           hint := "Check your internet connection." |}
      else {| title := "System Malfunction"; hint := m |}
  end.

(** The error panel, [getErrorDetails(errorMsg)], is rendered while the
    connection state is [ERROR]. *)
Definition errorPanel (st : State) : option ErrorDetails :=
  match connectionState st with
  | ERROR => Some (getErrorDetails (errorMsg st))
  | _ => None
  end.

(** The status line under the reactor. *)
Definition statusText (st : State) : option string :=
  if isSpeaking st then Some "PROCESSING SPEECH OUTPUT..."
  else match connectionState st with
       | CONNECTED => Some "AWAITING INPUT..."
       | _ => None
       end.

(** [Math.round]: the nearest integer, a half going up. *)
Definition Math_round (q : Q) : Z := Qfloor (q + (1 # 2)).

(** The label next to the volume slider, [Math.round(volume * 100)]
    followed by a percent sign. *)
Definition volumeLabel (st : State) : string :=
  (Js.Number_toString (Math_round (volume st * 100)) ++ "%")%string.

(** ** Footprints of the events *)

Definition untouched_by_connect {A} (p : State -> A) : Prop :=
  untouched_by_reconnect p /\
  untouched p connectCalls /\ untouched p isManuallyDisconnectedRef /\
  untouched p errorMsg /\ untouched p connectionState /\
  untouched p inputAudioContextRef /\ untouched p outputAudioContextRef /\
  untouched p mediaStreamRef /\ untouched p sessions /\
  untouched p sessionPromiseRef.

(** The fields the handler of an event may write. *)
Definition untouched_by_event {A} (ev : Event) (p : State -> A) : Prop :=
  match ev with
  | EvToggleConnection _ => untouched_by_connect p /\ untouched_by_disconnect p
  | EvToggleMute => untouched p isMuted
  | EvToggleVideo _ => untouched_by_video p /\ untouched p logs
  | EvVolumeSlider _ => untouched p volume
  | EvEditTitle _ => untouched p editedTitle
  | EvConfirmReport _ =>
      untouched p logs /\ untouched p sent /\ untouched p pendingReport
  | EvCancelReport => untouched p sent /\ untouched p pendingReport
  | EvOpen _ => untouched p connectionState /\ untouched p processors
  | EvMessage _ _ _ =>
      untouched_by_tools p /\ untouched_by_transcripts p /\
      untouched_by_playback p /\ untouched p sent
  | EvClose _ _ => untouched_by_reconnect p /\ untouched p connectionState
  | EvError _ _ _ =>
      untouched_by_reconnect p /\ untouched p errorMsg /\
      untouched p connectionState
  | EvAudioProcess _ _ => untouched p sent
  | EvEnded _ =>
      untouched p sourcesRef /\ untouched p timers /\ untouched p nextTimerId
  | EvTimer _ _ =>
      untouched_by_connect p /\ untouched p isSpeaking /\ untouched p sent
  end.

(** ** Further observations used in the statements *)

(** [st'] shows the transcript of [st], possibly with more entries after
    it. *)
Definition extendsLogs (st st' : State) : Prop :=
  exists extra, logs st' = logs st ++ extra.

(** The component is at rest at the user's request: the manual-disconnect
    flag is set, and no session handle, microphone stream, audio context,
    audio processor or reconnect timer is held. *)
Definition Quiet (st : State) : Prop :=
  isManuallyDisconnectedRef st = true /\
  sessionPromiseRef st = None /\
  mediaStreamRef st = false /\
  inputAudioContextRef st = false /\
  outputAudioContextRef st = false /\
  processors st = [] /\
  reconnectTimers st = [].

(** The power button. *)
Definition isPowerButton (ev : Event) : bool :=
  match ev with EvToggleConnection _ => true | _ => false end.

(** Every reconnect timer pending in [st'] was pending in [st]. *)
Definition noNewReconnect (st st' : State) : Prop :=
  forall t, In t (timers st') -> is_reconnect t = true -> In t (timers st).

(** What [Quiet] reads, the timers apart, and what the component has
    sent, opened, attempted, played and closed so far. *)
Definition holdings (st : State) :=
  (isManuallyDisconnectedRef st, sessionPromiseRef st, mediaStreamRef st,
   inputAudioContextRef st, outputAudioContextRef st, processors st,
   (sent st, sessions st, connectCalls st, started st, closedSessions st)).

(** The transcription fragments a message adds to the buffers: its
    output fragment if it carries one, otherwise its input fragment. *)
Definition outputFragment (m : LiveServerMessage) : string :=
  match outputTranscription m with
  | Some t => t
  | None => EmptyString
  end.

Definition inputFragment (m : LiveServerMessage) : string :=
  match outputTranscription m, inputTranscription m with
  | None, Some t => t
  | _, _ => EmptyString
  end.

(** The input and output transcription buffers after a message, from
    the buffers before it. *)
Definition buffersAfter (m : LiveServerMessage) (b : string * string)
  : string * string :=
  let i := if turnComplete m then EmptyString
           else (fst b ++ inputFragment m)%string in
  let o := if turnComplete m || interrupted m then EmptyString
           else (snd b ++ outputFragment m)%string in
  (i, o).

(** The string is made of white space only. *)
Fixpoint isBlank (s : string) : bool :=
  match s with
  | EmptyString => true
  | String c1 r1 =>
      if Js.is_space c1 then isBlank r1
      else
        match r1 with
        | EmptyString => false
        | String c2 r2 =>
            if Js.is_space2 c1 c2 then isBlank r2
            else
              match r2 with
              | EmptyString => false
              | String c3 r3 => Js.is_space3 c1 c2 c3 && isBlank r3
              end
        end
  end.

(** The no-break space U+00A0, in UTF-8. *)
Definition nbsp : string :=
  String (ascii_of_nat 194) (String (ascii_of_nat 160) EmptyString).

(** The volume slider has the range 0 to 1: the values its change event
    can carry. *)
Definition sliderInRange (ev : Event) : Prop :=
  match ev with
  | EvVolumeSlider v => (0 <= v <= 1)%Q
  | _ => True
  end.

(** Volume, gain reference and the gains of the buffers played so far
    are between 0 and 1. *)
Definition gainsWithinUnity (st : State) : Prop :=
  (0 <= volume st <= 1)%Q /\
  (0 <= volumeRef st <= 1)%Q /\
  Forall (fun s => (0 <= st_gain s <= 1)%Q) (started st).

(** ** Observations on sequences of messages and on voice commands *)

(** The messages of one session, each handled at the wall-clock time and
    the audio clock paired with it. *)
Definition handleMessages (cl : Closure) (ms : list (Env * LiveServerMessage))
    (st : State) : State :=
  fold_left (fun s '(env, m) => onmessage cl env m s) ms st.

(** The inline-audio fragments among the messages, in order, each with
    the environment its message is handled in. *)
Definition fragmentsOf (ms : list (Env * LiveServerMessage))
  : list (Env * AudioBuffer) :=
  flat_map
    (fun '(env, m) =>
       match inlineAudio m with
       | Some buf => [(env, buf)]
       | None => []
       end)
    ms.





(** * Properties *)

#[local] Arguments matchCommand : simpl never.
#[local] Arguments Js.Number_toString : simpl never.
#[local] Arguments Js.trim : simpl never.
#[local] Arguments Js.toLowerCase : simpl never.
#[local] Arguments toolLogText : simpl never.
#[local] Arguments newVol : simpl never.
#[local] Arguments String.append : simpl never.

Ltac use_untouched :=
  repeat match goal with
         | H : untouched ?p ?g
           |- context [?p (apply_update (mk_update ?g ?f) ?s)] =>
             rewrite (H f s)
         end.

Ltac case_cond :=
  match goal with
  | |- context [match ?x with _ => _ end] =>
      match type of x with
      | bool => destruct x eqn:?
      | option _ => destruct x eqn:?
      end
  end.

(** Discharges the side conditions [untouched p g] for a projection [p]
    other than [g]. *)
Ltac by_fields := repeat split; intros ? ?; reflexivity.

Section Footprints.
Context {A : Type} (p : State -> A).

Lemma setTimer_frame cb d st :
  untouched p timers -> untouched p nextTimerId ->
  p (setTimer cb d st) = p st.
Proof. intros; unfold setTimer; use_untouched; reflexivity. Qed.

Lemma clearTimer_frame i st :
  untouched p timers -> p (clearTimer i st) = p st.
Proof. intros; unfold clearTimer; use_untouched; reflexivity. Qed.

Lemma clearTimerRef_frame r st :
  untouched p timers -> p (clearTimerRef r st) = p st.
Proof.
  intros; destruct r; unfold clearTimerRef;
    [apply clearTimer_frame; assumption|reflexivity].
Qed.

Lemma appendLog_frame e st :
  untouched p logs -> p (appendLog e st) = p st.
Proof. intros; unfold appendLog; use_untouched; reflexivity. Qed.

Lemma send_frame o st :
  untouched p sent -> p (send o st) = p st.
Proof. intros; unfold send; case_cond; use_untouched; reflexivity. Qed.

Lemma startVideo_frame env st :
  untouched_by_video p -> untouched p logs -> p (startVideo env st) = p st.
Proof.
  intros (? & ? & ? & ? & ?) ?. unfold startVideo.
  destruct (e_cam env); use_untouched.
  - rewrite setTimer_frame by assumption. use_untouched. reflexivity.
  - rewrite appendLog_frame by assumption. use_untouched. reflexivity.
Qed.

Lemma stopVideo_frame st :
  untouched_by_video p -> p (stopVideo st) = p st.
Proof.
  intros (? & ? & ? & ? & ?). unfold stopVideo. cbv zeta.
  use_untouched. case_cond; use_untouched;
    rewrite ?clearTimer_frame by assumption; use_untouched; reflexivity.
Qed.

Lemma disconnect_frame st :
  untouched_by_disconnect p -> p (disconnect st) = p st.
Proof.
  intros (Hv & ? & ? & ? & ? & ? & ? & ? & ? & ?).
  pose proof Hv as (? & ? & ? & ? & ?).
  unfold disconnect, stopAudioContexts. cbv zeta. use_untouched.
  case_cond; use_untouched; rewrite stopVideo_frame by assumption;
    rewrite clearTimerRef_frame by assumption; use_untouched; reflexivity.
Qed.

Lemma runCommand_frame cl env c st :
  untouched_by_commands p -> p (runCommand cl env c st) = p st.
Proof.
  intros (Hd & ? & ? & ?). pose proof Hd as (Hv & _).
  destruct c; unfold runCommand.
  - unfold toggleMute. use_untouched. reflexivity.
  - destruct (negb _); [apply startVideo_frame; assumption|reflexivity].
  - destruct (cl_isVideoEnabled cl); [apply stopVideo_frame; assumption|reflexivity].
  - apply disconnect_frame; assumption.
Qed.

Lemma checkLocalCommands_frame cl env t st :
  untouched_by_commands p -> p (checkLocalCommands cl env t st) = p st.
Proof.
  intros Hc. pose proof Hc as (_ & ? & ? & ?).
  unfold checkLocalCommands. cbv zeta.
  destruct (_ <? _); [reflexivity|].
  destruct (matchCommand _); [|reflexivity].
  rewrite appendLog_frame by assumption. use_untouched.
  apply runCommand_frame; assumption.
Qed.

Lemma handleTranscription_frame cl env m st :
  untouched_by_transcripts p -> p (handleTranscription cl env m st) = p st.
Proof.
  intros (Hc & ? & ?). unfold handleTranscription.
  destruct (outputTranscription m); [use_untouched; reflexivity|].
  destruct (inputTranscription m); [|reflexivity].
  cbv zeta. rewrite checkLocalCommands_frame by assumption.
  use_untouched. reflexivity.
Qed.

Lemma handleTurnComplete_frame env st :
  untouched p logs -> untouched p currentInputTranscription ->
  untouched p currentOutputTranscription -> untouched p isSpeaking ->
  p (handleTurnComplete env st) = p st.
Proof.
  intros. unfold handleTurnComplete. cbv zeta. use_untouched.
  destruct (_ || _); use_untouched; reflexivity.
Qed.

Lemma execCall_frame env st rs fc :
  untouched_by_tools p -> p (fst (execCall env (st, rs) fc)) = p st.
Proof.
  intros (Hv & ? & ? & ? & ?).
  destruct fc as [i e|i l|i t c|i n a]; unfold execCall; cbn [fst].
  - destruct e; [apply startVideo_frame|apply stopVideo_frame]; assumption.
  - use_untouched. reflexivity.
  - use_untouched. reflexivity.
  - reflexivity.
Qed.

Lemma fold_execCall_frame env calls st rs :
  untouched_by_tools p ->
  p (fst (fold_left (execCall env) calls (st, rs))) = p st.
Proof.
  intros Ht. revert st rs.
  induction calls as [|fc calls IH]; intros st rs; cbn [fold_left].
  - reflexivity.
  - destruct (execCall env (st, rs) fc) as [st1 rs1] eqn:E.
    rewrite IH. change st1 with (fst (st1, rs1)). rewrite <- E.
    apply execCall_frame; assumption.
Qed.

Lemma handleToolCall_frame env calls st :
  untouched_by_tools p -> untouched p sent ->
  p (handleToolCall env calls st) = p st.
Proof.
  intros Ht Hs. pose proof Ht as (_ & _ & _ & _ & ?).
  unfold handleToolCall. cbv zeta.
  pose proof (fold_execCall_frame env calls
                (appendLog (logEntry env "sys" jarvis (toolLogText calls)) st)
                [] Ht) as E.
  destruct (fold_left _ _ _) as [st2 rs]. cbn [fst] in E.
  rewrite appendLog_frame in E by assumption.
  destruct rs; [|rewrite send_frame by assumption]; exact E.
Qed.
End Footprints.

(** ** Effects of the camera and disconnect handlers *)

Lemma startVideo_granted env st :
  e_cam env = true ->
  timers (startVideo env st)
  = timers st ++ [{| t_id := nextTimerId st; t_delay := 1000;
                     t_callback := CbVideoFrame |}] /\
  nextTimerId (startVideo env st) = S (nextTimerId st) /\
  frameIntervalRef (startVideo env st) = Some (nextTimerId st) /\
  isVideoEnabled (startVideo env st) = true /\
  videoSrcObject (startVideo env st) = true /\
  logs (startVideo env st) = logs st.
Proof.
  intros H. unfold startVideo. rewrite H. unfold setTimer. record.simp.
  repeat split; reflexivity.
Qed.

Lemma startVideo_refused env st :
  e_cam env = false ->
  startVideo env st
  = appendLog (logEntry env "sys" jarvis "Camera access denied or unavailable.")
      (st {{ isVideoEnabled := false }}).
Proof. intros H. unfold startVideo. rewrite H. reflexivity. Qed.

Lemma stopVideo_effect st :
  timers (stopVideo st)
  = match frameIntervalRef st with
    | Some i => filter (fun t => negb (t_id t =? i)%nat) (timers st)
    | None => timers st
    end /\
  frameIntervalRef (stopVideo st) = None /\
  isVideoEnabled (stopVideo st) = false /\
  videoSrcObject (stopVideo st) = false /\
  nextTimerId (stopVideo st) = nextTimerId st.
Proof.
  unfold stopVideo. cbv zeta.
  change (frameIntervalRef (st {{ videoSrcObject := false }}))
    with (frameIntervalRef st).
  destruct (frameIntervalRef st) as [i|] eqn:E; unfold clearTimer; record.simp;
    repeat split; try reflexivity; exact E.
Qed.

Lemma disconnect_effect st :
  let st' := disconnect st in
  isManuallyDisconnectedRef st' = true /\
  sessionPromiseRef st' = None /\
  mediaStreamRef st' = false /\
  inputAudioContextRef st' = false /\
  outputAudioContextRef st' = false /\
  processors st' = [] /\
  closedSessions st'
  = closedSessions st
    ++ match sessionPromiseRef st with Some sid => [sid] | None => [] end /\
  connectionState st' = DISCONNECTED /\
  isSpeaking st' = false /\
  isVideoEnabled st' = false.
Proof.
  intros st'. subst st'. unfold disconnect, stopAudioContexts. cbv zeta.
  set (st3 := stopVideo _).
  assert (Er : sessionPromiseRef st3 = sessionPromiseRef st).
  { subst st3. rewrite stopVideo_frame, clearTimerRef_frame by by_fields.
    reflexivity. }
  assert (Ec : closedSessions st3 = closedSessions st).
  { subst st3. rewrite stopVideo_frame, clearTimerRef_frame by by_fields.
    reflexivity. }
  assert (Ef : isManuallyDisconnectedRef st3 = true).
  { subst st3. rewrite stopVideo_frame, clearTimerRef_frame by by_fields.
    reflexivity. }
  clearbody st3. rewrite Er.
  destruct (sessionPromiseRef st) as [sid|]; record.simp.
  - rewrite Ec. repeat split; exact Ef.
  - rewrite Ec, app_nil_r. repeat split; assumption.
Qed.


(** ** Interruption (C6) *)

Lemma onmessage_before_audio_frame {A} (p : State -> A) cl env m st :
  untouched_by_tools p -> untouched_by_transcripts p -> untouched p sent ->
  let st1 :=
    match toolCall m with
    | Some calls => handleToolCall env calls st
    | None => st
    end in
  let st2 := handleTranscription cl env m st1 in
  p (if turnComplete m then handleTurnComplete env st2 else st2) = p st.
Proof.
  intros Ht Hc Hs st1 st2.
  pose proof Hc as (((_ & Hd) & _ & _ & ?) & ? & ?).
  destruct Hd as (? & ? & ? & ? & ? & ? & ? & ? & ?).
  assert (E2 : p st2 = p st).
  { subst st2. rewrite handleTranscription_frame by assumption.
    subst st1. destruct (toolCall m); [|reflexivity].
    apply handleToolCall_frame; assumption. }
  destruct (turnComplete m); [|exact E2].
  rewrite handleTurnComplete_frame by assumption. exact E2.
Qed.

(** C6. On an interruption signal, whatever else the message carries and
    however many sources are playing, every active source is stopped, the
    set of active sources is empty, the next start time is zero, the
    output transcription is cleared and the assistant is not speaking. *)
Theorem interruption_clears_playback :
  forall cl env m st,
    interrupted m = true ->
    let st' := onmessage cl env m st in
    sourcesRef st' = [] /\
    nextStartTimeRef st' = 0%Q /\
    currentOutputTranscription st' = EmptyString /\
    isSpeaking st' = false /\
    (exists added, stopped st' = stopped st ++ sourcesRef st ++ added) /\
    (forall h, In h (sourcesRef st) -> In h (stopped st')).
Proof.
  intros cl env m st Hi st'. subst st'. unfold onmessage. cbv zeta. rewrite Hi.
  set (st3 := if turnComplete m then _ else _).
  assert (E1 : sourcesRef st3 = sourcesRef st)
    by (apply onmessage_before_audio_frame; by_fields).
  assert (E2 : stopped st3 = stopped st)
    by (apply onmessage_before_audio_frame; by_fields).
  set (st4 := match inlineAudio m with Some buf => _ | None => st3 end).
  assert (E3 : exists added,
             sourcesRef st4 = sourcesRef st ++ added /\ stopped st4 = stopped st).
  { subst st4. destruct (inlineAudio m) as [buf|].
    - unfold handleAudio. destruct (outputAudioContextRef st3).
      + eexists. cbv zeta. record.simp. rewrite E1, E2. split; reflexivity.
      + exists []. rewrite app_nil_r. split; assumption.
    - exists []. rewrite app_nil_r. split; assumption. }
  destruct E3 as (added & E3 & E4).
  assert (Es : stopped (handleInterrupted st4)
               = stopped st ++ sourcesRef st ++ added).
  { unfold handleInterrupted. record.simp. rewrite E3, E4. reflexivity. }
  repeat split; try reflexivity.
  - exists added. exact Es.
  - intros h Hh. rewrite Es. apply in_or_app. right. apply in_or_app. left.
    exact Hh.
Qed.

Lemma interruption_clears_playback_witness :
  let st := playFragments (render (connectedAt 1000))
              [(envAt 1100 (1#2), {| duration := 2 |});
               (envAt 1200 (3#4), {| duration := 1 |})]
              (connectedAt 1000) in
  sourcesRef st = [0%nat; 1%nat] /\
  sourcesRef (onmessage (render st) (envAt 1300 1) interruption st) = [] /\
  stopped (onmessage (render st) (envAt 1300 1) interruption st)
  = [0%nat; 1%nat].
Proof.
  intros st.
  pose proof (interruption_clears_playback (render st) (envAt 1300 1)
                interruption st eq_refl) as (H1 & _).
  split; [reflexivity|]. split; [exact H1|reflexivity].
Defined.

(** ** Playback scheduling (C5) *)

Lemma onmessage_audioFragment cl env buf st :
  onmessage cl env (audioFragment buf) st = handleAudio env buf st.
Proof. reflexivity. Qed.

Lemma gaplessSchedule_entry fs : forall next i a env buf,
  nth_error (gaplessSchedule next fs) i = Some a ->
  nth_error fs i = Some (env, buf) ->
  exists prevEnd, fst a = Qmax prevEnd (e_clock env) /\ snd a = duration buf /\
   (i = 0%nat -> prevEnd = next).
Proof.
  induction fs as [|[e b] fs IH]; intros next i a env buf Ha Hf.
  - destruct i; discriminate.
  - destruct i as [|i]; cbn in Ha, Hf.
    + injection Ha as <-. injection Hf as <- <-. eexists; repeat split.
    + destruct (IH _ _ _ _ _ Ha Hf) as (pe & ? & ? & ?).
      exists pe. repeat split; auto. discriminate.
Qed.

Lemma gaplessSchedule_adjacent fs : forall next i a b env buf,
  nth_error (gaplessSchedule next fs) i = Some a ->
  nth_error (gaplessSchedule next fs) (S i) = Some b ->
  nth_error fs (S i) = Some (env, buf) ->
  fst b = Qmax (fst a + snd a) (e_clock env).
Proof.
  induction fs as [|[e b0] fs IH]; intros next i a b env buf Ha Hb Hf.
  - destruct i; discriminate.
  - destruct i as [|i].
    + cbn in Ha. injection Ha as <-. cbn [fst snd].
      destruct fs as [|[e1 b1] fs]; [discriminate|].
      cbn in Hb, Hf. injection Hb as <-. injection Hf as <- <-. reflexivity.
    + cbn [gaplessSchedule nth_error] in Ha, Hb. cbn [nth_error] in Hf.
      eapply IH; eassumption.
Qed.

Lemma handleAudio_effect env buf st :
  outputAudioContextRef st = true ->
  started (handleAudio env buf st)
  = started st ++ [{| st_handle := nextSourceId st;
                      st_when := Qmax (nextStartTimeRef st) (e_clock env);
                      st_duration := duration buf;
                      st_gain := volumeRef st |}] /\
  nextStartTimeRef (handleAudio env buf st)
  = (Qmax (nextStartTimeRef st) (e_clock env) + duration buf)%Q /\
  outputAudioContextRef (handleAudio env buf st) = true.
Proof.
  intros H. unfold handleAudio. rewrite H. cbv zeta. record.simp.
  repeat split; try reflexivity. exact H.
Qed.

Lemma last_nonempty {A} (l : list A) : forall a d d',
  last (a :: l) d = last (a :: l) d'.
Proof.
  induction l as [|b l IH]; intros a d d'; [reflexivity|].
  change (last (b :: l) d = last (b :: l) d'). apply IH.
Qed.

Lemma runCommand_closed cl env c st :
  outputAudioContextRef st = false ->
  outputAudioContextRef (runCommand cl env c st) = false.
Proof.
  intros H. destruct c; unfold runCommand.
  - exact H.
  - destruct (negb _); [|exact H]. rewrite startVideo_frame by by_fields.
    exact H.
  - destruct (cl_isVideoEnabled cl); [|exact H].
    rewrite stopVideo_frame by by_fields. exact H.
  - apply disconnect_effect.
Qed.

Lemma handleTranscription_closed cl env m st :
  outputAudioContextRef st = false ->
  outputAudioContextRef (handleTranscription cl env m st) = false.
Proof.
  intros H. unfold handleTranscription.
  destruct (outputTranscription m); [exact H|].
  destruct (inputTranscription m); [|exact H].
  cbv zeta. unfold checkLocalCommands. cbv zeta.
  destruct (_ <? _); [exact H|].
  destruct (matchCommand _); [|exact H].
  unfold appendLog. record.simp. apply runCommand_closed. exact H.
Qed.

(** What a message without the interruption flag does to the playback
    queue: its inline audio, if the output context is still there when
    the audio is reached, is started at the later of the next start time
    and the clock, and moves the next start time to its end; nothing
    else in the message touches the queue. *)
Lemma onmessage_playback cl env m st :
  interrupted m = false ->
  let st' := onmessage cl env m st in
  (outputAudioContextRef st = false -> outputAudioContextRef st' = false) /\
  match inlineAudio m, outputAudioContextRef st' with
  | Some buf, true =>
      started st'
      = started st ++ [{| st_handle := nextSourceId st;
                          st_when := Qmax (nextStartTimeRef st) (e_clock env);
                          st_duration := duration buf;
                          st_gain := volumeRef st |}] /\
      nextStartTimeRef st'
      = (Qmax (nextStartTimeRef st) (e_clock env) + duration buf)%Q
  | _, _ =>
      started st' = started st /\ nextStartTimeRef st' = nextStartTimeRef st
  end.
Proof.
  intros Hi st'. subst st'. unfold onmessage. cbv zeta. rewrite Hi.
  set (st1 := match toolCall m with Some calls => _ | None => st end).
  set (st2 := handleTranscription cl env m st1).
  set (st3 := if turnComplete m then _ else st2).
  assert (Es : started st3 = started st)
    by (apply onmessage_before_audio_frame; by_fields).
  assert (En : nextStartTimeRef st3 = nextStartTimeRef st)
    by (apply onmessage_before_audio_frame; by_fields).
  assert (Eh : nextSourceId st3 = nextSourceId st)
    by (apply onmessage_before_audio_frame; by_fields).
  assert (Eg : volumeRef st3 = volumeRef st)
    by (apply onmessage_before_audio_frame; by_fields).
  assert (Hc : outputAudioContextRef st = false ->
               outputAudioContextRef st3 = false).
  { intros H.
    assert (H1 : outputAudioContextRef st1 = false).
    { subst st1. destruct (toolCall m); [|exact H].
      rewrite handleToolCall_frame by by_fields. exact H. }
    assert (H2 : outputAudioContextRef st2 = false)
      by (apply handleTranscription_closed; exact H1).
    subst st3. destruct (turnComplete m); [|exact H2].
    rewrite handleTurnComplete_frame by by_fields. exact H2. }
  clearbody st3. clear st1 st2.
  destruct (inlineAudio m) as [buf|].
  - destruct (outputAudioContextRef st3) eqn:Ho.
    + destruct (handleAudio_effect env buf st3 Ho) as (E1 & E2 & E3).
      rewrite E3, E1, E2, Es, En, Eh, Eg.
      split; [intros H; specialize (Hc H); congruence|].
      split; reflexivity.
    + assert (E : handleAudio env buf st3 = st3)
        by (unfold handleAudio; rewrite Ho; reflexivity).
      rewrite E, Ho. split; [reflexivity|]. split; assumption.
  - split; [exact Hc|]. destruct (outputAudioContextRef st3); split; assumption.
Qed.

Lemma handleMessages_closed cl ms : forall st,
  Forall (fun em => interrupted (snd em) = false) ms ->
  outputAudioContextRef st = false ->
  outputAudioContextRef (handleMessages cl ms st) = false /\
  started (handleMessages cl ms st) = started st /\
  nextStartTimeRef (handleMessages cl ms st) = nextStartTimeRef st.
Proof.
  induction ms as [|[env m] ms IH]; intros st Hi Hc.
  - repeat split. exact Hc.
  - inversion Hi as [|? ? Hm Hi']; subst. cbn [snd] in Hm.
    unfold handleMessages. cbn [fold_left].
    fold (handleMessages cl ms (onmessage cl env m st)).
    destruct (onmessage_playback cl env m st Hm) as (H1 & H2).
    specialize (H1 Hc). rewrite H1 in H2.
    assert (E : started (onmessage cl env m st) = started st /\
                nextStartTimeRef (onmessage cl env m st) = nextStartTimeRef st)
      by (destruct (inlineAudio m); exact H2).
    destruct E as (Es & En).
    destruct (IH _ Hi' H1) as (A & B & C).
    rewrite B, C, Es, En. repeat split. exact A.
Qed.

Lemma handleMessages_schedule cl ms : forall st,
  Forall (fun em => interrupted (snd em) = false) ms ->
  exists played rest new,
    ms = played ++ rest /\
    (outputAudioContextRef (handleMessages cl ms st) = true -> rest = []) /\
    started (handleMessages cl ms st) = started st ++ new /\
    map (fun s => (st_when s, st_duration s)) new
    = gaplessSchedule (nextStartTimeRef st) (fragmentsOf played) /\
    nextStartTimeRef (handleMessages cl ms st)
    = last (map (fun e => (fst e + snd e)%Q)
                (gaplessSchedule (nextStartTimeRef st) (fragmentsOf played)))
           (nextStartTimeRef st).
Proof.
  induction ms as [|[env m] ms IH]; intros st Hi.
  - exists [], [], []. cbn. rewrite app_nil_r. repeat split.
  - inversion Hi as [|? ? Hm Hi']; subst. cbn [snd] in Hm.
    unfold handleMessages. cbn [fold_left].
    fold (handleMessages cl ms (onmessage cl env m st)).
    destruct (onmessage_playback cl env m st Hm) as (_ & H2).
    destruct (outputAudioContextRef (onmessage cl env m st)) eqn:Ho.
    + destruct (IH (onmessage cl env m st) Hi')
        as (played & rest & new & E0 & Er & E1 & E2 & E3).
      destruct (inlineAudio m) as [buf|] eqn:Ea.
      * destruct H2 as (Es & En).
        exists ((env, m) :: played), rest. eexists (_ :: new).
        split; [rewrite E0; reflexivity|]. split; [exact Er|].
        rewrite E1, Es, <- app_assoc. split; [reflexivity|].
        cbn [fragmentsOf flat_map]. rewrite Ea. cbn [app].
        fold (fragmentsOf played).
        cbn [map gaplessSchedule st_when st_duration].
        rewrite En in E2, E3. rewrite E2. split; [reflexivity|].
        rewrite E3. cbn [fst snd].
        destruct (gaplessSchedule _ (fragmentsOf played)) as [|e l];
          [reflexivity|].
        cbn [map]. rewrite (last_nonempty _ _ _ (nextStartTimeRef st)).
        reflexivity.
      * destruct H2 as (Es & En).
        exists ((env, m) :: played), rest, new.
        split; [rewrite E0; reflexivity|]. split; [exact Er|].
        rewrite E1, Es. split; [reflexivity|].
        cbn [fragmentsOf flat_map]. rewrite Ea. cbn [app].
        fold (fragmentsOf played).
        rewrite En in E2, E3. split; [exact E2|exact E3].
    + assert (E : started (onmessage cl env m st) = started st /\
                  nextStartTimeRef (onmessage cl env m st)
                  = nextStartTimeRef st)
        by (destruct (inlineAudio m); exact H2).
      destruct E as (Es & En).
      destruct (handleMessages_closed cl ms _ Hi' Ho) as (A & B & C).
      exists [], ((env, m) :: ms), [].
      split; [reflexivity|].
      split; [intros H; rewrite A in H; discriminate H|].
      rewrite B, C, Es, En, app_nil_r. cbn. repeat split.
Qed.

Lemma fragmentsOf_app a b :
  fragmentsOf (a ++ b) = fragmentsOf a ++ fragmentsOf b.
Proof. apply flat_map_app. Qed.

(** C5, as the code has it.  For every sequence of messages of one
    session none of which carries the interruption signal, with buffers
    of non-negative duration: the inline-audio fragments of the messages
    handled while the output context exists (all the messages, unless a
    voice command disconnects on the way) are each decoded and started,
    and no other; the first starts at [max(nextStartTime, clock)], every
    later one at the maximum of the previous buffer's end and the clock
    read when its message is handled, whatever messages came in between;
    so no buffer starts before the previous one ends nor before that
    clock time, start times never decrease, a buffer starts exactly at
    the previous end whenever the clock has not passed it, and
    [nextStartTime] ends at the end of the last buffer. *)
Theorem playback_is_gapless :
  forall cl ms st,
    Forall (fun em => interrupted (snd em) = false) ms ->
    Forall (fun f => (0 <= duration (snd f))%Q) (fragmentsOf ms) ->
    exists played rest new,
      ms = played ++ rest /\
      (outputAudioContextRef (handleMessages cl ms st) = true -> rest = []) /\
      started (handleMessages cl ms st) = started st ++ new /\
      List.length new = List.length (fragmentsOf played) /\
      (forall a env buf,
          nth_error new 0 = Some a ->
          nth_error (fragmentsOf played) 0 = Some (env, buf) ->
          st_when a = Qmax (nextStartTimeRef st) (e_clock env)) /\
      (forall i a env buf,
          nth_error new i = Some a ->
          nth_error (fragmentsOf played) i = Some (env, buf) ->
          st_duration a = duration buf /\ (e_clock env <= st_when a)%Q) /\
      (forall i a b env buf,
          nth_error new i = Some a -> nth_error new (S i) = Some b ->
          nth_error (fragmentsOf played) (S i) = Some (env, buf) ->
          st_when b = Qmax (st_when a + st_duration a) (e_clock env) /\
          (st_when a + st_duration a <= st_when b)%Q /\
          (st_when a <= st_when b)%Q /\
          ((e_clock env <= st_when a + st_duration a)%Q ->
           (st_when b == st_when a + st_duration a)%Q)) /\
      nextStartTimeRef (handleMessages cl ms st)
      = last (map (fun s => (st_when s + st_duration s)%Q) new)
             (nextStartTimeRef st).
Proof.
  intros cl ms st Hi Hd.
  destruct (handleMessages_schedule cl ms st Hi)
    as (played & rest & new & E0 & Er & E1 & E2 & E3).
  assert (Hdp : Forall (fun f => (0 <= duration (snd f))%Q)
                  (fragmentsOf played)).
  { rewrite E0, fragmentsOf_app in Hd. apply Forall_app in Hd. apply Hd. }
  exists played, rest, new.
  split; [exact E0|]. split; [exact Er|]. split; [exact E1|].
  revert E2 E3 Hdp. generalize (fragmentsOf played). intros fs E2 E3 Hdp.
  set (pr := fun s : Started => (st_when s, st_duration s)) in *.
  assert (Hn : forall i a, nth_error new i = Some a ->
                 nth_error (gaplessSchedule (nextStartTimeRef st) fs) i
                 = Some (pr a)).
  { intros i a Ha. rewrite <- E2. apply map_nth_error. exact Ha. }
  assert (Hentry : forall i a env buf,
             nth_error new i = Some a -> nth_error fs i = Some (env, buf) ->
             exists prevEnd,
               st_when a = Qmax prevEnd (e_clock env) /\
               st_duration a = duration buf /\
               (i = 0%nat -> prevEnd = nextStartTimeRef st)).
  { intros i a env buf Ha Hf.
    exact (gaplessSchedule_entry fs _ i (pr a) env buf (Hn _ _ Ha) Hf). }
  split.
  { assert (L : List.length (map pr new) = List.length fs).
    { rewrite E2. generalize (nextStartTimeRef st). generalize fs. clear.
      intros l. induction l as [|[e b] l IH]; intros q; cbn; [reflexivity|].
      f_equal. apply IH. }
    rewrite length_map in L. exact L. }
  split.
  { intros a env buf Ha Hf.
    destruct (Hentry _ _ _ _ Ha Hf) as (pe & E & _ & Hp).
    rewrite E, (Hp eq_refl). reflexivity. }
  split.
  { intros i a env buf Ha Hf.
    destruct (Hentry _ _ _ _ Ha Hf) as (pe & E & Ed & _).
    split; [exact Ed|]. rewrite E. apply Q.le_max_r. }
  split.
  { intros i a b env buf Ha Hb Hf.
    pose proof (gaplessSchedule_adjacent fs _ i (pr a) (pr b) env buf
                  (Hn _ _ Ha) (Hn _ _ Hb) Hf) as E.
    cbn [pr fst snd] in E.
    assert (Hda : (0 <= st_duration a)%Q).
    { assert (Hl : (i < List.length fs)%nat).
      { apply Nat.lt_trans with (S i); [lia|].
        apply nth_error_Some. rewrite Hf. discriminate. }
      destruct (nth_error fs i) as [[ea ba]|] eqn:Hfa;
        [|apply nth_error_None in Hfa; lia].
      destruct (Hentry _ _ _ _ Ha Hfa) as (_ & _ & Ed & _). rewrite Ed.
      rewrite Forall_forall in Hdp.
      exact (Hdp _ (nth_error_In _ _ Hfa)). }
    split; [exact E|]. rewrite E.
    split; [apply Q.le_max_l|]. split.
    - eapply Qle_trans; [|apply Q.le_max_l].
      rewrite <- (Qplus_0_r (st_when a)) at 1.
      apply Qplus_le_r. exact Hda.
    - intros Hc. apply Q.max_l. exact Hc. }
  rewrite E3, <- E2, map_map. reflexivity.
Qed.

Lemma playback_is_gapless_witness :
  let ms :=
    [(envAt 1100 (1#2), audioFragment {| duration := 2 |});
     (envAt 1150 (3#5), inputFragmentMessage "what is the time");
     (envAt 1200 (3#4),
      {| toolCall := Some [set_volume "v" 40];
         outputTranscription := Some "It is noon.";
         inputTranscription := None;
         turnComplete := true;
         inlineAudio := Some {| duration := 1 |};
         interrupted := false |})] in
  exists new,
    started (handleMessages (render (connectedAt 1000)) ms (connectedAt 1000))
    = started (connectedAt 1000) ++ new /\
    List.length new = 2%nat.
Proof.
  intros ms.
  destruct (playback_is_gapless (render (connectedAt 1000)) ms
              (connectedAt 1000))
    as (played & rest & new & E0 & Er & E & L & _).
  - repeat constructor.
  - repeat constructor; cbn; discriminate.
  - exists new. split; [exact E|].
    rewrite L. rewrite (Er eq_refl), app_nil_r in E0. rewrite <- E0.
    reflexivity.
Defined.

(** C5 as stated fails across an interruption: the interruption sets the
    next start time back to zero, so the buffer that follows it starts at
    the clock time, here 3, before the end (20) and before the start
    (10) of the buffer scheduled before it. *)
Lemma interruption_restarts_before_previous_end :
  let st :=
    run [EvMessage 0 (envAt 2000 0) (audioFragment {| duration := 10 |});
         EvMessage 0 (envAt 2100 1) (audioFragment {| duration := 10 |});
         EvMessage 0 (envAt 2200 2) interruption;
         EvMessage 0 (envAt 2300 3) (audioFragment {| duration := 10 |})]
        (connectedAt 1000) in
  exists a b c,
    started st = [a; b; c] /\
    (st_when b == 10)%Q /\ (st_duration b == 10)%Q /\ (st_when c == 3)%Q /\
    (st_when c < st_when b + st_duration b)%Q /\
    (st_when c < st_when b)%Q.
Proof.
  intros st. do 3 eexists. split; [vm_compute; reflexivity|].
  vm_compute. repeat split.
Qed.

(** ** Local voice commands (C7) *)

Lemma logs_runCommand cl env c st :
  exists extra,
    logs (runCommand cl env c st) = logs st ++ extra /\
    filter (fun e => String.prefix "[VOICE COMMAND]: " (text e)) extra = [].
Proof.
  destruct c; unfold runCommand.
  - exists []. rewrite app_nil_r. split; reflexivity.
  - destruct (negb _).
    + unfold startVideo. destruct (e_cam env).
      * exists []. rewrite app_nil_r. split; [|reflexivity].
        unfold setTimer. record.simp. reflexivity.
      * eexists. unfold appendLog. record.simp. split; reflexivity.
    + exists []. rewrite app_nil_r. split; reflexivity.
  - exists []. rewrite app_nil_r. split; [|reflexivity].
    destruct (cl_isVideoEnabled cl); [|reflexivity].
    apply stopVideo_frame; by_fields.
  - exists []. rewrite app_nil_r. split; [|reflexivity].
    apply disconnect_frame; by_fields.
Qed.


Lemma checkLocalCommands_fires cl env t c st :
  2000 <= e_now env - lastProcessedCommandRef st ->
  matchCommand (Js.toLowerCase t) = Some c ->
  checkLocalCommands cl env t st
  = appendLog (voiceCommandEntry env t)
      ((runCommand cl env c st) {{ lastProcessedCommandRef := e_now env }}).
Proof.
  intros H Hc. unfold checkLocalCommands. cbv zeta.
  destruct (Z.ltb_spec (e_now env - lastProcessedCommandRef st) 2000);
    [lia|].
  rewrite Hc. reflexivity.
Qed.








(** ** Tool calls (C1, C8, C10) *)

Lemma handleAudio_frame {A} (p : State -> A) env buf st :
  untouched_by_playback p -> p (handleAudio env buf st) = p st.
Proof.
  intros (? & ? & ? & ? & ? & ? & ?). unfold handleAudio.
  destruct (outputAudioContextRef st); [|reflexivity].
  cbv zeta. use_untouched. reflexivity.
Qed.

Lemma handleInterrupted_frame {A} (p : State -> A) st :
  untouched_by_playback p -> p (handleInterrupted st) = p st.
Proof.
  intros (? & ? & ? & ? & ? & ? & ?). unfold handleInterrupted.
  use_untouched. reflexivity.
Qed.

Lemma onmessage_after_tools_frame {A} (p : State -> A) cl env m st :
  untouched_by_transcripts p -> untouched_by_playback p ->
  p (onmessage cl env m st)
  = p (match toolCall m with
       | Some calls => handleToolCall env calls st
       | None => st
       end).
Proof.
  intros Hc Hp.
  pose proof Hc as (((_ & Hd) & _ & _ & ?) & ? & ?).
  destruct Hd as (? & ? & ? & ? & ? & ? & ? & ? & ?).
  unfold onmessage. cbv zeta.
  set (st1 := match toolCall m with Some calls => _ | None => st end).
  set (st2 := handleTranscription cl env m st1).
  set (st3 := if turnComplete m then _ else st2).
  set (st4 := match inlineAudio m with Some buf => _ | None => st3 end).
  assert (E2 : p st2 = p st1)
    by (apply handleTranscription_frame; assumption).
  assert (E3 : p st3 = p st1).
  { subst st3. destruct (turnComplete m); [|exact E2].
    rewrite handleTurnComplete_frame by assumption. exact E2. }
  assert (E4 : p st4 = p st1).
  { subst st4. destruct (inlineAudio m); [|exact E3].
    rewrite handleAudio_frame by assumption. exact E3. }
  destruct (interrupted m); [|exact E4].
  rewrite handleInterrupted_frame by assumption. exact E4.
Qed.

Lemma fold_execCall_responses env calls : forall st rs,
  snd (fold_left (execCall env) calls (st, rs))
  = rs ++ map responseOf (answeredAtOnce calls).
Proof.
  induction calls as [|fc calls IH]; intros st rs; cbn [fold_left].
  - cbn. rewrite app_nil_r. reflexivity.
  - destruct (execCall env (st, rs) fc) as [st1 rs1] eqn:E.
    rewrite IH. unfold answeredAtOnce. cbn [filter].
    destruct fc as [i e|i l|i t c|i n a]; unfold execCall in E;
      injection E as <- <-; cbn [is_create_report negb map];
      rewrite <- ?app_assoc; reflexivity.
Qed.

Lemma fold_execCall_staged env calls : forall st rs,
  pendingReport (fst (fold_left (execCall env) calls (st, rs)))
  = stagedReport calls (pendingReport st).
Proof.
  induction calls as [|fc calls IH]; intros st rs; cbn [fold_left].
  - reflexivity.
  - destruct (execCall env (st, rs) fc) as [st1 rs1] eqn:E.
    rewrite IH. unfold stagedReport. cbn [fold_left]. f_equal.
    change st1 with (fst (st1, rs1)). rewrite <- E.
    destruct fc as [i e|i l|i t c|i n a]; unfold execCall; cbn [fst].
    + destruct e; [apply startVideo_frame|apply stopVideo_frame]; by_fields.
    + reflexivity.
    + reflexivity.
    + reflexivity.
Qed.

Lemma handleToolCall_sent env calls sid st :
  sessionPromiseRef st = Some sid ->
  sent (handleToolCall env calls st)
  = sent st ++
    match answeredAtOnce calls with
    | [] => []
    | _ => [(sid, sendToolResponse (map responseOf (answeredAtOnce calls)))]
    end.
Proof.
  intros Hs. unfold handleToolCall. cbv zeta.
  set (st1 := appendLog _ st).
  pose proof (fold_execCall_responses env calls st1 []) as Er.
  pose proof (fold_execCall_frame sent env calls st1 []) as Es.
  pose proof (fold_execCall_frame sessionPromiseRef env calls st1 []) as Ep.
  destruct (fold_left _ _ _) as [st2 rs]. cbn [fst snd] in *.
  assert (Es' : sent st2 = sent st).
  { rewrite Es by by_fields. unfold st1, appendLog. record.simp. reflexivity. }
  assert (Ep' : sessionPromiseRef st2 = Some sid).
  { rewrite Ep by by_fields. unfold st1, appendLog. record.simp. exact Hs. }
  cbn [app] in Er. subst rs.
  destruct (answeredAtOnce calls) as [|fc direct]; cbn [map].
  - rewrite app_nil_r. exact Es'.
  - unfold send. rewrite Ep'. record.simp. rewrite Es'. reflexivity.
Qed.

Lemma confirm_report_sent env st r sid :
  pendingReport st = Some r -> sessionPromiseRef st = Some sid ->
  sent (handle (EvConfirmReport env) st)
  = sent st ++
    [(sid, sendToolResponse
             [{| fr_id := pr_id r;
                 fr_name := "create_report";
                 fr_result := "Report " ++ Js.dquote ++ editedTitle st
                                ++ Js.dquote ++ " generated successfully." |}])]
  /\ pendingReport (handle (EvConfirmReport env) st) = None.
Proof.
  intros Hr Hs. unfold handle, handleConfirmReport, render.
  cbn [cl_pendingReport cl_editedTitle]. rewrite Hr. cbv zeta.
  unfold send, appendLog. record.simp. rewrite Hs. record.simp.
  split; reflexivity.
Qed.

Lemma cancel_report_sent st r sid :
  pendingReport st = Some r -> sessionPromiseRef st = Some sid ->
  sent (handle EvCancelReport st)
  = sent st ++
    [(sid, sendToolResponse
             [{| fr_id := pr_id r;
                 fr_name := "create_report";
                 fr_result := "User cancelled the report generation." |}])]
  /\ pendingReport (handle EvCancelReport st) = None.
Proof.
  intros Hr Hs. unfold handle, handleCancelReport, render.
  cbn [cl_pendingReport cl_editedTitle]. rewrite Hr. cbv zeta.
  unfold send. rewrite Hs. record.simp. split; reflexivity.
Qed.

Lemma no_report_nothing_sent env st :
  pendingReport st = None ->
  sent (handle (EvConfirmReport env) st) = sent st /\
  sent (handle EvCancelReport st) = sent st.
Proof.
  intros Hr. unfold handle, handleConfirmReport, handleCancelReport, render.
  cbn [cl_pendingReport cl_editedTitle]. rewrite Hr. cbv zeta.
  record.simp. split; reflexivity.
Qed.

Lemma report_unanswered_without_session env st r :
  pendingReport st = Some r -> sessionPromiseRef st = None ->
  sent (handle (EvConfirmReport env) st) = sent st /\
  pendingReport (handle (EvConfirmReport env) st) = None /\
  sent (handle EvCancelReport st) = sent st /\
  pendingReport (handle EvCancelReport st) = None.
Proof.
  intros Hr Hs. unfold handle, handleConfirmReport, handleCancelReport, render.
  cbn [cl_pendingReport cl_editedTitle]. rewrite Hr. cbv zeta.
  unfold send, appendLog. record.simp. rewrite Hs. record.simp.
  repeat split; reflexivity.
Qed.

Lemma answeredAtOnce_count calls :
  (List.length (answeredAtOnce calls)
   + List.length (filter is_create_report calls) = List.length calls)%nat.
Proof.
  unfold answeredAtOnce. induction calls as [|fc calls IH]; [reflexivity|].
  cbn [filter]. destruct (is_create_report fc); cbn [negb List.length]; lia.
Qed.

Lemma onmessage_tool_sent cl env m calls sid st :
  toolCall m = Some calls ->
  sessionPromiseRef st = Some sid ->
  sent (onmessage cl env m st)
  = sent st ++
    match answeredAtOnce calls with
    | [] => []
    | _ => [(sid, sendToolResponse (map responseOf (answeredAtOnce calls)))]
    end.
Proof.
  intros Hm Hs. rewrite onmessage_after_tools_frame by by_fields.
  rewrite Hm. apply handleToolCall_sent. exact Hs.
Qed.

(** C1, as the code has it.  A tool-call message with a batch of calls,
    handled while a session handle is held: one reply is sent, with one
    response per call other than [create_report], in batch order and
    carrying the identifier and name of its call (so the responses and
    the [create_report] calls together number the size of the batch; no
    reply is sent when nothing is left to answer).  The [create_report]
    calls are not answered in the reply: the last of them is staged in
    the single pending-report slot.  While a session handle is held, a
    staged report is answered exactly once, by the confirm or the cancel
    action, with one response carrying its identifier, and the slot is
    then empty; with an empty slot the two actions send nothing.  When no
    session handle is held (a disconnect leaves the report staged), the
    confirm and the cancel action empty the slot and send nothing. *)
Theorem tool_batch_responses :
  forall cl env m calls sid st,
    toolCall m = Some calls ->
    sessionPromiseRef st = Some sid ->
    let st' := onmessage cl env m st in
    let direct := answeredAtOnce calls in
    sent st' = sent st ++
               match direct with
               | [] => []
               | _ => [(sid, sendToolResponse (map responseOf direct))]
               end /\
    (List.length (map responseOf direct)
     + List.length (filter is_create_report calls) = List.length calls)%nat /\
    map fr_id (map responseOf direct) = map call_id direct /\
    map fr_name (map responseOf direct) = map call_name direct /\
    Forall (fun fc => is_create_report fc = false) direct /\
    pendingReport st' = stagedReport calls (pendingReport st) /\
    (forall env2 st2 r sid2,
        pendingReport st2 = Some r -> sessionPromiseRef st2 = Some sid2 ->
        (exists result,
            sent (handle (EvConfirmReport env2) st2)
            = sent st2 ++
              [(sid2, sendToolResponse
                        [{| fr_id := pr_id r; fr_name := "create_report";
                            fr_result := result |}])]) /\
        pendingReport (handle (EvConfirmReport env2) st2) = None /\
        (exists result,
            sent (handle EvCancelReport st2)
            = sent st2 ++
              [(sid2, sendToolResponse
                        [{| fr_id := pr_id r; fr_name := "create_report";
                            fr_result := result |}])]) /\
        pendingReport (handle EvCancelReport st2) = None) /\
    (forall env2 st2,
        pendingReport st2 = None ->
        sent (handle (EvConfirmReport env2) st2) = sent st2 /\
        sent (handle EvCancelReport st2) = sent st2) /\
    (forall env2 st2 r,
        pendingReport st2 = Some r -> sessionPromiseRef st2 = None ->
        sent (handle (EvConfirmReport env2) st2) = sent st2 /\
        pendingReport (handle (EvConfirmReport env2) st2) = None /\
        sent (handle EvCancelReport st2) = sent st2 /\
        pendingReport (handle EvCancelReport st2) = None).
Proof.
  intros cl env m calls sid st Hm Hs st' direct.
  split; [exact (onmessage_tool_sent cl env m calls sid st Hm Hs)|].
  split.
  { rewrite length_map. apply answeredAtOnce_count. }
  split; [rewrite map_map; reflexivity|].
  split; [rewrite map_map; reflexivity|].
  split.
  { apply Forall_forall. intros fc Hin. apply filter_In in Hin.
    destruct Hin as (_ & Hn). destruct (is_create_report fc); [discriminate|reflexivity]. }
  split.
  { subst st'. rewrite onmessage_after_tools_frame by by_fields.
    rewrite Hm. unfold handleToolCall. cbv zeta.
    set (st1 := appendLog _ st).
    pose proof (fold_execCall_staged env calls st1 []) as Ep.
    destruct (fold_left _ _ _) as [st2 rs]. cbn [fst] in Ep.
    assert (E : pendingReport st2 = stagedReport calls (pendingReport st)).
    { rewrite Ep. unfold st1, appendLog. record.simp. reflexivity. }
    destruct rs; [exact E|]. rewrite send_frame by by_fields. exact E. }
  split.
  { intros env2 st2 r sid2 Hr Hs2.
    destruct (confirm_report_sent env2 st2 r sid2 Hr Hs2) as (E1 & E2).
    destruct (cancel_report_sent st2 r sid2 Hr Hs2) as (E3 & E4).
    repeat split; try assumption; eexists; eassumption. }
  split.
  { intros env2 st2 Hr. apply no_report_nothing_sent. exact Hr. }
  intros env2 st2 r Hr Hs2.
  exact (report_unanswered_without_session env2 st2 r Hr Hs2).
Qed.

Lemma tool_batch_responses_witness :
  let m := toolCallMessage [set_camera "a" true;
                            create_report "r" "Title" "Body";
                            set_volume "v" 150] in
  let st' := onmessage (render (connectedAt 1000)) (envAt 2000 0) m
               (connectedAt 1000) in
  pendingReport st'
  = Some {| pr_id := "r"; pr_title := "Title"; pr_content := "Body" |} /\
  List.length (sent st') = 1%nat.
Proof.
  intros m st'.
  destruct (tool_batch_responses (render (connectedAt 1000)) (envAt 2000 0) m
              [set_camera "a" true; create_report "r" "Title" "Body";
               set_volume "v" 150] 0%nat (connectedAt 1000) eq_refl eq_refl)
    as (E & _ & _ & _ & _ & P & _).
  split; [exact P|]. fold st' in E. rewrite E. reflexivity.
Defined.

(** C1 as stated fails: of two [create_report] calls in one batch the
    first is never answered, whatever the user confirms or cancels. *)
Lemma second_report_overwrites_first :
  let st :=
    run [EvMessage 0 (envAt 2000 0)
           (toolCallMessage [create_report "r1" "A" "a";
                             create_report "r2" "B" "b"]);
         EvConfirmReport (envAt 3000 0);
         EvCancelReport;
         EvConfirmReport (envAt 4000 0)]
        (connectedAt 1000) in
  responsesFor "r1" st = [] /\
  List.length (responsesFor "r2" st) = 1%nat /\
  pendingReport st = None.
Proof. vm_compute. repeat split. Qed.

(** After a disconnect the report is still staged, and confirming it
    answers nothing. *)
Lemma report_confirmed_after_disconnect_is_unanswered :
  let staged :=
    run [EvMessage 0 (envAt 2000 0)
           (toolCallMessage [create_report "r" "Title" "Body"]);
         EvToggleConnection (envAt 3000 0)]
        (connectedAt 1000) in
  let st := step (EvConfirmReport (envAt 4000 0)) staged in
  pendingReport staged
  = Some {| pr_id := "r"; pr_title := "Title"; pr_content := "Body" |} /\
  sessionPromiseRef staged = None /\
  responsesFor "r" st = [] /\
  pendingReport st = None.
Proof. vm_compute. repeat split. Qed.

Lemma execCall_volume_other env st rs fc :
  (forall j l, fc <> set_volume j l) ->
  volume (fst (execCall env (st, rs) fc)) = volume st.
Proof.
  intros Hn. destruct fc as [i e|i l|i t c|i n a]; unfold execCall; cbn [fst].
  - destruct e; [apply startVideo_frame|apply stopVideo_frame]; by_fields.
  - exfalso. exact (Hn i l eq_refl).
  - reflexivity.
  - reflexivity.
Qed.

Lemma fold_execCall_volume_other env calls : forall st rs,
  (forall j l, ~ In (set_volume j l) calls) ->
  volume (fst (fold_left (execCall env) calls (st, rs))) = volume st.
Proof.
  induction calls as [|fc calls IH]; intros st rs Hn; cbn [fold_left].
  - reflexivity.
  - destruct (execCall env (st, rs) fc) as [st1 rs1] eqn:E.
    rewrite IH by (intros j l Hin; apply (Hn j l); right; exact Hin).
    change st1 with (fst (st1, rs1)). rewrite <- E.
    apply execCall_volume_other.
    intros j l ->. apply (Hn j l). left. reflexivity.
Qed.

Lemma handleToolCall_volume env pre i level post st :
  (forall j l, ~ In (set_volume j l) post) ->
  volume (handleToolCall env (pre ++ set_volume i level :: post) st)
  = newVol level.
Proof.
  intros Hn. unfold handleToolCall. cbv zeta.
  set (st1 := appendLog _ st).
  assert (E : volume (fst (fold_left (execCall env)
                             (pre ++ set_volume i level :: post) (st1, [])))
              = newVol level).
  { rewrite fold_left_app. cbn [fold_left].
    destruct (fold_left (execCall env) pre (st1, [])) as [st2 rs2].
    unfold execCall at 2.
    rewrite fold_execCall_volume_other by exact Hn.
    record.simp. reflexivity. }
  destruct (fold_left _ _ _) as [st3 rs]. cbn [fst] in E.
  destruct rs; [exact E|]. rewrite send_frame by by_fields. exact E.
Qed.

Lemma newVol_spec level :
  (newVol level == inject_Z (Z.max 0 (Z.min 100 level)) / 100)%Q.
Proof. reflexivity. Qed.

(** C8. After a tool-call message whose last [set_volume] call asks for
    [level], the volume state and, once the effects have run, the gain
    reference are [clamp(level, 0, 100) / 100], and that is the gain of
    the next playback buffer; 150 gives 1 and -10 gives 0. *)
Theorem set_volume_applied_gain :
  forall sid s env m st pre i level post,
    nth_error (sessions st) sid = Some s ->
    toolCall m = Some (pre ++ set_volume i level :: post) ->
    (forall j l, ~ In (set_volume j l) post) ->
    let st' := step (EvMessage sid env m) st in
    let gain := (inject_Z (Z.max 0 (Z.min 100 level)) / 100)%Q in
    (volume st' == gain)%Q /\
    (volumeRef st' == gain)%Q /\
    (forall env2 buf,
        outputAudioContextRef st' = true ->
        exists src,
          started (handleAudio env2 buf st') = started st' ++ [src] /\
          (st_gain src == gain)%Q) /\
    (level = 150 -> (volumeRef st' == 1)%Q) /\
    (level = -10 -> (volumeRef st' == 0)%Q).
Proof.
  intros sid s env m st pre i level post Hs Hm Hn st' gain.
  assert (Ev : volume (handle (EvMessage sid env m) st) = newVol level).
  { unfold handle, withSession. rewrite Hs.
    rewrite onmessage_after_tools_frame by by_fields.
    rewrite Hm. apply handleToolCall_volume. exact Hn. }
  assert (E1 : volume st' = newVol level).
  { subst st'. unfold step, commit. record.simp. exact Ev. }
  assert (E2 : volumeRef st' = newVol level).
  { subst st'. unfold step, commit. record.simp. exact Ev. }
  split; [rewrite E1; apply newVol_spec|].
  split; [rewrite E2; apply newVol_spec|].
  split.
  { intros env2 buf Ho.
    destruct (handleAudio_effect env2 buf st' Ho) as (Es & _).
    eexists. split; [exact Es|]. cbn [st_gain]. rewrite E2.
    apply newVol_spec. }
  split; intros ->; rewrite E2; reflexivity.
Qed.

Lemma set_volume_applied_gain_witness :
  (volumeRef (step (EvMessage 0 (envAt 2000 0)
                      (toolCallMessage [set_volume "v" 150]))
                   (connectedAt 1000)) == 1)%Q.
Proof.
  destruct (set_volume_applied_gain 0
              {| s_closure := render (mounted None); s_isReconnect := false |}
              (envAt 2000 0) (toolCallMessage [set_volume "v" 150])
              (connectedAt 1000) [] "v" 150 [] eq_refl eq_refl
              (fun j l H => H))
    as (_ & _ & _ & H & _).
  exact (H eq_refl).
Defined.








(** ** Reconnect timers (C2, C4) *)

(** Peels the updates of fields that [TimersOk] does not read. *)
Ltac skip_updates :=
  repeat match goal with
         | |- TimersOk (apply_update (mk_update ?g ?f) ?s) =>
             change (TimersOk s)
         end.

Lemma TimersOk_clearTimer i st : TimersOk st -> TimersOk (clearTimer i st).
Proof.
  intros (Hlt & Hnd & Hre). unfold clearTimer, TimersOk. record.simp.
  repeat split.
  - intros t Ht. apply filter_In in Ht. apply Hlt, Ht.
  - clear Hlt Hre. induction (timers st) as [|t l IH]; [constructor|].
    cbn [map filter] in *. inversion Hnd as [|? ? Hn Hd]; subst.
    destruct (negb _); [|apply IH; exact Hd].
    cbn [map]. constructor; [|apply IH; exact Hd].
    intros Hin. apply Hn. apply in_map_iff in Hin.
    destruct Hin as (t' & E & Hin). apply filter_In in Hin.
    apply in_map_iff. exists t'. split; [exact E|apply Hin].
  - intros t Ht. apply filter_In in Ht. apply Hre, Ht.
Qed.

Lemma TimersOk_clearTimerRef r st :
  TimersOk st -> TimersOk (clearTimerRef r st).
Proof.
  intros H. destruct r; unfold clearTimerRef;
    [apply TimersOk_clearTimer|]; exact H.
Qed.

Lemma TimersOk_setTimer cb d st :
  TimersOk st -> (forall cl, cb <> CbReconnect cl) ->
  TimersOk (setTimer cb d st).
Proof.
  intros (Hlt & Hnd & Hre) Hcb. unfold setTimer, TimersOk. record.simp.
  repeat split.
  - intros t Ht. apply in_app_or in Ht. destruct Ht as [Ht|[<-|[]]].
    + apply Hlt in Ht. lia.
    + cbn. lia.
  - rewrite map_app. cbn [map t_id].
    apply NoDup_app; [exact Hnd|repeat constructor; intros []|].
    intros x Hx [<-|[]]. apply in_map_iff in Hx.
    destruct Hx as (t & E & Ht). apply Hlt in Ht. lia.
  - intros t Ht Hr. apply in_app_or in Ht. destruct Ht as [Ht|[<-|[]]].
    + apply Hre; assumption.
    + unfold is_reconnect in Hr. cbn [t_callback] in Hr.
      destruct cb; try discriminate. exfalso. exact (Hcb _ eq_refl).
Qed.

Lemma TimersOk_appendLog e st : TimersOk st -> TimersOk (appendLog e st).
Proof. intros H. unfold appendLog. skip_updates. exact H. Qed.

Lemma TimersOk_send o st : TimersOk st -> TimersOk (send o st).
Proof. intros H. unfold send. case_cond; skip_updates; exact H. Qed.

Lemma TimersOk_startVideo env st : TimersOk st -> TimersOk (startVideo env st).
Proof.
  intros H. unfold startVideo. destruct (e_cam env).
  - skip_updates. apply TimersOk_setTimer; [|discriminate].
    skip_updates. exact H.
  - apply TimersOk_appendLog. skip_updates. exact H.
Qed.

Lemma TimersOk_stopVideo st : TimersOk st -> TimersOk (stopVideo st).
Proof.
  intros H. unfold stopVideo. cbv zeta. skip_updates.
  case_cond; skip_updates; [apply TimersOk_clearTimer|]; skip_updates; exact H.
Qed.

Lemma TimersOk_disconnect st : TimersOk st -> TimersOk (disconnect st).
Proof.
  intros H. unfold disconnect, stopAudioContexts. cbv zeta. skip_updates.
  case_cond; skip_updates; apply TimersOk_stopVideo, TimersOk_clearTimerRef;
    skip_updates; exact H.
Qed.

Lemma reconnectTimers_cleared st :
  TimersOk st ->
  filter is_reconnect
    (timers (clearTimerRef (reconnectTimeoutRef st) st)) = [].
Proof.
  intros (_ & _ & Hre).
  destruct (reconnectTimeoutRef st) as [i|] eqn:Er; unfold clearTimerRef.
  - unfold clearTimer. record.simp.
    induction (timers st) as [|t l IH]; [reflexivity|].
    cbn [filter].
    assert (IH' : filter is_reconnect
                    (filter (fun t0 => negb (t_id t0 =? i)%nat) l) = []).
    { apply IH. intros t' Ht'. apply Hre. right. exact Ht'. }
    destruct (Nat.eqb_spec (t_id t) i) as [E|N]; cbn [negb]; [exact IH'|].
    cbn [filter]. destruct (is_reconnect t) eqn:Ert; [|exact IH'].
    exfalso. specialize (Hre t (or_introl eq_refl) Ert).
    injection Hre as Hre. apply N. symmetry. exact Hre.
  - induction (timers st) as [|t l IH]; [reflexivity|].
    cbn [filter]. destruct (is_reconnect t) eqn:Ert.
    + specialize (Hre t (or_introl eq_refl) Ert). discriminate.
    + apply IH. intros t' Ht'. apply Hre. right. exact Ht'.
Qed.

Lemma scheduleReconnect_timers cl env st :
  timers (scheduleReconnect cl env st)
  = timers (clearTimerRef (reconnectTimeoutRef st) st)
    ++ [{| t_id := nextTimerId st; t_delay := RECONNECT_DELAY;
           t_callback := CbReconnect cl |}] /\
  nextTimerId (scheduleReconnect cl env st) = S (nextTimerId st) /\
  reconnectTimeoutRef (scheduleReconnect cl env st) = Some (nextTimerId st).
Proof.
  unfold scheduleReconnect. cbv zeta. unfold setTimer, appendLog. record.simp.
  rewrite (clearTimerRef_frame nextTimerId) by by_fields.
  repeat split; reflexivity.
Qed.

Lemma TimersOk_scheduleReconnect cl env st :
  TimersOk st ->
  TimersOk (scheduleReconnect cl env st) /\
  reconnectTimers (scheduleReconnect cl env st)
  = [{| t_id := nextTimerId st; t_delay := RECONNECT_DELAY;
        t_callback := CbReconnect cl |}].
Proof.
  intros H. pose proof (reconnectTimers_cleared st H) as Hc.
  pose proof (TimersOk_clearTimerRef (reconnectTimeoutRef st) st H)
    as (Hlt & Hnd & _).
  rewrite (clearTimerRef_frame nextTimerId) in Hlt by by_fields.
  destruct (scheduleReconnect_timers cl env st) as (Et & En & Er).
  split.
  - unfold TimersOk. rewrite Et, En, Er. repeat split.
    + intros t Ht. apply in_app_or in Ht. destruct Ht as [Ht|[<-|[]]].
      * apply Hlt in Ht. lia.
      * cbn. lia.
    + rewrite map_app. cbn [map t_id].
      apply NoDup_app; [exact Hnd|repeat constructor; intros []|].
      intros x Hx [<-|[]]. apply in_map_iff in Hx.
      destruct Hx as (t & E & Ht). apply Hlt in Ht. lia.
    + intros t Ht Hr. apply in_app_or in Ht. destruct Ht as [Ht|[<-|[]]].
      * exfalso. assert (Hin : In t (filter is_reconnect
                   (timers (clearTimerRef (reconnectTimeoutRef st) st))))
          by (apply filter_In; split; assumption).
        rewrite Hc in Hin. destruct Hin.
      * reflexivity.
  - unfold reconnectTimers. rewrite Et, filter_app, Hc. reflexivity.
Qed.

Lemma TimersOk_connectFailed cl env message st :
  TimersOk st -> TimersOk (connectFailed cl env message st).
Proof.
  intros H. unfold connectFailed. cbv zeta. case_cond.
  - apply TimersOk_scheduleReconnect. skip_updates. exact H.
  - skip_updates. exact H.
Qed.

Lemma TimersOk_connectToGemini cl r env st :
  TimersOk st -> TimersOk (connectToGemini cl r env st).
Proof.
  intros H. unfold connectToGemini, initializeAudioContexts. cbv zeta.
  assert (H4 : TimersOk
            (clearTimerRef
               (reconnectTimeoutRef
                  (if r then st {{ connectCalls ::= fun l => l ++ [r] }}
                   else st {{ connectCalls ::= fun l => l ++ [r] }}
                           {{ isManuallyDisconnectedRef := false }}))
               (if r then st {{ connectCalls ::= fun l => l ++ [r] }}
                else st {{ connectCalls ::= fun l => l ++ [r] }}
                        {{ isManuallyDisconnectedRef := false }}))).
  { apply TimersOk_clearTimerRef. destruct r; skip_updates; exact H. }
  destruct (negb (e_apiKey env)).
  - apply TimersOk_connectFailed. skip_updates. exact H4.
  - destruct (negb (e_mic env)).
    + apply TimersOk_connectFailed. skip_updates. exact H4.
    + skip_updates. exact H4.
Qed.

Lemma TimersOk_checkLocalCommands cl env t st :
  TimersOk st -> TimersOk (checkLocalCommands cl env t st).
Proof.
  intros H. unfold checkLocalCommands. cbv zeta.
  destruct (_ <? _); [exact H|].
  destruct (matchCommand _) as [c|]; [|exact H].
  apply TimersOk_appendLog. skip_updates.
  destruct c; unfold runCommand.
  - unfold toggleMute. skip_updates. exact H.
  - destruct (negb _); [apply TimersOk_startVideo|]; exact H.
  - destruct (cl_isVideoEnabled cl); [apply TimersOk_stopVideo|]; exact H.
  - apply TimersOk_disconnect. exact H.
Qed.

Lemma TimersOk_execCall env st rs fc :
  TimersOk st -> TimersOk (fst (execCall env (st, rs) fc)).
Proof.
  intros H. destruct fc as [i e|i l|i t c|i n a]; unfold execCall; cbn [fst].
  - destruct e; [apply TimersOk_startVideo|apply TimersOk_stopVideo]; exact H.
  - skip_updates. exact H.
  - skip_updates. exact H.
  - exact H.
Qed.

Lemma TimersOk_handleToolCall env calls st :
  TimersOk st -> TimersOk (handleToolCall env calls st).
Proof.
  intros H. unfold handleToolCall. cbv zeta.
  set (st1 := appendLog _ st).
  assert (H1 : TimersOk st1) by (apply TimersOk_appendLog; exact H).
  assert (H2 : forall acc, TimersOk (fst acc) ->
                 TimersOk (fst (fold_left (execCall env) calls acc))).
  { clear. induction calls as [|fc calls IH]; intros [st rs] Ha;
      cbn [fold_left]; [exact Ha|].
    apply IH. apply TimersOk_execCall. exact Ha. }
  specialize (H2 (st1, []) H1).
  destruct (fold_left _ _ _) as [st2 rs]. cbn [fst] in H2.
  destruct rs; [|apply TimersOk_send]; exact H2.
Qed.

Lemma TimersOk_onmessage cl env m st :
  TimersOk st -> TimersOk (onmessage cl env m st).
Proof.
  intros H. unfold onmessage. cbv zeta.
  set (st1 := match toolCall m with Some calls => _ | None => st end).
  assert (H1 : TimersOk st1).
  { subst st1. destruct (toolCall m); [apply TimersOk_handleToolCall|];
      exact H. }
  set (st2 := handleTranscription cl env m st1).
  assert (H2 : TimersOk st2).
  { subst st2. unfold handleTranscription.
    destruct (outputTranscription m); [skip_updates; exact H1|].
    destruct (inputTranscription m); [|exact H1].
    cbv zeta. apply TimersOk_checkLocalCommands. skip_updates. exact H1. }
  set (st3 := if turnComplete m then _ else st2).
  assert (H3 : TimersOk st3).
  { subst st3. destruct (turnComplete m); [|exact H2].
    unfold handleTurnComplete. cbv zeta. skip_updates.
    destruct (_ || _); skip_updates; exact H2. }
  set (st4 := match inlineAudio m with Some buf => _ | None => st3 end).
  assert (H4 : TimersOk st4).
  { subst st4. destruct (inlineAudio m); [|exact H3].
    unfold handleAudio. destruct (outputAudioContextRef st3); [|exact H3].
    cbv zeta. skip_updates. exact H3. }
  destruct (interrupted m); [|exact H4].
  unfold handleInterrupted. skip_updates. exact H4.
Qed.

Lemma TimersOk_fireTimer i env st :
  TimersOk st -> TimersOk (fireTimer i env st).
Proof.
  intros H. unfold fireTimer. destruct (find _ _) as [t|]; [|exact H].
  destruct (t_callback t).
  - apply TimersOk_connectToGemini, TimersOk_clearTimer. exact H.
  - skip_updates. apply TimersOk_clearTimer. exact H.
  - apply TimersOk_send. exact H.
Qed.

Lemma TimersOk_handle ev st : TimersOk st -> TimersOk (handle ev st).
Proof.
  intros H. destruct ev; unfold handle.
  - unfold toggleConnection.
    destruct (connectionState st);
      first [apply TimersOk_disconnect|apply TimersOk_connectToGemini]; exact H.
  - destruct (connectionState st); exact H.
  - destruct (connectionState st); try exact H. unfold toggleVideo.
    destruct (isVideoEnabled st);
      [apply TimersOk_stopVideo|apply TimersOk_startVideo]; exact H.
  - skip_updates. exact H.
  - destruct (pendingReport st); [skip_updates|]; exact H.
  - unfold handleConfirmReport. destruct (cl_pendingReport _); [|exact H].
    cbv zeta. skip_updates. apply TimersOk_send, TimersOk_appendLog. exact H.
  - unfold handleCancelReport. cbv zeta. skip_updates.
    destruct (cl_pendingReport _); [apply TimersOk_send|]; exact H.
  - unfold withSession. destruct (nth_error _ _); [|exact H].
    unfold onopen. cbv zeta. case_cond; skip_updates; exact H.
  - unfold withSession. destruct (nth_error _ _); [|exact H].
    apply TimersOk_onmessage. exact H.
  - unfold withSession. destruct (nth_error _ _); [|exact H].
    unfold onclose. cbv zeta. skip_updates.
    case_cond; [apply TimersOk_scheduleReconnect|]; exact H.
  - unfold withSession. destruct (nth_error _ _); [|exact H].
    unfold onerror. cbv zeta.
    case_cond; [apply TimersOk_scheduleReconnect|]; skip_updates; exact H.
  - destruct (nth_error _ _); [|exact H]. unfold onaudioprocess.
    destruct (cl_isMuted _); [|apply TimersOk_send]; exact H.
  - unfold onended. cbv zeta.
    destruct (sourcesRef _);
      [apply TimersOk_setTimer; [|discriminate]|]; skip_updates; exact H.
  - apply TimersOk_fireTimer. exact H.
Qed.

Lemma TimersOk_reachable st : reachable st -> TimersOk st.
Proof.
  induction 1 as [saved|ev st _ IH].
  - unfold mounted, commit. skip_updates.
    repeat split; cbn; [intros ? []|constructor|intros ? []].
  - unfold step, commit. skip_updates. apply TimersOk_handle. exact IH.
Qed.

Lemma reconnectTimers_at_most_one st :
  TimersOk st -> (List.length (reconnectTimers st) <= 1)%nat.
Proof.
  intros (_ & Hnd & Hre). unfold reconnectTimers.
  assert (Hsame : forall a b, In a (timers st) -> In b (timers st) ->
            is_reconnect a = true -> is_reconnect b = true ->
            t_id a = t_id b).
  { intros a b Ha Hb Hra Hrb.
    pose proof (Hre a Ha Hra) as E1. pose proof (Hre b Hb Hrb) as E2.
    congruence. }
  clear Hre. induction (timers st) as [|t l IH]; [cbn; lia|].
  inversion Hnd as [|? ? Hn Hd]; subst. cbn [filter].
  destruct (is_reconnect t) eqn:Er.
  - cbn [List.length].
    destruct (filter is_reconnect l) as [|u us] eqn:Ef; [cbn; lia|].
    exfalso. apply Hn.
    assert (Hu : In u (filter is_reconnect l)) by (rewrite Ef; left; reflexivity).
    apply filter_In in Hu. destruct Hu as (Hul & Hur).
    rewrite (Hsame t u (or_introl eq_refl) (or_intror Hul) Er Hur).
    apply in_map. exact Hul.
  - apply IH; [exact Hd|].
    intros a b Ha Hb. apply Hsame; right; assumption.
Qed.

Lemma scheduleReconnect_frame {A} (p : State -> A) cl env st :
  untouched_by_reconnect p -> p (scheduleReconnect cl env st) = p st.
Proof.
  intros (? & ? & ? & ?). unfold scheduleReconnect. cbv zeta.
  use_untouched. rewrite setTimer_frame, appendLog_frame, clearTimerRef_frame
    by assumption. reflexivity.
Qed.

Lemma connectFailed_frame {A} (p : State -> A) cl env message st :
  untouched_by_reconnect p -> untouched p errorMsg ->
  untouched p connectionState ->
  p (connectFailed cl env message st) = p st.
Proof.
  intros Hr ? ?. unfold connectFailed. cbv zeta.
  case_cond; [rewrite scheduleReconnect_frame by assumption|];
    use_untouched; reflexivity.
Qed.

Lemma clearTimerRef_In r st t :
  In t (timers (clearTimerRef r st)) ->
  In t (timers st) /\ r <> Some (t_id t).
Proof.
  destruct r as [i|]; unfold clearTimerRef; [|intros H; split; [exact H|discriminate]].
  unfold clearTimer. record.simp. intros H. apply filter_In in H.
  destruct H as (Hin & Hne). split; [exact Hin|].
  intros E. injection E as ->. rewrite Nat.eqb_refl in Hne. discriminate.
Qed.

Lemma connectFailed_timers_In cl env message st t :
  In t (timers (connectFailed cl env message st)) ->
  In t (timers st) \/ t_id t = nextTimerId st.
Proof.
  unfold connectFailed. cbv zeta. case_cond.
  - destruct (scheduleReconnect_timers cl env
                (st {{ errorMsg := Some message; connectionState := ERROR }}))
      as (Et & _). rewrite Et. intros H. apply in_app_or in H.
    destruct H as [H|[<-|[]]].
    + left. apply clearTimerRef_In in H. apply H.
    + right. reflexivity.
  - intros H. left. exact H.
Qed.

Lemma connectToGemini_timers_In cl r env st t :
  In t (timers (connectToGemini cl r env st)) ->
  (In t (timers st) /\ reconnectTimeoutRef st <> Some (t_id t))
  \/ t_id t = nextTimerId st.
Proof.
  unfold connectToGemini, initializeAudioContexts. cbv zeta.
  set (st1 := if r then _ else _).
  assert (E1 : timers st1 = timers st /\
               reconnectTimeoutRef st1 = reconnectTimeoutRef st /\
               nextTimerId st1 = nextTimerId st)
    by (subst st1; destruct r; repeat split).
  destruct E1 as (Et & Er & En).
  set (st2 := clearTimerRef (reconnectTimeoutRef st1) st1).
  assert (H2 : forall t, In t (timers st2) ->
                 In t (timers st) /\ reconnectTimeoutRef st <> Some (t_id t)).
  { intros t' H. apply clearTimerRef_In in H. rewrite Et, Er in H. exact H. }
  assert (En2 : nextTimerId st2 = nextTimerId st).
  { subst st2. rewrite clearTimerRef_frame by by_fields. exact En. }
  destruct (negb (e_apiKey env)); [|destruct (negb (e_mic env))].
  - intros H. apply connectFailed_timers_In in H.
    destruct H as [H|H]; [left; apply H2; exact H|right; rewrite H; exact En2].
  - intros H. apply connectFailed_timers_In in H.
    destruct H as [H|H]; [left; apply H2; exact H|right; rewrite H; exact En2].
  - intros H. left. apply H2. exact H.
Qed.

Lemma connectToGemini_connectCalls cl r env st :
  connectCalls (connectToGemini cl r env st) = connectCalls st ++ [r].
Proof.
  unfold connectToGemini, initializeAudioContexts. cbv zeta.
  set (st1 := if r then _ else _).
  assert (E1 : connectCalls st1 = connectCalls st ++ [r])
    by (subst st1; destruct r; reflexivity).
  destruct (negb (e_apiKey env)); [|destruct (negb (e_mic env))];
    rewrite ?connectFailed_frame by by_fields; record.simp;
    rewrite clearTimerRef_frame by by_fields; exact E1.
Qed.

Lemma find_last {A} (f : A -> bool) l a :
  (forall x, In x l -> f x = false) -> f a = true ->
  find f (l ++ [a]) = Some a.
Proof.
  intros Hl Ha. induction l as [|x l IH]; cbn [app find].
  - rewrite Ha. reflexivity.
  - rewrite (Hl x (or_introl eq_refl)). apply IH.
    intros y Hy. apply Hl. right. exact Hy.
Qed.

Lemma find_absent {A} (f : A -> bool) l :
  (forall x, In x l -> f x = false) -> find f l = None.
Proof.
  intros Hl. induction l as [|x l IH]; [reflexivity|]. cbn [find].
  rewrite (Hl x (or_introl eq_refl)). apply IH.
  intros y Hy. apply Hl. right. exact Hy.
Qed.

Lemma onerror_effect cl env message st :
  TimersOk st -> isManuallyDisconnectedRef st = false ->
  let st' := onerror cl env message st in
  connectionState st' = ERROR /\
  timers st'
  = timers (clearTimerRef (reconnectTimeoutRef st) st)
    ++ [{| t_id := nextTimerId st; t_delay := RECONNECT_DELAY;
           t_callback := CbReconnect cl |}] /\
  reconnectTimers st'
  = [{| t_id := nextTimerId st; t_delay := RECONNECT_DELAY;
        t_callback := CbReconnect cl |}] /\
  nextTimerId st' = S (nextTimerId st).
Proof.
  intros Hok Hflag st'. subst st'. unfold onerror. cbv zeta.
  set (st1 := st {{ errorMsg := _; connectionState := ERROR }}).
  assert (Hf : isManuallyDisconnectedRef st1 = false) by exact Hflag.
  rewrite Hf. cbn [negb].
  assert (Hok1 : TimersOk st1) by exact Hok.
  destruct (TimersOk_scheduleReconnect cl env st1 Hok1) as (_ & Er).
  destruct (scheduleReconnect_timers cl env st1) as (Et & En & _).
  repeat split.
  - rewrite scheduleReconnect_frame by by_fields. reflexivity.
  - rewrite Et. f_equal. change (reconnectTimeoutRef st1) with (reconnectTimeoutRef st).
    destruct (reconnectTimeoutRef st); reflexivity.
  - exact Er.
  - exact En.
Qed.

Lemma fired_timer_is_spent cl r env i st t :
  TimersOk st ->
  In t (timers (connectToGemini cl r env (clearTimer i st))) ->
  (i < nextTimerId st)%nat ->
  t_id t <> i.
Proof.
  intros Hok Hin Hi E.
  apply connectToGemini_timers_In in Hin. destruct Hin as [(Hin & _)|Hn].
  - unfold clearTimer in Hin. record.simp. apply filter_In in Hin.
    destruct Hin as (_ & Hne). rewrite E, Nat.eqb_refl in Hne. discriminate.
  - rewrite clearTimer_frame in Hn by by_fields. lia.
Qed.

(** C2. In every reachable state in which the manual-disconnect flag is
    not set, an error event of a session puts the connection state to
    [ERROR] and leaves exactly one reconnect timer pending, armed for
    30000 ms; no reachable state has more than one pending reconnect
    timer; firing the armed timer calls [connectToGemini(true)] once and
    spends the timer, so that it cannot fire again; and any call of
    [connectToGemini] removes every reconnect timer that was pending. *)
Theorem reconnect_after_error :
  forall st sid s env message,
    reachable st ->
    nth_error (sessions st) sid = Some s ->
    isManuallyDisconnectedRef st = false ->
    let st' := step (EvError sid env message) st in
    let armed := {| t_id := nextTimerId st;
                    t_delay := 30000;
                    t_callback := CbReconnect (s_closure s) |} in
    connectionState st' = ERROR /\
    reconnectTimers st' = [armed] /\
    (forall st0,
        reachable st0 -> (List.length (reconnectTimers st0) <= 1)%nat) /\
    (forall env2,
        let st2 := step (EvTimer (t_id armed) env2) st' in
        connectCalls st2 = connectCalls st' ++ [true] /\
        ~ In (t_id armed) (map t_id (timers st2)) /\
        (forall env3,
            connectCalls (step (EvTimer (t_id armed) env3) st2)
            = connectCalls st2)) /\
    (forall st0 cl isReconnect env2 t,
        reachable st0 -> In t (reconnectTimers st0) ->
        ~ In t (timers (connectToGemini cl isReconnect env2 st0))).
Proof.
  intros st sid s env message Hreach Hs Hflag st' armed.
  pose proof (TimersOk_reachable st Hreach) as Hok.
  assert (Eh : handle (EvError sid env message) st
               = onerror (s_closure s) env message st).
  { unfold handle, withSession. rewrite Hs. reflexivity. }
  destruct (onerror_effect (s_closure s) env message st Hok Hflag)
    as (Ec & Et & Er & En).
  assert (Hok' : TimersOk st').
  { apply TimersOk_reachable. constructor. exact Hreach. }
  assert (Et' : timers st'
                = timers (clearTimerRef (reconnectTimeoutRef st) st) ++ [armed]).
  { subst st'. unfold step, commit. record.simp. rewrite Eh. exact Et. }
  assert (En' : nextTimerId st' = S (nextTimerId st)).
  { subst st'. unfold step, commit. record.simp. rewrite Eh. exact En. }
  assert (Hfind : find (fun t => (t_id t =? t_id armed)%nat) (timers st')
                  = Some armed).
  { rewrite Et'. apply find_last; [|apply Nat.eqb_refl].
    intros x Hx. apply Nat.eqb_neq.
    pose proof (TimersOk_clearTimerRef (reconnectTimeoutRef st) st Hok)
      as (Hlt & _).
    apply Hlt in Hx. rewrite clearTimerRef_frame in Hx by by_fields.
    cbn [armed t_id]. lia. }
  split.
  { subst st'. unfold step, commit. record.simp. rewrite Eh. exact Ec. }
  split.
  { subst st'. unfold step, commit, reconnectTimers. record.simp.
    rewrite Eh. exact Er. }
  split.
  { intros st0 H0. apply reconnectTimers_at_most_one, TimersOk_reachable.
    exact H0. }
  split.
  { intros env2 st2.
    assert (E2 : handle (EvTimer (t_id armed) env2) st'
                 = connectToGemini (s_closure s) true env2
                     (clearTimer (t_id armed) st')).
    { unfold handle, fireTimer. rewrite Hfind. reflexivity. }
    assert (Hspent : forall t, In t (timers st2) -> t_id t <> t_id armed).
    { intros t Ht. subst st2. unfold step, commit in Ht. record.simp.
      rewrite E2 in Ht.
      apply (fired_timer_is_spent _ _ _ _ _ _ Hok' Ht).
      rewrite En'. cbn [armed t_id]. lia. }
    split.
    { subst st2. unfold step, commit. record.simp. rewrite E2.
      rewrite connectToGemini_connectCalls.
      rewrite clearTimer_frame by by_fields. reflexivity. }
    split.
    { intros Hin. apply in_map_iff in Hin. destruct Hin as (t & E & Ht).
      exact (Hspent t Ht E). }
    intros env3. unfold step at 1, commit. record.simp.
    unfold handle, fireTimer. rewrite find_absent; [reflexivity|].
    intros x Hx. apply Nat.eqb_neq. apply Hspent. exact Hx. }
  intros st0 cl r env2 t H0 Ht Hin.
  pose proof (TimersOk_reachable st0 H0) as (Hlt & _ & Hre).
  apply filter_In in Ht. destruct Ht as (Ht & Hr).
  apply connectToGemini_timers_In in Hin. destruct Hin as [(_ & Hne)|Hn].
  - apply Hne. apply Hre; assumption.
  - apply Hlt in Ht. lia.
Qed.

Lemma reconnect_after_error_witness :
  let st' := step (EvError 0 (envAt 5000 0) "socket failure") (connectedAt 1000) in
  connectionState st' = ERROR /\
  List.length (reconnectTimers st') = 1%nat.
Proof.
  intros st'.
  destruct (reconnect_after_error (connectedAt 1000) 0
              {| s_closure := render (mounted None); s_isReconnect := false |}
              (envAt 5000 0) "socket failure")
    as (E1 & E2 & _).
  - unfold connectedAt, run. cbn [fold_left].
    apply reachable_step, reachable_step, reachable_mounted.
  - reflexivity.
  - reflexivity.
  - split; [exact E1|]. subst st'. rewrite E2. reflexivity.
Defined.

(** ** Missing credential (C4) *)

(** C4, as the code has it.  When the API key is absent, the connect
    attempt ends in state [ERROR] with the configuration message shown,
    before a microphone is requested or a session is created and without
    anything being sent; a connect started by the user clears the
    manual-disconnect flag, and whenever that flag is not set the failure
    schedules a reconnect timer of 30000 ms like any other failure (with
    the flag set no timer is added). *)
Theorem missing_api_key_fails_before_network :
  forall cl isReconnect env st,
    e_apiKey env = false ->
    let st' := connectToGemini cl isReconnect env st in
    connectionState st' = ERROR /\
    errorMsg st' = Some "API Key not found in environment variables" /\
    sessions st' = sessions st /\
    sessionPromiseRef st' = sessionPromiseRef st /\
    sent st' = sent st /\
    mediaStreamRef st' = mediaStreamRef st /\
    (isReconnect = false -> isManuallyDisconnectedRef st' = false) /\
    (isManuallyDisconnectedRef st' = false ->
     reconnectTimeoutRef st' = Some (nextTimerId st) /\
     In {| t_id := nextTimerId st;
           t_delay := 30000;
           t_callback := CbReconnect cl |} (timers st')) /\
    (isManuallyDisconnectedRef st' = true ->
     forall t, In t (timers st') -> In t (timers st)).
Proof.
  intros cl r env st Hkey st'. subst st'.
  unfold connectToGemini, initializeAudioContexts. cbv zeta.
  rewrite Hkey. cbn [negb].
  set (st1 := if r then _ else _).
  set (st4 := (clearTimerRef _ st1) {{ errorMsg := None; connectionState := CONNECTING }}
                {{ inputAudioContextRef := true; outputAudioContextRef := true }}).
  assert (F : forall {A} (p : State -> A),
             untouched p timers -> untouched p connectCalls ->
             untouched p isManuallyDisconnectedRef -> untouched p errorMsg ->
             untouched p connectionState -> untouched p inputAudioContextRef ->
             untouched p outputAudioContextRef -> p st4 = p st).
  { intros A p ? ? ? ? ? ? ?. subst st4. use_untouched.
    rewrite clearTimerRef_frame by assumption.
    subst st1. destruct r; use_untouched; reflexivity. }
  assert (Hflag : isManuallyDisconnectedRef st4
                  = if r then isManuallyDisconnectedRef st else false).
  { subst st4. record.simp. rewrite clearTimerRef_frame by by_fields.
    subst st1. destruct r; reflexivity. }
  unfold connectFailed. cbv zeta.
  set (st5 := st4 {{ errorMsg := Some _; connectionState := ERROR }}).
  assert (Hflag5 : isManuallyDisconnectedRef st5 = isManuallyDisconnectedRef st4)
    by reflexivity.
  destruct (isManuallyDisconnectedRef st5) eqn:Ef; cbn [negb].
  - (* the flag is set: the failure is shown, nothing is scheduled *)
    split; [reflexivity|]. split; [reflexivity|].
    split; [subst st5; record.simp; apply F; by_fields|].
    split; [subst st5; record.simp; apply F; by_fields|].
    split; [subst st5; record.simp; apply F; by_fields|].
    split; [subst st5; record.simp; apply F; by_fields|].
    split; [intros ->; cbv iota in Hflag; congruence|].
    split; [intros E; congruence|].
    intros _ t Ht. subst st5 st4. record.simp.
    apply clearTimerRef_In in Ht. destruct Ht as (Ht & _).
    subst st1. destruct r; exact Ht.
  - (* the flag is not set: a reconnect is scheduled *)
    destruct (scheduleReconnect_timers cl env st5) as (Et & _ & Er).
    assert (En : nextTimerId st5 = nextTimerId st)
      by (subst st5; record.simp; apply F; by_fields).
    assert (G : forall {A} (p : State -> A),
               untouched_by_reconnect p ->
               p (scheduleReconnect cl env st5) = p st5)
      by (intros A p Hp; apply scheduleReconnect_frame; exact Hp).
    split; [rewrite G by by_fields; reflexivity|].
    split; [rewrite G by by_fields; reflexivity|].
    split; [rewrite G by by_fields; subst st5; record.simp; apply F; by_fields|].
    split; [rewrite G by by_fields; subst st5; record.simp; apply F; by_fields|].
    split; [rewrite G by by_fields; subst st5; record.simp; apply F; by_fields|].
    split; [rewrite G by by_fields; subst st5; record.simp; apply F; by_fields|].
    split; [intros _; rewrite G by by_fields; congruence|].
    split.
    + intros _. split; [rewrite Er, En; reflexivity|].
      rewrite Et, En. apply in_or_app. right. left. reflexivity.
    + intros E. rewrite G in E by by_fields. congruence.
Qed.

Lemma missing_api_key_fails_before_network_witness :
  let st' := connectToGemini (render (mounted None)) false (envNoKey 1000)
               (mounted None) in
  connectionState st' = ERROR /\ sessions st' = [] /\
  reconnectTimeoutRef st' = Some 1%nat.
Proof.
  intros st'.
  destruct (missing_api_key_fails_before_network (render (mounted None))
              false (envNoKey 1000) (mounted None) eq_refl)
    as (E1 & _ & E3 & _ & _ & _ & E7 & E8 & _).
  destruct (E8 (E7 eq_refl)) as (E & _).
  split; [exact E1|]. split; [exact E3|exact E].
Defined.

(** C4 as stated fails: the missing key is retried.  On a fresh page the
    failed connect leaves a reconnect timer pending, and its firing runs
    the connect again. *)
Lemma missing_api_key_schedules_reconnect :
  let st := step (EvToggleConnection (envNoKey 1000)) (mounted None) in
  connectionState st = ERROR /\
  reconnectTimers st
  = [{| t_id := 1; t_delay := 30000;
        t_callback := CbReconnect (render (mounted None)) |}] /\
  connectCalls (step (EvTimer 1 (envNoKey 31000)) st) = [false; true].
Proof. vm_compute. repeat split. Qed.

(** ** Muting (C3) *)

(** C3 fails on the code: the audio processor tests the [isMuted] that
    the closure of [connectToGemini] captured when the session was
    started, not the mute toggle as it is when the chunk is processed.
    Muting after the session is open does not stop the forwarding; and
    in a session started while muted, chunks stay dropped after the user
    unmutes. *)
Theorem mute_toggle_is_not_seen_by_the_audio_processor :
  let chunk := [1; 2; 3] in
  let muted :=
    run [EvToggleMute; EvAudioProcess 0 chunk] (connectedAt 1000) in
  let unmuted :=
    run [EvToggleMute;
         EvToggleConnection (envAt 2000 0);
         EvToggleConnection (envAt 3000 0);
         EvOpen 1;
         EvToggleMute;
         EvAudioProcess 0 chunk]
        (connectedAt 1000) in
  (isMuted muted = true /\
   sent muted = [(0%nat, sendRealtimeInput (createAudioBlob chunk))]) /\
  (isMuted unmuted = false /\
   connectionState unmuted = CONNECTED /\
   sent unmuted = []).
Proof. vm_compute. repeat split. Qed.

(** ** Transcript persistence (C9) *)

Lemma civil_roundtrip z :
  0 <= z <= 2932896 ->
  let '(y, m, d) := JsDate.civil_from_days z in
  0 <= y <= 9999 /\ 1 <= m <= 12 /\ 1 <= d <= JsDate.daysInMonth y m /\
  JsDate.days_from_civil y m d = z.
Proof.
  intros Hz. unfold JsDate.civil_from_days. cbv zeta.
  set (z1 := z + 719468).
  set (era := z1 / 146097). set (doe := z1 mod 146097).
  set (n100 := Z.min (doe / 36524) 3).
  set (r1 := doe - 36524 * n100).
  set (n4 := r1 / 1461). set (r2 := r1 mod 1461).
  set (n1 := Z.min (r2 / 365) 3).
  set (doy := r2 - 365 * n1).
  set (mp := (5 * doy + 2) / 153).
  set (d := doy - (153 * mp + 2) / 5 + 1).
  assert (Hz1 : z1 = z + 719468) by reflexivity.
  assert (Hera : z1 = 146097 * era + doe /\ 0 <= doe < 146097)
    by (subst era doe; Z.div_mod_to_equations; lia).
  assert (Hn100 : 0 <= n100 <= 3 /\ 0 <= r1 <= 36524 /\ (n100 < 3 -> r1 < 36524)
                  /\ doe = 36524 * n100 + r1)
    by (subst n100 r1; Z.div_mod_to_equations; lia).
  assert (Hn4 : r1 = 1461 * n4 + r2 /\ 0 <= r2 < 1461 /\ 0 <= n4 <= 24)
    by (subst n4 r2; Z.div_mod_to_equations; lia).
  assert (Hn1 : 0 <= n1 <= 3 /\ 0 <= doy <= 365 /\ (n1 < 3 -> doy < 365)
                /\ r2 = 365 * n1 + doy)
    by (subst n1 doy; Z.div_mod_to_equations; lia).
  assert (Hmp : 0 <= mp <= 11 /\ 1 <= d <= 31 /\
                (153 * mp + 2) / 5 + d - 1 = doy /\
                (mp < 10 <-> doy < 306) /\
                (mp = 11 -> d <= 29 /\ (d = 29 -> doy = 365)) /\
                (mp = 1 \/ mp = 3 \/ mp = 6 \/ mp = 8 -> d <= 30))
    by (subst mp d; Z.div_mod_to_equations; lia).
  clearbody z1 era doe n100 r1 n4 r2 n1 doy mp d.
  unfold JsDate.days_from_civil. cbv zeta.
  destruct (Z.ltb_spec mp 10) as [Hlt|Hge].
  - (* March .. December *)
    destruct (Z.leb_spec (mp + 3) 2); [lia|].
    destruct (Z.ltb_spec 2 (mp + 3)); [|lia].
    replace (mp + 3 - 3) with mp by lia.
    repeat split; try lia; try (Z.div_mod_to_equations; lia).
    unfold JsDate.daysInMonth.
    destruct (Z.eqb_spec (mp + 3) 2); [lia|].
    destruct (Z.eqb_spec (mp + 3) 4), (Z.eqb_spec (mp + 3) 6),
      (Z.eqb_spec (mp + 3) 9), (Z.eqb_spec (mp + 3) 11); cbn [orb]; lia.
  - destruct (Z.leb_spec (mp - 9) 2); [|lia].
    destruct (Z.ltb_spec 2 (mp - 9)); [lia|].
    replace (mp - 9 + 9) with mp by lia.
    replace (400 * era + 100 * n100 + 4 * n4 + n1 + 1 - 1)
      with (400 * era + 100 * n100 + 4 * n4 + n1) by lia.
    repeat split; try lia; try (Z.div_mod_to_equations; lia).
    unfold JsDate.daysInMonth, JsDate.isLeapYear.
    destruct (Z.eqb_spec (mp - 9) 2) as [E2|N2].
    + destruct (Z.eqb_spec ((400 * era + 100 * n100 + 4 * n4 + n1 + 1) mod 4) 0),
        (Z.eqb_spec ((400 * era + 100 * n100 + 4 * n4 + n1 + 1) mod 100) 0),
        (Z.eqb_spec ((400 * era + 100 * n100 + 4 * n4 + n1 + 1) mod 400) 0);
        cbn [andb orb negb]; try lia;
        assert (d = 29 -> False) by (Z.div_mod_to_equations; lia); lia.
    + destruct (Z.eqb_spec (mp - 9) 4), (Z.eqb_spec (mp - 9) 6),
        (Z.eqb_spec (mp - 9) 9), (Z.eqb_spec (mp - 9) 11); cbn [orb]; lia.
Qed.

Lemma digit_value_char n :
  0 <= n <= 9 -> JsDate.digit_value (JsDate.digit_char n) = Some n.
Proof.
  intros H. rewrite <- (Z2Nat.id n) by lia.
  assert (Hk : (Z.to_nat n < 10)%nat) by lia.
  revert Hk. generalize (Z.to_nat n). intros k Hk.
  do 10 (destruct k as [|k]; [reflexivity|]). lia.
Qed.

Lemma number_pad k : forall acc n rest,
  0 <= n ->
  JsDate.number k acc (JsDate.pad k n ++ rest)
  = Some (acc * 10 ^ Z.of_nat k + n mod 10 ^ Z.of_nat k, rest).
Proof.
  induction k as [|k IH]; intros acc n rest Hn.
  - cbn [JsDate.number JsDate.pad]. change (10 ^ Z.of_nat 0) with 1.
    rewrite Z.mod_1_r. f_equal. f_equal. lia.
  - cbn [JsDate.pad].
    change ((String (JsDate.digit_char ((n / 10 ^ Z.of_nat k) mod 10)) (JsDate.pad k n)
             ++ rest)%string)
      with (String (JsDate.digit_char ((n / 10 ^ Z.of_nat k) mod 10))
              (JsDate.pad k n ++ rest)).
    cbn [JsDate.number].
    rewrite digit_value_char
      by (pose proof (Z.mod_pos_bound (n / 10 ^ Z.of_nat k) 10); lia).
    rewrite IH by exact Hn. f_equal. f_equal.
    rewrite Nat2Z.inj_succ, Z.pow_succ_r by lia.
    assert (Hp : 0 < 10 ^ Z.of_nat k) by (apply Z.pow_pos_nonneg; lia).
    rewrite (Z.mul_comm 10 (10 ^ Z.of_nat k)).
    rewrite (Z.rem_mul_r n (10 ^ Z.of_nat k) 10) by lia.
    lia.
Qed.

Lemma number_pad_small k n rest :
  0 <= n < 10 ^ Z.of_nat k ->
  JsDate.number k 0 (JsDate.pad k n ++ rest) = Some (n, rest).
Proof.
  intros H. rewrite number_pad by lia. rewrite Z.mod_small by exact H.
  reflexivity.
Qed.

Lemma expect_literal c s :
  JsDate.expect c (String c EmptyString ++ s) = Some s.
Proof.
  change (String c EmptyString ++ s)%string with (String c s).
  unfold JsDate.expect. rewrite Ascii.eqb_refl. reflexivity.
Qed.

Lemma parse_toISOString t :
  0 <= t <= 253402300799999 ->
  JsDate.parse (JsDate.toISOString t) = Some t.
Proof.
  intros Ht. unfold JsDate.toISOString.
  assert (Hday : 0 <= t / JsDate.msPerDay <= 2932896)
    by (unfold JsDate.msPerDay; Z.div_mod_to_equations; lia).
  pose proof (civil_roundtrip (t / JsDate.msPerDay) Hday) as Hc.
  destruct (JsDate.civil_from_days (t / JsDate.msPerDay)) as [[y m] d].
  destruct Hc as (Hy & Hm & Hd & Hdays).
  assert (Ht' : t = JsDate.msPerDay * (t / JsDate.msPerDay) + t mod JsDate.msPerDay)
    by (apply Z.div_mod; unfold JsDate.msPerDay; lia).
  set (r := t mod JsDate.msPerDay) in *.
  assert (Hr : 0 <= r < 86400000)
    by (subst r; unfold JsDate.msPerDay; Z.div_mod_to_equations; lia).
  assert (Hd31 : d <= 31).
  { destruct Hd as (_ & Hd). unfold JsDate.daysInMonth in Hd.
    repeat match type of Hd with
           | context [if ?b then _ else _] => destruct b
           end; lia. }
  clearbody r.
  unfold JsDate.year_string.
  destruct (Z.leb_spec 0 y); [|lia]. destruct (Z.leb_spec y 9999); [|lia].
  cbn [andb]. unfold JsDate.parse, JsDate.bind.
  rewrite number_pad_small by (change (10 ^ Z.of_nat 4) with 10000; lia).
  rewrite expect_literal.
  rewrite number_pad_small by (change (10 ^ Z.of_nat 2) with 100; lia).
  rewrite expect_literal.
  rewrite number_pad_small by (change (10 ^ Z.of_nat 2) with 100; lia).
  rewrite expect_literal.
  rewrite number_pad_small
    by (change (10 ^ Z.of_nat 2) with 100; Z.div_mod_to_equations; lia).
  rewrite expect_literal.
  rewrite number_pad_small
    by (change (10 ^ Z.of_nat 2) with 100; Z.div_mod_to_equations; lia).
  rewrite expect_literal.
  rewrite number_pad_small
    by (change (10 ^ Z.of_nat 2) with 100; Z.div_mod_to_equations; lia).
  rewrite expect_literal.
  rewrite number_pad_small
    by (change (10 ^ Z.of_nat 3) with 1000; Z.div_mod_to_equations; lia).
  change (JsDate.expect "Z" "Z") with (Some EmptyString).
  cbv beta iota.
  destruct (Z.leb_spec 1 m); [|lia]. destruct (Z.leb_spec m 12); [|lia].
  destruct (Z.leb_spec 1 d); [|lia].
  destruct (Z.leb_spec d (JsDate.daysInMonth y m)); [|lia].
  destruct (Z.leb_spec (r / 3600000) 23);
    [|Z.div_mod_to_equations; lia].
  destruct (Z.leb_spec ((r / 60000) mod 60) 59);
    [|Z.div_mod_to_equations; lia].
  destruct (Z.leb_spec ((r / 1000) mod 60) 59);
    [|Z.div_mod_to_equations; lia].
  cbn [andb]. f_equal. rewrite Hdays. unfold JsDate.msPerDay in *.
  Z.div_mod_to_equations. lia.
Qed.

Lemma revive_stringify e :
  0 <= timestamp e <= 253402300799999 ->
  revive (stringify_log e) = Some e.
Proof.
  intros H. destruct e as [i s t ts rep]. cbn [timestamp] in H.
  unfold revive, stringify_log.
  cbn [id sender text timestamp isReport].
  destruct rep as [b|], s;
    cbn -[JsDate.toISOString JsDate.parse];
    rewrite parse_toISOString by exact H; reflexivity.
Qed.

Lemma revive_all_stringify l :
  Forall (fun e => 0 <= timestamp e <= 253402300799999) l ->
  revive_all (map stringify_log l) = Some l.
Proof.
  induction 1 as [|e l He _ IH]; [reflexivity|].
  cbn [map revive_all]. rewrite (revive_stringify e He), IH. reflexivity.
Qed.

Lemma loadLogs_stringify l :
  Forall (fun e => 0 <= timestamp e <= 253402300799999) l ->
  loadLogs (Some (stringify_logs l)) = l.
Proof.
  intros H. unfold loadLogs, stringify_logs.
  rewrite revive_all_stringify by exact H. reflexivity.
Qed.

Lemma appendAll_effect es : forall st,
  logs (appendAll es st) = logs st ++ es /\
  (es <> [] ->
   storage (appendAll es st) = Some (stringify_logs (logs st ++ es))).
Proof.
  induction es as [|e es IH]; intros st.
  - split; [cbn; rewrite app_nil_r; reflexivity|]. intros H. destruct (H eq_refl).
  - unfold appendAll. cbn [fold_left].
    fold (appendAll es (commit (appendLog e st))).
    destruct (IH (commit (appendLog e st))) as (E1 & E2).
    assert (El : logs (commit (appendLog e st)) = logs st ++ [e]) by reflexivity.
    rewrite El, <- app_assoc in E1, E2. cbn [app] in E1, E2.
    split; [exact E1|]. intros _.
    destruct es as [|e' es]; [reflexivity|]. apply E2. discriminate.
Qed.

Lemma storage_reachable st :
  reachable st -> storage st = Some (stringify_logs (logs st)).
Proof. destruct 1; reflexivity. Qed.

(** C9. From any reachable state, appending log entries one at a time,
    the full array being written to local storage after each append, and
    then loading the page again from that storage gives the same entries
    in the same order, with the same time stamps (to the millisecond,
    hence to the second), for time stamps from 1970 to the year 9999. *)
Theorem log_persistence_roundtrip :
  forall st es,
    reachable st ->
    Forall (fun e => 0 <= timestamp e <= 253402300799999) (logs st ++ es) ->
    let st' := appendAll es st in
    logs st' = logs st ++ es /\
    storage st' = Some (stringify_logs (logs st ++ es)) /\
    logs (mounted (storage st')) = logs st ++ es /\
    map timestamp (logs (mounted (storage st')))
    = map timestamp (logs st ++ es) /\
    map (fun e => timestamp e / 1000) (logs (mounted (storage st')))
    = map (fun e => timestamp e / 1000) (logs st ++ es).
Proof.
  intros st es Hreach Hrange st'.
  destruct (appendAll_effect es st) as (El & Es). fold st' in El, Es.
  assert (Est : storage st' = Some (stringify_logs (logs st ++ es))).
  { destruct es as [|e es]; [|apply Es; discriminate].
    subst st'. cbn. rewrite app_nil_r. apply storage_reachable. exact Hreach. }
  assert (Eload : logs (mounted (storage st')) = logs st ++ es).
  { unfold mounted, commit, initialState. record.simp.
    rewrite Est. apply loadLogs_stringify. exact Hrange. }
  repeat split; try assumption; rewrite Eload; reflexivity.
Qed.

Lemma log_persistence_roundtrip_witness :
  let es := [logEntry (envAt 1700000000000 0) "u" user "status report";
             logEntry (envAt 1700000001500 0) "m" jarvis "All systems nominal."] in
  logs (mounted (storage (appendAll es (connectedAt 1699999990000)))) = es.
Proof.
  intros es.
  destruct (log_persistence_roundtrip (connectedAt 1699999990000) es)
    as (_ & _ & E & _).
  - unfold connectedAt, run. cbn [fold_left].
    apply reachable_step, reachable_step, reachable_mounted.
  - repeat constructor; cbn; lia.
  - exact E.
Defined.

(** * Further properties of the component *)

(** ** Footprints of the events *)

Lemma connectToGemini_frame {A} (p : State -> A) cl r env st :
  untouched_by_connect p -> p (connectToGemini cl r env st) = p st.
Proof.
  intros (Hr & ? & ? & ? & ? & ? & ? & ? & ? & ?).
  pose proof Hr as (? & ? & ? & ?).
  unfold connectToGemini, initializeAudioContexts. cbv zeta.
  set (st1 := if r then _ else _).
  assert (E1 : p st1 = p st)
    by (subst st1; destruct r; use_untouched; reflexivity).
  destruct (negb (e_apiKey env)); [|destruct (negb (e_mic env))];
    rewrite ?connectFailed_frame by assumption; use_untouched;
    rewrite clearTimerRef_frame by assumption; exact E1.
Qed.

Lemma onmessage_frame {A} (p : State -> A) cl env m st :
  untouched_by_tools p -> untouched_by_transcripts p ->
  untouched_by_playback p -> untouched p sent ->
  p (onmessage cl env m st) = p st.
Proof.
  intros Ht Hc Hp Hs. rewrite onmessage_after_tools_frame by assumption.
  destruct (toolCall m); [|reflexivity].
  apply handleToolCall_frame; assumption.
Qed.

Lemma fireTimer_frame {A} (p : State -> A) i env st :
  untouched_by_connect p -> untouched p isSpeaking -> untouched p sent ->
  p (fireTimer i env st) = p st.
Proof.
  intros Hc ? ?. pose proof Hc as ((? & _) & _).
  unfold fireTimer. destruct (find _ _) as [t|]; [|reflexivity].
  destruct (t_callback t).
  - rewrite connectToGemini_frame by assumption.
    apply clearTimer_frame; assumption.
  - use_untouched. apply clearTimer_frame; assumption.
  - apply send_frame; assumption.
Qed.

Lemma handle_frame {A} (p : State -> A) ev st :
  untouched_by_event ev p -> p (handle ev st) = p st.
Proof.
  destruct ev; unfold untouched_by_event, handle.
  - intros (Hc & Hd). unfold toggleConnection.
    destruct (connectionState st);
      first [apply disconnect_frame; assumption
            |apply connectToGemini_frame; assumption].
  - intros ?. destruct (connectionState st); try reflexivity.
    unfold toggleMute. use_untouched. reflexivity.
  - intros (Hv & ?). destruct (connectionState st); try reflexivity.
    unfold toggleVideo. destruct (isVideoEnabled st);
      [apply stopVideo_frame|apply startVideo_frame]; assumption.
  - intros ?. use_untouched. reflexivity.
  - intros ?. destruct (pendingReport st); use_untouched; reflexivity.
  - intros (? & ? & ?). unfold handleConfirmReport.
    destruct (cl_pendingReport _); [|reflexivity]. cbv zeta. use_untouched.
    rewrite send_frame, appendLog_frame by assumption. reflexivity.
  - intros (? & ?). unfold handleCancelReport. cbv zeta. use_untouched.
    destruct (cl_pendingReport _); [apply send_frame; assumption|reflexivity].
  - intros (? & ?). unfold withSession. destruct (nth_error _ _); [|reflexivity].
    unfold onopen. cbv zeta. case_cond; use_untouched; reflexivity.
  - intros (? & ? & ? & ?). unfold withSession.
    destruct (nth_error _ _); [|reflexivity].
    apply onmessage_frame; assumption.
  - intros (Hr & ?). unfold withSession. destruct (nth_error _ _); [|reflexivity].
    unfold onclose. cbv zeta. use_untouched.
    case_cond; [apply scheduleReconnect_frame; assumption|reflexivity].
  - intros (Hr & ? & ?). unfold withSession.
    destruct (nth_error _ _); [|reflexivity].
    unfold onerror. cbv zeta.
    case_cond; [rewrite scheduleReconnect_frame by assumption|];
      use_untouched; reflexivity.
  - intros ?. destruct (nth_error _ _); [|reflexivity]. unfold onaudioprocess.
    destruct (cl_isMuted _); [reflexivity|apply send_frame; assumption].
  - intros (? & ? & ?). unfold onended. cbv zeta.
    destruct (sourcesRef _); [rewrite setTimer_frame by assumption|];
      use_untouched; reflexivity.
  - intros (? & ? & ?). apply fireTimer_frame; assumption.
Qed.

Lemma step_frame {A} (p : State -> A) ev st :
  untouched p volumeRef -> untouched p storage ->
  p (step ev st) = p (handle ev st).
Proof. intros ? ?. unfold step, commit. use_untouched. reflexivity. Qed.

(** ** The transcript only grows *)

Lemma extendsLogs_refl st : extendsLogs st st.
Proof. exists []. rewrite app_nil_r. reflexivity. Qed.

Lemma extendsLogs_same st st' : logs st' = logs st -> extendsLogs st st'.
Proof. intros E. exists []. rewrite app_nil_r. exact E. Qed.

Lemma extendsLogs_trans st1 st2 st3 :
  extendsLogs st1 st2 -> extendsLogs st2 st3 -> extendsLogs st1 st3.
Proof.
  intros (a & Ea) (b & Eb). exists (a ++ b).
  rewrite Eb, Ea, app_assoc. reflexivity.
Qed.

Lemma extendsLogs_appendLog e st : extendsLogs st (appendLog e st).
Proof. exists [e]. reflexivity. Qed.

Lemma extendsLogs_startVideo env st : extendsLogs st (startVideo env st).
Proof.
  unfold startVideo. destruct (e_cam env).
  - apply extendsLogs_same. unfold setTimer. record.simp. reflexivity.
  - eexists. unfold appendLog. record.simp. reflexivity.
Qed.

Lemma scheduleReconnect_logs cl env st :
  logs (scheduleReconnect cl env st)
  = logs st ++ [logEntry env "sys" jarvis
                  ("⚠️ CONNECTION LOST. ATTEMPTING RECONNECT IN "
                     ++ Js.Number_toString (RECONNECT_DELAY / 1000)
                     ++ " SECONDS...")].
Proof.
  unfold scheduleReconnect. cbv zeta. unfold setTimer, appendLog. record.simp.
  rewrite (clearTimerRef_frame logs) by by_fields. reflexivity.
Qed.

Lemma extendsLogs_connectFailed cl env message st :
  extendsLogs st (connectFailed cl env message st).
Proof.
  unfold connectFailed. cbv zeta. case_cond.
  - eexists. rewrite scheduleReconnect_logs. record.simp. reflexivity.
  - apply extendsLogs_same. reflexivity.
Qed.

Lemma extendsLogs_connectToGemini cl r env st :
  extendsLogs st (connectToGemini cl r env st).
Proof.
  unfold connectToGemini, initializeAudioContexts. cbv zeta.
  set (st1 := if r then _ else _).
  set (st4 := (clearTimerRef _ st1) {{ errorMsg := None; connectionState := CONNECTING }}
                {{ inputAudioContextRef := true; outputAudioContextRef := true }}).
  assert (E : logs st4 = logs st).
  { subst st4. record.simp. rewrite clearTimerRef_frame by by_fields.
    subst st1. destruct r; reflexivity. }
  destruct (negb (e_apiKey env)); [|destruct (negb (e_mic env))].
  - eapply extendsLogs_trans; [apply extendsLogs_same; exact E|].
    apply extendsLogs_connectFailed.
  - eapply extendsLogs_trans; [apply extendsLogs_same; exact E|].
    apply extendsLogs_connectFailed.
  - apply extendsLogs_same. record.simp. exact E.
Qed.

Lemma extendsLogs_checkLocalCommands cl env t st :
  extendsLogs st (checkLocalCommands cl env t st).
Proof.
  unfold checkLocalCommands. cbv zeta.
  destruct (_ <? _); [apply extendsLogs_refl|].
  destruct (matchCommand _) as [c|]; [|apply extendsLogs_refl].
  destruct (logs_runCommand cl env c st) as (extra & E & _).
  exists (extra ++ [voiceCommandEntry env t]).
  unfold appendLog. record.simp. rewrite E, app_assoc. reflexivity.
Qed.

Lemma extendsLogs_execCall env st rs fc :
  extendsLogs st (fst (execCall env (st, rs) fc)).
Proof.
  destruct fc as [i e|i l|i t c|i n a]; unfold execCall; cbn [fst].
  - destruct e; [apply extendsLogs_startVideo|].
    apply extendsLogs_same. apply stopVideo_frame; by_fields.
  - apply extendsLogs_same. reflexivity.
  - apply extendsLogs_same. reflexivity.
  - apply extendsLogs_refl.
Qed.

Lemma extendsLogs_fold_execCall env calls : forall st rs,
  extendsLogs st (fst (fold_left (execCall env) calls (st, rs))).
Proof.
  induction calls as [|fc calls IH]; intros st rs; cbn [fold_left].
  - apply extendsLogs_refl.
  - destruct (execCall env (st, rs) fc) as [st1 rs1] eqn:E.
    eapply extendsLogs_trans; [|apply IH].
    change st1 with (fst (st1, rs1)). rewrite <- E.
    apply extendsLogs_execCall.
Qed.

Lemma extendsLogs_handleToolCall env calls st :
  extendsLogs st (handleToolCall env calls st).
Proof.
  unfold handleToolCall. cbv zeta.
  set (st1 := appendLog _ st).
  pose proof (extendsLogs_fold_execCall env calls st1 []) as H.
  destruct (fold_left _ _ _) as [st2 rs]. cbn [fst] in H.
  assert (H2 : extendsLogs st st2).
  { eapply extendsLogs_trans; [apply extendsLogs_appendLog|exact H]. }
  destruct rs; [exact H2|].
  eapply extendsLogs_trans; [exact H2|].
  apply extendsLogs_same. apply send_frame; by_fields.
Qed.

Lemma handleTurnComplete_logs env st :
  logs (handleTurnComplete env st)
  = logs st
    ++ (if Js.truthy (Js.trim (currentInputTranscription st))
        then [logEntry env "u" user (Js.trim (currentInputTranscription st))]
        else [])
    ++ (if Js.truthy (Js.trim (currentOutputTranscription st))
        then [logEntry env "m" jarvis (Js.trim (currentOutputTranscription st))]
        else []).
Proof.
  unfold handleTurnComplete. cbv zeta.
  destruct (Js.truthy (Js.trim (currentInputTranscription st)));
    destruct (Js.truthy (Js.trim (currentOutputTranscription st)));
    cbn [orb]; record.simp; rewrite ?app_nil_r; reflexivity.
Qed.

Lemma extendsLogs_onmessage cl env m st :
  extendsLogs st (onmessage cl env m st).
Proof.
  unfold onmessage. cbv zeta.
  set (st1 := match toolCall m with Some calls => _ | None => st end).
  assert (H1 : extendsLogs st st1).
  { subst st1. destruct (toolCall m);
      [apply extendsLogs_handleToolCall|apply extendsLogs_refl]. }
  set (st2 := handleTranscription cl env m st1).
  assert (H2 : extendsLogs st1 st2).
  { subst st2. unfold handleTranscription.
    destruct (outputTranscription m);
      [apply extendsLogs_same; reflexivity|].
    destruct (inputTranscription m); [|apply extendsLogs_refl].
    cbv zeta.
    eapply extendsLogs_trans; [|apply extendsLogs_checkLocalCommands].
    apply extendsLogs_same. reflexivity. }
  set (st3 := if turnComplete m then _ else st2).
  assert (H3 : extendsLogs st2 st3).
  { subst st3. destruct (turnComplete m); [|apply extendsLogs_refl].
    eexists. rewrite handleTurnComplete_logs. reflexivity. }
  set (st4 := match inlineAudio m with Some buf => _ | None => st3 end).
  assert (H4 : extendsLogs st3 st4).
  { subst st4. destruct (inlineAudio m); [|apply extendsLogs_refl].
    apply extendsLogs_same. apply handleAudio_frame; by_fields. }
  assert (H5 : extendsLogs st st4).
  { eapply extendsLogs_trans; [exact H1|].
    eapply extendsLogs_trans; [exact H2|].
    eapply extendsLogs_trans; [exact H3|exact H4]. }
  destruct (interrupted m); [|exact H5].
  eapply extendsLogs_trans; [exact H5|].
  apply extendsLogs_same. apply handleInterrupted_frame; by_fields.
Qed.

Lemma extendsLogs_handle ev st : extendsLogs st (handle ev st).
Proof.
  destruct ev;
    try (apply extendsLogs_same; apply handle_frame; by_fields).
  - unfold handle, toggleConnection. destruct (connectionState st);
      first [apply extendsLogs_connectToGemini
            |apply extendsLogs_same; apply disconnect_frame; by_fields].
  - unfold handle. destruct (connectionState st); try apply extendsLogs_refl.
    unfold toggleVideo. destruct (isVideoEnabled st);
      [apply extendsLogs_same; apply stopVideo_frame; by_fields
      |apply extendsLogs_startVideo].
  - unfold handle, handleConfirmReport.
    destruct (cl_pendingReport _); [|apply extendsLogs_refl].
    cbv zeta. eexists. record.simp. rewrite send_frame by by_fields.
    unfold appendLog. record.simp. reflexivity.
  - unfold handle, withSession. destruct (nth_error _ _);
      [apply extendsLogs_onmessage|apply extendsLogs_refl].
  - unfold handle, withSession.
    destruct (nth_error _ _); [|apply extendsLogs_refl].
    unfold onclose. cbv zeta. case_cond.
    + eexists. record.simp. rewrite scheduleReconnect_logs. reflexivity.
    + apply extendsLogs_same. reflexivity.
  - unfold handle, withSession.
    destruct (nth_error _ _); [|apply extendsLogs_refl].
    unfold onerror. cbv zeta. case_cond.
    + eexists. rewrite scheduleReconnect_logs. record.simp. reflexivity.
    + apply extendsLogs_same. reflexivity.
  - unfold handle, fireTimer.
    destruct (find _ _) as [t|]; [|apply extendsLogs_refl].
    destruct (t_callback t).
    + eapply extendsLogs_trans; [|apply extendsLogs_connectToGemini].
      apply extendsLogs_same. reflexivity.
    + apply extendsLogs_same. reflexivity.
    + apply extendsLogs_same. apply send_frame; by_fields.
Qed.

Lemma extendsLogs_step ev st : extendsLogs st (step ev st).
Proof.
  eapply extendsLogs_trans; [apply extendsLogs_handle|].
  apply extendsLogs_same. reflexivity.
Qed.

Lemma extendsLogs_run evs : forall st, extendsLogs st (run evs st).
Proof.
  induction evs as [|ev evs IH]; intros st; [apply extendsLogs_refl|].
  unfold run. cbn [fold_left]. fold (run evs (step ev st)).
  eapply extendsLogs_trans; [apply extendsLogs_step|apply IH].
Qed.

Lemma reachable_run evs : forall st, reachable st -> reachable (run evs st).
Proof.
  induction evs as [|ev evs IH]; intros st H; [exact H|].
  unfold run. cbn [fold_left]. fold (run evs (step ev st)).
  apply IH. constructor. exact H.
Qed.

(** X1. The transcript is append-only.  Whatever events are handled, in
    whatever state, the entries that were in the transcript stay where
    they were, unchanged, and new entries only come after them; and once
    the component is mounted local storage holds the whole transcript
    after each event. *)
Theorem transcript_is_append_only :
  forall evs st,
    exists extra,
      logs (run evs st) = logs st ++ extra /\
      (forall i e, nth_error (logs st) i = Some e ->
                   nth_error (logs (run evs st)) i = Some e) /\
      (reachable st ->
       storage (run evs st) = Some (stringify_logs (logs st ++ extra))).
Proof.
  intros evs st. destruct (extendsLogs_run evs st) as (extra & E).
  exists extra. split; [exact E|]. split.
  - intros i e H. rewrite E. rewrite nth_error_app1; [exact H|].
    apply nth_error_Some. rewrite H. discriminate.
  - intros H. rewrite <- E. apply storage_reachable, reachable_run. exact H.
Qed.

Lemma transcript_is_append_only_witness :
  exists extra,
    logs (run [EvError 0 (envAt 5000 0) "socket failure"] (connectedAt 1000))
    = logs (connectedAt 1000) ++ extra /\
    storage (run [EvError 0 (envAt 5000 0) "socket failure"] (connectedAt 1000))
    = Some (stringify_logs (logs (connectedAt 1000) ++ extra)).
Proof.
  destruct (transcript_is_append_only
              [EvError 0 (envAt 5000 0) "socket failure"] (connectedAt 1000))
    as (extra & E & _ & S).
  exists extra. split; [exact E|]. apply S.
  apply reachable_step, reachable_step, reachable_mounted.
Defined.

(** ** Manual disconnect *)

Ltac skip_noNew :=
  repeat match goal with
         | |- noNewReconnect ?a (apply_update (mk_update ?g ?f) ?s) =>
             change (noNewReconnect a s)
         end.

Lemma noNewReconnect_refl st : noNewReconnect st st.
Proof. intros t H _. exact H. Qed.

Lemma noNewReconnect_trans st1 st2 st3 :
  noNewReconnect st1 st2 -> noNewReconnect st2 st3 -> noNewReconnect st1 st3.
Proof.
  intros H12 H23 t Ht Hr. apply H12; [apply H23; assumption|exact Hr].
Qed.

Lemma noNewReconnect_same st st' :
  timers st' = timers st -> noNewReconnect st st'.
Proof. intros E t H _. rewrite <- E. exact H. Qed.

Lemma noNewReconnect_none st st' :
  noNewReconnect st st' -> reconnectTimers st = [] -> reconnectTimers st' = [].
Proof.
  intros H E. unfold reconnectTimers in *.
  destruct (filter is_reconnect (timers st')) as [|t l] eqn:F; [reflexivity|].
  assert (Ht : In t (filter is_reconnect (timers st')))
    by (rewrite F; left; reflexivity).
  apply filter_In in Ht. destruct Ht as (Ht & Hr).
  assert (Hin : In t (filter is_reconnect (timers st)))
    by (apply filter_In; split; [apply H; assumption|exact Hr]).
  rewrite E in Hin. destruct Hin.
Qed.

Lemma noNewReconnect_clearTimer i st : noNewReconnect st (clearTimer i st).
Proof.
  intros t Ht _. unfold clearTimer in Ht. record.simp.
  apply filter_In in Ht. apply Ht.
Qed.

Lemma noNewReconnect_clearTimerRef r st :
  noNewReconnect st (clearTimerRef r st).
Proof.
  destruct r; unfold clearTimerRef;
    [apply noNewReconnect_clearTimer|apply noNewReconnect_refl].
Qed.

Lemma noNewReconnect_setTimer cb d st :
  (forall cl, cb <> CbReconnect cl) -> noNewReconnect st (setTimer cb d st).
Proof.
  intros Hcb t Ht Hr. unfold setTimer in Ht. record.simp.
  apply in_app_or in Ht. destruct Ht as [Ht|[<-|[]]]; [exact Ht|].
  unfold is_reconnect in Hr. cbn [t_callback] in Hr.
  destruct cb; try discriminate. exfalso. exact (Hcb _ eq_refl).
Qed.

Lemma noNewReconnect_startVideo env st : noNewReconnect st (startVideo env st).
Proof.
  unfold startVideo. destruct (e_cam env).
  - skip_noNew.
    eapply noNewReconnect_trans; [|apply noNewReconnect_setTimer; discriminate].
    skip_noNew. apply noNewReconnect_refl.
  - unfold appendLog. skip_noNew. apply noNewReconnect_refl.
Qed.

Lemma noNewReconnect_stopVideo st : noNewReconnect st (stopVideo st).
Proof.
  unfold stopVideo. cbv zeta. skip_noNew. case_cond; skip_noNew.
  - eapply noNewReconnect_trans; [|apply noNewReconnect_clearTimer].
    skip_noNew. apply noNewReconnect_refl.
  - apply noNewReconnect_refl.
Qed.

Lemma noNewReconnect_disconnect st : noNewReconnect st (disconnect st).
Proof.
  unfold disconnect, stopAudioContexts. cbv zeta.
  set (st3 := stopVideo _).
  assert (H3 : noNewReconnect st st3).
  { subst st3.
    eapply noNewReconnect_trans; [|apply noNewReconnect_stopVideo].
    eapply noNewReconnect_trans; [|apply noNewReconnect_clearTimerRef].
    skip_noNew. apply noNewReconnect_refl. }
  clearbody st3. case_cond; skip_noNew; exact H3.
Qed.

Lemma noNewReconnect_runCommand cl env c st :
  noNewReconnect st (runCommand cl env c st).
Proof.
  destruct c; unfold runCommand.
  - unfold toggleMute. skip_noNew. apply noNewReconnect_refl.
  - destruct (negb _);
      [apply noNewReconnect_startVideo|apply noNewReconnect_refl].
  - destruct (cl_isVideoEnabled cl);
      [apply noNewReconnect_stopVideo|apply noNewReconnect_refl].
  - apply noNewReconnect_disconnect.
Qed.

Lemma noNewReconnect_checkLocalCommands cl env t st :
  noNewReconnect st (checkLocalCommands cl env t st).
Proof.
  unfold checkLocalCommands. cbv zeta.
  destruct (_ <? _); [apply noNewReconnect_refl|].
  destruct (matchCommand _) as [c|]; [|apply noNewReconnect_refl].
  unfold appendLog. skip_noNew. apply noNewReconnect_runCommand.
Qed.

Lemma noNewReconnect_execCall env st rs fc :
  noNewReconnect st (fst (execCall env (st, rs) fc)).
Proof.
  destruct fc as [i e|i l|i t c|i n a]; unfold execCall; cbn [fst].
  - destruct e;
      [apply noNewReconnect_startVideo|apply noNewReconnect_stopVideo].
  - skip_noNew. apply noNewReconnect_refl.
  - skip_noNew. apply noNewReconnect_refl.
  - apply noNewReconnect_refl.
Qed.

Lemma noNewReconnect_handleToolCall env calls st :
  noNewReconnect st (handleToolCall env calls st).
Proof.
  unfold handleToolCall. cbv zeta.
  set (st1 := appendLog _ st).
  assert (H1 : noNewReconnect st st1)
    by (unfold st1, appendLog; skip_noNew; apply noNewReconnect_refl).
  assert (H2 : forall acc,
             noNewReconnect (fst acc) (fst (fold_left (execCall env) calls acc))).
  { clear. induction calls as [|fc calls IH]; intros [st rs];
      cbn [fold_left]; [apply noNewReconnect_refl|].
    destruct (execCall env (st, rs) fc) as [st' rs'] eqn:E.
    eapply noNewReconnect_trans; [|apply (IH (st', rs'))].
    cbn [fst]. change st' with (fst (st', rs')). rewrite <- E.
    apply noNewReconnect_execCall. }
  specialize (H2 (st1, [])). cbn [fst] in H2.
  destruct (fold_left _ _ _) as [st2 rs]. cbn [fst] in H2.
  assert (H3 : noNewReconnect st st2)
    by exact (noNewReconnect_trans _ _ _ H1 H2).
  destruct rs; [exact H3|].
  eapply noNewReconnect_trans; [exact H3|].
  apply noNewReconnect_same. apply send_frame; by_fields.
Qed.

Lemma noNewReconnect_onmessage cl env m st :
  noNewReconnect st (onmessage cl env m st).
Proof.
  unfold onmessage. cbv zeta.
  set (st1 := match toolCall m with Some calls => _ | None => st end).
  assert (H1 : noNewReconnect st st1).
  { subst st1. destruct (toolCall m);
      [apply noNewReconnect_handleToolCall|apply noNewReconnect_refl]. }
  set (st2 := handleTranscription cl env m st1).
  assert (H2 : noNewReconnect st1 st2).
  { subst st2. unfold handleTranscription.
    destruct (outputTranscription m);
      [skip_noNew; apply noNewReconnect_refl|].
    destruct (inputTranscription m); [|apply noNewReconnect_refl].
    cbv zeta.
    eapply noNewReconnect_trans; [|apply noNewReconnect_checkLocalCommands].
    skip_noNew. apply noNewReconnect_refl. }
  set (st3 := if turnComplete m then _ else st2).
  assert (H3 : noNewReconnect st2 st3).
  { subst st3. destruct (turnComplete m); [|apply noNewReconnect_refl].
    apply noNewReconnect_same. apply handleTurnComplete_frame; by_fields. }
  set (st4 := match inlineAudio m with Some buf => _ | None => st3 end).
  assert (H4 : noNewReconnect st3 st4).
  { subst st4. destruct (inlineAudio m); [|apply noNewReconnect_refl].
    apply noNewReconnect_same. apply handleAudio_frame; by_fields. }
  assert (H5 : noNewReconnect st st4).
  { eapply noNewReconnect_trans; [exact H1|].
    eapply noNewReconnect_trans; [exact H2|].
    eapply noNewReconnect_trans; [exact H3|exact H4]. }
  destruct (interrupted m); [|exact H5].
  eapply noNewReconnect_trans; [exact H5|].
  apply noNewReconnect_same. apply handleInterrupted_frame; by_fields.
Qed.

(** The fields of [Quiet] other than the timers, and what the component
    has sent, opened and played so far. *)
Lemma send_without_session o st : sessionPromiseRef st = None -> send o st = st.
Proof. intros H. unfold send. rewrite H. reflexivity. Qed.

Lemma Quiet_disconnect st : TimersOk st -> Quiet (disconnect st).
Proof.
  intros Hok.
  destruct (disconnect_effect st) as (? & ? & ? & ? & ? & ? & _).
  repeat split; try assumption.
  assert (Hn : noNewReconnect (clearTimerRef (reconnectTimeoutRef st) st)
                 (disconnect st)).
  { unfold disconnect, stopAudioContexts. cbv zeta.
    set (st3 := stopVideo _).
    assert (Hn3 : noNewReconnect (clearTimerRef (reconnectTimeoutRef st) st) st3).
    { subst st3.
      eapply noNewReconnect_trans; [|apply noNewReconnect_stopVideo].
      apply noNewReconnect_same.
      change (reconnectTimeoutRef (st {{ isManuallyDisconnectedRef := true }}))
        with (reconnectTimeoutRef st).
      destruct (reconnectTimeoutRef st); reflexivity. }
    clearbody st3. case_cond; skip_noNew; exact Hn3. }
  apply (noNewReconnect_none _ _ Hn). apply reconnectTimers_cleared. exact Hok.
Qed.

Lemma holdings_disconnect st :
  Quiet st -> holdings (disconnect st) = holdings st.
Proof.
  intros (Hf & Hr & Hm & Hi & Ho & Hp & _).
  destruct (disconnect_effect st) as (E1 & E2 & E3 & E4 & E5 & E6 & E7 & _).
  unfold holdings.
  rewrite E1, E2, E3, E4, E5, E6, E7, Hf, Hr, Hm, Hi, Ho, Hp, app_nil_r.
  rewrite !(disconnect_frame _ st) by by_fields. reflexivity.
Qed.

Lemma holdings_session a b :
  holdings a = holdings b -> sessionPromiseRef a = sessionPromiseRef b.
Proof. unfold holdings. intros E. congruence. Qed.

Lemma holdings_Quiet a b :
  holdings a = holdings b -> noNewReconnect b a -> Quiet b -> Quiet a.
Proof.
  unfold holdings. intros E Hn (Hf & Hr & Hm & Hi & Ho & Hp & Ht).
  injection E as E1 E2 E3 E4 E5 E6 _ _ _ _ _.
  repeat split; try congruence.
  exact (noNewReconnect_none _ _ Hn Ht).
Qed.

Lemma holdings_handleToolCall env calls st :
  sessionPromiseRef st = None ->
  holdings (handleToolCall env calls st) = holdings st.
Proof.
  intros Hr. unfold handleToolCall. cbv zeta.
  set (st1 := appendLog _ st).
  pose proof (fold_execCall_frame holdings env calls st1 []) as E.
  destruct (fold_left _ _ _) as [st2 rs]. cbn [fst] in E.
  assert (E2 : holdings st2 = holdings st) by (apply E; by_fields).
  destruct rs; [exact E2|].
  rewrite send_without_session; [exact E2|].
  rewrite (holdings_session _ _ E2). exact Hr.
Qed.

Lemma holdings_checkLocalCommands cl env t st :
  Quiet st -> holdings (checkLocalCommands cl env t st) = holdings st.
Proof.
  intros Hq. unfold checkLocalCommands. cbv zeta.
  destruct (_ <? _); [reflexivity|].
  destruct (matchCommand _) as [c|]; [|reflexivity].
  rewrite appendLog_frame by by_fields.
  change (holdings (runCommand cl env c st) = holdings st).
  destruct c; unfold runCommand.
  - reflexivity.
  - destruct (negb _); [apply startVideo_frame; by_fields|reflexivity].
  - destruct (cl_isVideoEnabled cl); [apply stopVideo_frame; by_fields|reflexivity].
  - apply holdings_disconnect. exact Hq.
Qed.

Lemma holdings_onmessage cl env m st :
  Quiet st -> holdings (onmessage cl env m st) = holdings st.
Proof.
  intros Hq. pose proof Hq as (_ & Hr & _ & _ & Ho & _ & _).
  unfold onmessage. cbv zeta.
  set (st1 := match toolCall m with Some calls => _ | None => st end).
  assert (E1 : holdings st1 = holdings st).
  { subst st1. destruct (toolCall m); [|reflexivity].
    apply holdings_handleToolCall. exact Hr. }
  assert (Q1 : Quiet st1).
  { apply (holdings_Quiet _ _ E1); [|exact Hq].
    subst st1. destruct (toolCall m);
      [apply noNewReconnect_handleToolCall|apply noNewReconnect_refl]. }
  set (st2 := handleTranscription cl env m st1).
  assert (E2 : holdings st2 = holdings st1).
  { subst st2. unfold handleTranscription.
    destruct (outputTranscription m); [reflexivity|].
    destruct (inputTranscription m); [|reflexivity].
    cbv zeta. rewrite holdings_checkLocalCommands; [reflexivity|exact Q1]. }
  set (st3 := if turnComplete m then _ else st2).
  assert (E3 : holdings st3 = holdings st2).
  { subst st3. destruct (turnComplete m); [|reflexivity].
    apply handleTurnComplete_frame; by_fields. }
  assert (E13 : holdings st3 = holdings st) by congruence.
  set (st4 := match inlineAudio m with Some buf => _ | None => st3 end).
  assert (E4 : st4 = st3).
  { subst st4. destruct (inlineAudio m); [|reflexivity].
    unfold handleAudio.
    assert (Eo : outputAudioContextRef st3 = false).
    { unfold holdings in E13. injection E13 as _ _ _ _ E _ _ _ _ _ _.
      congruence. }
    rewrite Eo. reflexivity. }
  rewrite E4. destruct (interrupted m); [|exact E13].
  unfold handleInterrupted. rewrite <- E13. reflexivity.
Qed.

Lemma find_In {A} (f : A -> bool) l a :
  find f l = Some a -> In a l /\ f a = true.
Proof. apply find_some. Qed.

(** In a quiet state, every event other than the power button leaves the
    holdings as they are and arms no reconnect timer. *)
Lemma Quiet_handle ev st :
  Quiet st -> isPowerButton ev = false ->
  holdings (handle ev st) = holdings st /\ noNewReconnect st (handle ev st).
Proof.
  intros Hq Hp. pose proof Hq as (Hf & Hr & Hm & Hi & Ho & Hpr & Ht).
  destruct ev; try discriminate Hp; unfold handle.
  - (* mute *)
    split; [|apply noNewReconnect_same];
      apply (handle_frame _ EvToggleMute); by_fields.
  - (* video *)
    split; [apply (handle_frame _ (EvToggleVideo env)); by_fields|].
    destruct (connectionState st); try (apply noNewReconnect_same; reflexivity).
    unfold toggleVideo. destruct (isVideoEnabled st);
      [apply noNewReconnect_stopVideo|apply noNewReconnect_startVideo].
  - split; [reflexivity|(apply noNewReconnect_same; reflexivity)].
  - split; [|apply noNewReconnect_same];
      apply (handle_frame _ (EvEditTitle s)); by_fields.
  - (* confirm *)
    unfold handleConfirmReport. destruct (cl_pendingReport _);
      [|split; [reflexivity|(apply noNewReconnect_same; reflexivity)]].
    cbv zeta. rewrite send_without_session by exact Hr.
    split; [reflexivity|(apply noNewReconnect_same; reflexivity)].
  - (* cancel *)
    unfold handleCancelReport. cbv zeta.
    destruct (cl_pendingReport _);
      rewrite ?send_without_session by exact Hr;
      (split; [reflexivity|(apply noNewReconnect_same; reflexivity)]).
  - (* open *)
    unfold withSession. destruct (nth_error _ _);
      [|split; [reflexivity|(apply noNewReconnect_same; reflexivity)]].
    unfold onopen. cbv zeta.
    change (inputAudioContextRef (st {{ connectionState := CONNECTED }}))
      with (inputAudioContextRef st).
    rewrite Hi. split; [reflexivity|(apply noNewReconnect_same; reflexivity)].
  - (* message *)
    unfold withSession. destruct (nth_error _ _);
      [|split; [reflexivity|(apply noNewReconnect_same; reflexivity)]].
    split; [apply holdings_onmessage; exact Hq|apply noNewReconnect_onmessage].
  - (* close *)
    unfold withSession. destruct (nth_error _ _);
      [|split; [reflexivity|(apply noNewReconnect_same; reflexivity)]].
    unfold onclose. cbv zeta. rewrite Hf. cbn [negb].
    split; [reflexivity|(apply noNewReconnect_same; reflexivity)].
  - (* error *)
    unfold withSession. destruct (nth_error _ _);
      [|split; [reflexivity|(apply noNewReconnect_same; reflexivity)]].
    unfold onerror. cbv zeta.
    change (isManuallyDisconnectedRef
              (st {{ errorMsg := Some (if Js.truthy message then message
                                       else "Connection lost. J.A.R.V.I.S. is currently unavailable.");
                     connectionState := ERROR }}))
      with (isManuallyDisconnectedRef st).
    rewrite Hf. cbn [negb]. split; [reflexivity|(apply noNewReconnect_same; reflexivity)].
  - (* audio process *)
    rewrite Hpr. destruct k; split; try reflexivity; (apply noNewReconnect_same; reflexivity).
  - (* ended *)
    split; [apply (handle_frame _ (EvEnded h)); by_fields|].
    unfold onended. cbv zeta. destruct (sourcesRef _).
    + eapply noNewReconnect_trans;
        [|apply noNewReconnect_setTimer; discriminate].
      skip_noNew. (apply noNewReconnect_same; reflexivity).
    + skip_noNew. (apply noNewReconnect_same; reflexivity).
  - (* timer *)
    unfold fireTimer. destruct (find _ _) as [t|] eqn:F;
      [|split; [reflexivity|(apply noNewReconnect_same; reflexivity)]].
    apply find_In in F. destruct F as (Hin & _).
    destruct (t_callback t) eqn:Ecb.
    + exfalso.
      assert (Hrc : In t (reconnectTimers st)).
      { apply filter_In. split; [exact Hin|].
        unfold is_reconnect. rewrite Ecb. reflexivity. }
      rewrite Ht in Hrc. destruct Hrc.
    + split; [reflexivity|]. skip_noNew. apply noNewReconnect_clearTimer.
    + unfold sendVideoFrame. rewrite send_without_session by exact Hr.
      split; [reflexivity|(apply noNewReconnect_same; reflexivity)].
Qed.

Lemma commit_frame {A} (p : State -> A) st :
  untouched p volumeRef -> untouched p storage -> p (commit st) = p st.
Proof. intros ? ?. unfold commit. use_untouched. reflexivity. Qed.

Lemma Quiet_commit st : Quiet st -> Quiet (commit st).
Proof. intros H. exact H. Qed.

Lemma Quiet_step ev st :
  Quiet st -> isPowerButton ev = false ->
  Quiet (step ev st) /\ holdings (step ev st) = holdings st.
Proof.
  intros Hq Hp. destruct (Quiet_handle ev st Hq Hp) as (E & Hn).
  assert (E' : holdings (step ev st) = holdings st) by exact E.
  split; [|exact E'].
  apply (holdings_Quiet _ _ E'); [|exact Hq].
  eapply noNewReconnect_trans; [exact Hn|].
  apply noNewReconnect_same. reflexivity.
Qed.

Lemma Quiet_run evs : forall st,
  Quiet st -> forallb (fun ev => negb (isPowerButton ev)) evs = true ->
  Quiet (run evs st) /\ holdings (run evs st) = holdings st.
Proof.
  induction evs as [|ev evs IH]; intros st Hq Hp; [split; [exact Hq|reflexivity]|].
  cbn [forallb] in Hp. apply andb_prop in Hp. destruct Hp as (Hp1 & Hp2).
  apply negb_true_iff in Hp1.
  destruct (Quiet_step ev st Hq Hp1) as (Q1 & E1).
  unfold run. cbn [fold_left]. fold (run evs (step ev st)).
  destruct (IH _ Q1 Hp2) as (Q2 & E2).
  split; [exact Q2|]. rewrite E2. exact E1.
Qed.

(** X2. While the component is at rest at the user's request, none of
    its callbacks other than the power button's wakes it up: whichever
    of them run (the open, message, close and error callbacks of old
    sessions, timers, audio events, the other controls), and in whatever
    order, the component is still at rest, no connection is attempted,
    no session is created or closed, nothing is sent, nothing is played,
    and no reconnect timer is armed.  This is about the callbacks: a
    call of [connectToGemini] that is still waiting for the microphone
    when the user disconnects resumes afterwards, and is not one of
    them. *)
Theorem quiet_until_power_button :
  forall st evs,
    Quiet st ->
    forallb (fun ev => negb (isPowerButton ev)) evs = true ->
    let st' := run evs st in
    Quiet st' /\
    connectCalls st' = connectCalls st /\
    sessions st' = sessions st /\
    sent st' = sent st /\
    started st' = started st /\
    closedSessions st' = closedSessions st.
Proof.
  intros st evs Hq Hp st'. destruct (Quiet_run evs st Hq Hp) as (Q & E).
  fold st' in Q, E. unfold holdings in E.
  injection E as _ _ _ _ _ _ E1 E2 E3 E4 E5.
  repeat split; try assumption; apply Q.
Qed.

(** X3. Pressing the power button while connected or connecting, in any
    reachable state, closes the session that was held and puts the
    component at rest: state [DISCONNECTED], flag set, no session handle,
    microphone released, audio contexts closed, video off, and no
    reconnect timer left pending. *)
Theorem power_button_disconnects :
  forall st env,
    reachable st ->
    connectionState st = CONNECTED \/ connectionState st = CONNECTING ->
    let st' := step (EvToggleConnection env) st in
    Quiet st' /\
    connectionState st' = DISCONNECTED /\
    isVideoEnabled st' = false /\
    isSpeaking st' = false /\
    closedSessions st'
    = closedSessions st
      ++ match sessionPromiseRef st with Some sid => [sid] | None => [] end /\
    sent st' = sent st /\
    logs st' = logs st.
Proof.
  intros st env Hreach Hc st'.
  assert (Eh : handle (EvToggleConnection env) st = disconnect st).
  { unfold handle, toggleConnection. destruct Hc as [-> | ->]; reflexivity. }
  assert (Hq : Quiet (disconnect st))
    by (apply Quiet_disconnect, TimersOk_reachable; exact Hreach).
  destruct (disconnect_effect st)
    as (_ & _ & _ & _ & _ & _ & Ecl & Ecs & Esp & Ev).
  subst st'. unfold step. rewrite Eh.
  split; [apply Quiet_commit; exact Hq|].
  rewrite !(commit_frame _ (disconnect st)) by by_fields.
  repeat split; try assumption; apply disconnect_frame; by_fields.
Qed.

Lemma quiet_until_power_button_witness :
  let st := step (EvToggleConnection (envAt 2000 0)) (connectedAt 1000) in
  let evs := [EvClose 0 (envAt 3000 0);
              EvMessage 0 (envAt 3100 0) (audioFragment {| duration := 1 |});
              EvAudioProcess 0 [1; 2; 3];
              EvTimer 1 (envAt 40000 0)] in
  Quiet st /\
  sent (run evs st) = sent st /\
  connectCalls (run evs st) = connectCalls st.
Proof.
  intros st evs.
  assert (Hq : Quiet st) by (vm_compute; repeat split).
  destruct (quiet_until_power_button st evs Hq eq_refl)
    as (_ & E1 & _ & E2 & _).
  split; [exact Hq|]. split; [exact E2|exact E1].
Defined.

Lemma power_button_disconnects_witness :
  Quiet (step (EvToggleConnection (envAt 2000 0)) (connectedAt 1000)) /\
  closedSessions (step (EvToggleConnection (envAt 2000 0)) (connectedAt 1000))
  = [0%nat].
Proof.
  destruct (power_button_disconnects (connectedAt 1000) (envAt 2000 0))
    as (Hq & _ & _ & _ & Ec & _).
  - unfold connectedAt, run. cbn [fold_left].
    apply reachable_step, reachable_step, reachable_mounted.
  - left. reflexivity.
  - split; [exact Hq|exact Ec].
Defined.

(** ** The reconnect loop *)

Lemma connectToGemini_flag cl r env st :
  isManuallyDisconnectedRef (connectToGemini cl r env st)
  = if r then isManuallyDisconnectedRef st else false.
Proof.
  unfold connectToGemini, initializeAudioContexts. cbv zeta.
  set (st1 := if r then _ else _).
  assert (E1 : isManuallyDisconnectedRef st1
               = if r then isManuallyDisconnectedRef st else false)
    by (subst st1; destruct r; reflexivity).
  destruct (negb (e_apiKey env)); [|destruct (negb (e_mic env))];
    rewrite ?connectFailed_frame by by_fields; record.simp;
    rewrite clearTimerRef_frame by by_fields; exact E1.
Qed.

Lemma runCommand_flag cl env c st :
  isManuallyDisconnectedRef (runCommand cl env c st)
  = match c with
    | CmdDisconnect => true
    | _ => isManuallyDisconnectedRef st
    end.
Proof.
  destruct c; unfold runCommand.
  - reflexivity.
  - destruct (negb _); [apply startVideo_frame; by_fields|reflexivity].
  - destruct (cl_isVideoEnabled cl); [apply stopVideo_frame; by_fields|reflexivity].
  - apply disconnect_effect.
Qed.

(** What [onmessage] does after the transcription step. *)
Lemma onmessage_tail_frame {A} (p : State -> A) env m st2 :
  untouched_by_playback p -> untouched p logs ->
  untouched p currentInputTranscription ->
  let st3 := if turnComplete m then handleTurnComplete env st2 else st2 in
  let st4 :=
    match inlineAudio m with
    | Some buf => handleAudio env buf st3
    | None => st3
    end in
  p (if interrupted m then handleInterrupted st4 else st4) = p st2.
Proof.
  intros Hp ? ? st3 st4. pose proof Hp as (? & _ & _ & _ & _ & _ & ?).
  assert (E3 : p st3 = p st2).
  { subst st3. destruct (turnComplete m); [|reflexivity].
    apply handleTurnComplete_frame; assumption. }
  assert (E4 : p st4 = p st2).
  { subst st4. destruct (inlineAudio m); [|exact E3].
    rewrite handleAudio_frame by assumption. exact E3. }
  destruct (interrupted m); [|exact E4].
  rewrite handleInterrupted_frame by assumption. exact E4.
Qed.

(** In every reachable state in which the manual-disconnect flag is set,
    no reconnect timer is pending. *)
Lemma flag_excludes_reconnect_onmessage cl env m st :
  TimersOk st ->
  (isManuallyDisconnectedRef st = true -> reconnectTimers st = []) ->
  isManuallyDisconnectedRef (onmessage cl env m st) = true ->
  reconnectTimers (onmessage cl env m st) = [].
Proof.
  intros Hok J. unfold onmessage. cbv zeta.
  set (st1 := match toolCall m with Some calls => _ | None => st end).
  assert (Hok1 : TimersOk st1).
  { subst st1. destruct (toolCall m);
      [apply TimersOk_handleToolCall|]; exact Hok. }
  assert (Hn1 : noNewReconnect st st1).
  { subst st1. destruct (toolCall m);
      [apply noNewReconnect_handleToolCall|apply noNewReconnect_refl]. }
  assert (Ef1 : isManuallyDisconnectedRef st1 = isManuallyDisconnectedRef st).
  { subst st1. destruct (toolCall m); [|reflexivity].
    apply handleToolCall_frame; by_fields. }
  assert (J1 : isManuallyDisconnectedRef st1 = true -> reconnectTimers st1 = []).
  { intros H. apply (noNewReconnect_none _ _ Hn1). apply J. congruence. }
  clearbody st1. clear Hok J Hn1 Ef1 st.
  set (st2 := handleTranscription cl env m st1).
  assert (J2 : isManuallyDisconnectedRef st2 = true -> reconnectTimers st2 = []).
  { subst st2. unfold handleTranscription.
    destruct (outputTranscription m); [exact J1|].
    destruct (inputTranscription m) as [t|]; [|exact J1].
    cbv zeta.
    set (st1' := st1 {{ currentInputTranscription ::= _ }}).
    assert (Hok' : TimersOk st1') by exact Hok1.
    assert (J' : isManuallyDisconnectedRef st1' = true -> reconnectTimers st1' = [])
      by exact J1.
    clearbody st1'. unfold checkLocalCommands. cbv zeta.
    destruct (_ <? _); [exact J'|].
    destruct (matchCommand _) as [c|]; [|exact J'].
    rewrite appendLog_frame by by_fields.
    change (isManuallyDisconnectedRef (runCommand cl env c st1') = true ->
            reconnectTimers (runCommand cl env c st1') = []).
    rewrite runCommand_flag. destruct c.
    - intros H. apply (noNewReconnect_none st1');
        [apply noNewReconnect_runCommand|exact (J' H)].
    - intros H. apply (noNewReconnect_none st1');
        [apply noNewReconnect_runCommand|exact (J' H)].
    - intros H. apply (noNewReconnect_none st1');
        [apply noNewReconnect_runCommand|exact (J' H)].
    - intros _. apply Quiet_disconnect. exact Hok'. }
  clearbody st2.
  rewrite (onmessage_tail_frame isManuallyDisconnectedRef) by by_fields.
  rewrite (onmessage_tail_frame reconnectTimers) by by_fields.
  exact J2.
Qed.

Lemma flag_excludes_reconnect_handle ev st :
  TimersOk st ->
  (isManuallyDisconnectedRef st = true -> reconnectTimers st = []) ->
  isManuallyDisconnectedRef (handle ev st) = true ->
  reconnectTimers (handle ev st) = [].
Proof.
  intros Hok J.
  assert (Same : forall ev',
             ev = ev' ->
             untouched_by_event ev' isManuallyDisconnectedRef ->
             noNewReconnect st (handle ev st) ->
             isManuallyDisconnectedRef (handle ev st) = true ->
             reconnectTimers (handle ev st) = []).
  { intros ev' -> Hu Hn H. apply (noNewReconnect_none _ _ Hn). apply J.
    rewrite <- H. symmetry. apply handle_frame. exact Hu. }
  destruct ev.
  - (* power button *)
    unfold handle, toggleConnection. destruct (connectionState st).
    + rewrite connectToGemini_flag. discriminate.
    + intros _. apply Quiet_disconnect. exact Hok.
    + intros _. apply Quiet_disconnect. exact Hok.
    + rewrite connectToGemini_flag. discriminate.
  - apply (Same _ eq_refl); [by_fields|].
    apply noNewReconnect_same. apply (handle_frame _ EvToggleMute). by_fields.
  - apply (Same _ eq_refl); [by_fields|]. unfold handle.
    destruct (connectionState st); try apply noNewReconnect_refl.
    unfold toggleVideo. destruct (isVideoEnabled st);
      [apply noNewReconnect_stopVideo|apply noNewReconnect_startVideo].
  - apply (Same _ eq_refl); [by_fields|].
    apply noNewReconnect_same. reflexivity.
  - apply (Same _ eq_refl); [by_fields|].
    apply noNewReconnect_same. apply (handle_frame _ (EvEditTitle s)). by_fields.
  - apply (Same _ eq_refl); [by_fields|].
    apply noNewReconnect_same.
    apply (handle_frame _ (EvConfirmReport env)). by_fields.
  - apply (Same _ eq_refl); [by_fields|].
    apply noNewReconnect_same. apply (handle_frame _ EvCancelReport). by_fields.
  - apply (Same _ eq_refl); [by_fields|].
    apply noNewReconnect_same. apply (handle_frame _ (EvOpen sid)). by_fields.
  - unfold handle, withSession. destruct (nth_error _ _); [|exact J].
    apply flag_excludes_reconnect_onmessage; assumption.
  - unfold handle, withSession. destruct (nth_error _ _) as [s0|]; [|exact J].
    unfold onclose. cbv zeta.
    destruct (isManuallyDisconnectedRef st) eqn:Ef; cbn [negb].
    + intros _. exact (J eq_refl).
    + intros H. exfalso.
      change (isManuallyDisconnectedRef
                (scheduleReconnect (s_closure s0) env st) = true) in H.
      rewrite scheduleReconnect_frame in H by by_fields. congruence.
  - unfold handle, withSession. destruct (nth_error _ _); [|exact J].
    unfold onerror. cbv zeta.
    set (st1 := st {{ errorMsg := _; connectionState := ERROR }}).
    change (isManuallyDisconnectedRef st1) with (isManuallyDisconnectedRef st).
    destruct (isManuallyDisconnectedRef st) eqn:Ef; cbn [negb].
    + intros _. exact (J eq_refl).
    + intros H. exfalso.
      rewrite scheduleReconnect_frame in H by by_fields.
      change (isManuallyDisconnectedRef st = true) in H. congruence.
  - apply (Same _ eq_refl); [by_fields|].
    apply noNewReconnect_same.
    apply (handle_frame _ (EvAudioProcess k inputData)). by_fields.
  - apply (Same _ eq_refl); [by_fields|]. unfold handle, onended. cbv zeta.
    destruct (sourcesRef _).
    + eapply noNewReconnect_trans;
        [|apply noNewReconnect_setTimer; discriminate].
      skip_noNew. apply noNewReconnect_refl.
    + skip_noNew. apply noNewReconnect_refl.
  - unfold handle, fireTimer. destruct (find _ _) as [t|] eqn:F; [|exact J].
    apply find_In in F. destruct F as (Hin & _).
    destruct (t_callback t) eqn:Ecb.
    + rewrite connectToGemini_flag.
      change (isManuallyDisconnectedRef (clearTimer i st))
        with (isManuallyDisconnectedRef st).
      intros H. exfalso.
      assert (Hrc : In t (reconnectTimers st)).
      { apply filter_In. split; [exact Hin|].
        unfold is_reconnect. rewrite Ecb. reflexivity. }
      rewrite (J H) in Hrc. destruct Hrc.
    + intros H. apply (noNewReconnect_none st); [|exact (J H)].
      skip_noNew. apply noNewReconnect_clearTimer.
    + intros H. apply (noNewReconnect_none st); [|apply J].
      * apply noNewReconnect_same. apply send_frame; by_fields.
      * rewrite <- H. symmetry. apply send_frame; by_fields.
Qed.

Lemma flag_excludes_reconnect st :
  reachable st ->
  isManuallyDisconnectedRef st = true -> reconnectTimers st = [].
Proof.
  induction 1 as [saved|ev st Hreach IH]; [discriminate|].
  intros H.
  change (reconnectTimers (handle ev st) = []).
  apply flag_excludes_reconnect_handle;
    [apply TimersOk_reachable; exact Hreach|exact IH|exact H].
Qed.

Lemma find_by_id st t :
  TimersOk st -> In t (timers st) ->
  find (fun x => (t_id x =? t_id t)%nat) (timers st) = Some t.
Proof.
  intros (_ & Hnd & _). induction (timers st) as [|x l IH]; [intros []|].
  cbn [map] in Hnd. inversion Hnd as [|? ? Hn Hd]; subst.
  intros [->|Hin]; cbn [find].
  - rewrite Nat.eqb_refl. reflexivity.
  - destruct (Nat.eqb_spec (t_id x) (t_id t)) as [E|_]; [|apply IH; assumption].
    exfalso. apply Hn. rewrite E. apply in_map. exact Hin.
Qed.

Lemma onclose_effect cl env st :
  TimersOk st -> isManuallyDisconnectedRef st = false ->
  let st' := onclose cl env st in
  reconnectTimers st'
  = [{| t_id := nextTimerId st; t_delay := RECONNECT_DELAY;
        t_callback := CbReconnect cl |}] /\
  logs st'
  = logs st ++ [logEntry env "sys" jarvis
                  ("⚠️ CONNECTION LOST. ATTEMPTING RECONNECT IN "
                     ++ Js.Number_toString (RECONNECT_DELAY / 1000)
                     ++ " SECONDS...")].
Proof.
  intros Hok Hf st'. subst st'. unfold onclose. cbv zeta.
  rewrite Hf. cbn [negb].
  destruct (TimersOk_scheduleReconnect cl env st Hok) as (_ & Er).
  split; [exact Er|]. exact (scheduleReconnect_logs cl env st).
Qed.

(** X4. A close event of a session, in any reachable state, puts the
    connection state to [DISCONNECTED] and tears nothing down: the session
    handle, the microphone stream and the audio processors are kept.  If
    the user did not ask for the disconnect, exactly one reconnect timer
    is left pending, armed for 30000 ms, and the transcript gains the
    entry announcing a reconnect in 30 seconds; if the user did, no timer
    is armed and nothing is logged. *)
Theorem close_schedules_reconnect :
  forall st sid s env,
    reachable st ->
    nth_error (sessions st) sid = Some s ->
    let st' := step (EvClose sid env) st in
    connectionState st' = DISCONNECTED /\
    sessionPromiseRef st' = sessionPromiseRef st /\
    mediaStreamRef st' = mediaStreamRef st /\
    processors st' = processors st /\
    (isManuallyDisconnectedRef st = false ->
     reconnectTimers st'
     = [{| t_id := nextTimerId st; t_delay := 30000;
           t_callback := CbReconnect (s_closure s) |}] /\
     logs st'
     = logs st ++ [logEntry env "sys" jarvis
                     "⚠️ CONNECTION LOST. ATTEMPTING RECONNECT IN 30 SECONDS..."]) /\
    (isManuallyDisconnectedRef st = true ->
     timers st' = timers st /\ logs st' = logs st).
Proof.
  intros st sid s env Hreach Hs st'.
  pose proof (TimersOk_reachable st Hreach) as Hok.
  assert (Eh : handle (EvClose sid env) st = onclose (s_closure s) env st).
  { unfold handle, withSession. rewrite Hs. reflexivity. }
  subst st'. unfold step. rewrite Eh.
  rewrite !(commit_frame _ (onclose (s_closure s) env st)) by by_fields.
  split; [reflexivity|].
  assert (F : forall {A} (p : State -> A),
             untouched_by_reconnect p -> untouched p connectionState ->
             p (onclose (s_closure s) env st) = p st).
  { intros A p ? ?. rewrite <- Eh. apply handle_frame. split; assumption. }
  split; [apply F; by_fields|]. split; [apply F; by_fields|].
  split; [apply F; by_fields|]. split.
  - intros Hf. exact (onclose_effect (s_closure s) env st Hok Hf).
  - intros Hf. unfold onclose. cbv zeta. rewrite Hf. split; reflexivity.
Qed.

Lemma close_schedules_reconnect_witness :
  let st' := step (EvClose 0 (envAt 5000 0)) (connectedAt 1000) in
  connectionState st' = DISCONNECTED /\
  List.length (reconnectTimers st') = 1%nat /\
  sessionPromiseRef st' = Some 0%nat.
Proof.
  intros st'.
  destruct (close_schedules_reconnect (connectedAt 1000) 0
              {| s_closure := render (mounted None); s_isReconnect := false |}
              (envAt 5000 0))
    as (E1 & E2 & _ & _ & E5 & _).
  - unfold connectedAt, run. cbn [fold_left].
    apply reachable_step, reachable_step, reachable_mounted.
  - reflexivity.
  - destruct (E5 eq_refl) as (Er & _).
    split; [exact E1|]. split; [subst st'; rewrite Er; reflexivity|exact E2].
Defined.

Lemma connectToGemini_failure cl env message st :
  TimersOk st ->
  isManuallyDisconnectedRef st = false ->
  let st4 :=
    (clearTimerRef (reconnectTimeoutRef st) st)
      {{ errorMsg := None; connectionState := CONNECTING }}
      {{ inputAudioContextRef := true; outputAudioContextRef := true }} in
  let st' := connectFailed cl env message st4 in
  connectionState st' = ERROR /\
  errorMsg st' = Some message /\
  reconnectTimers st'
  = [{| t_id := nextTimerId st; t_delay := RECONNECT_DELAY;
        t_callback := CbReconnect cl |}].
Proof.
  intros Hok Hf st4 st'.
  assert (Hok4 : TimersOk st4).
  { subst st4. skip_updates. apply TimersOk_clearTimerRef. exact Hok. }
  assert (Hf4 : isManuallyDisconnectedRef st4 = false).
  { subst st4. record.simp. rewrite clearTimerRef_frame by by_fields. exact Hf. }
  assert (En4 : nextTimerId st4 = nextTimerId st).
  { subst st4. record.simp. apply clearTimerRef_frame; by_fields. }
  clearbody st4. subst st'. unfold connectFailed. cbv zeta.
  set (st5 := st4 {{ errorMsg := Some message; connectionState := ERROR }}).
  assert (Hf5 : isManuallyDisconnectedRef st5 = false) by exact Hf4.
  assert (Hok5 : TimersOk st5) by exact Hok4.
  rewrite Hf5. cbn [negb].
  destruct (TimersOk_scheduleReconnect cl env st5 Hok5) as (_ & Er).
  split; [rewrite scheduleReconnect_frame by by_fields; reflexivity|].
  split; [rewrite scheduleReconnect_frame by by_fields; reflexivity|].
  rewrite Er. change (nextTimerId st5) with (nextTimerId st4).
  rewrite En4. reflexivity.
Qed.

Lemma connect_attempt_outcome cl (r : bool) env st1 :
  TimersOk st1 ->
  isManuallyDisconnectedRef st1 = false ->
  let st4 :=
    (clearTimerRef (reconnectTimeoutRef st1) st1)
      {{ errorMsg := None; connectionState := CONNECTING }}
      {{ inputAudioContextRef := true; outputAudioContextRef := true }} in
  let st' :=
    if negb (e_apiKey env) then
      connectFailed cl env "API Key not found in environment variables" st4
    else if negb (e_mic env) then
      connectFailed cl env
        "Microphone access denied. Please check permissions." st4
    else
      st4 {{ mediaStreamRef := true;
             sessions ::= fun l =>
               l ++ [{| s_closure := cl; s_isReconnect := r |}];
             sessionPromiseRef := Some (List.length (sessions st4)) }} in
  (e_apiKey env = false \/ e_mic env = false ->
   connectionState st' = ERROR /\
   errorMsg st'
   = Some (if e_apiKey env
           then "Microphone access denied. Please check permissions."
           else "API Key not found in environment variables") /\
   reconnectTimers st'
   = [{| t_id := nextTimerId st1; t_delay := RECONNECT_DELAY;
         t_callback := CbReconnect cl |}] /\
   sessions st' = sessions st1 /\
   sessionPromiseRef st' = sessionPromiseRef st1 /\
   mediaStreamRef st' = mediaStreamRef st1 /\
   sent st' = sent st1) /\
  (e_apiKey env = true -> e_mic env = true ->
   connectionState st' = CONNECTING /\
   errorMsg st' = None /\
   reconnectTimers st' = [] /\
   sessions st' = sessions st1 ++ [{| s_closure := cl; s_isReconnect := r |}] /\
   sessionPromiseRef st' = Some (List.length (sessions st1)) /\
   mediaStreamRef st' = true /\
   sent st' = sent st1) /\
  inputAudioContextRef st' = true /\
  outputAudioContextRef st' = true.
Proof.
  intros Hok1 Hf1 st4.
  assert (Fail : forall message,
             let st' := connectFailed cl env message st4 in
             connectionState st' = ERROR /\
             errorMsg st' = Some message /\
             reconnectTimers st'
             = [{| t_id := nextTimerId st1; t_delay := RECONNECT_DELAY;
                   t_callback := CbReconnect cl |}] /\
             sessions st' = sessions st1 /\
             sessionPromiseRef st' = sessionPromiseRef st1 /\
             mediaStreamRef st' = mediaStreamRef st1 /\
             sent st' = sent st1 /\
             inputAudioContextRef st' = true /\
             outputAudioContextRef st' = true).
  { intros message st'.
    destruct (connectToGemini_failure cl env message st1 Hok1 Hf1)
      as (E1 & E2 & E3).
    fold st4 st' in E1, E2, E3.
    split; [exact E1|]. split; [exact E2|]. split; [exact E3|].
    subst st'.
    rewrite !(connectFailed_frame _ cl env message) by by_fields.
    subst st4. record.simp.
    rewrite ?(clearTimerRef_frame sent), ?(clearTimerRef_frame sessions),
      ?(clearTimerRef_frame sessionPromiseRef),
      ?(clearTimerRef_frame mediaStreamRef) by by_fields.
    repeat split; reflexivity. }
  destruct (e_apiKey env); cbn [negb].
  - destruct (e_mic env); cbn [negb].
    + cbv zeta. split; [intros [H|H]; discriminate H|].
      subst st4. record.simp.
      rewrite ?(clearTimerRef_frame sent), ?(clearTimerRef_frame sessions),
        ?(clearTimerRef_frame sessionPromiseRef),
        ?(clearTimerRef_frame mediaStreamRef) by by_fields.
      split; [|split; reflexivity].
      intros _ _. split; [reflexivity|]. split; [reflexivity|].
      split; [apply reconnectTimers_cleared; exact Hok1|].
      repeat split; reflexivity.
    + cbv zeta.
      destruct (Fail "Microphone access denied. Please check permissions.")
        as (? & ? & ? & ? & ? & ? & ? & ? & ?).
      split; [intros _; repeat split; assumption|].
      split; [intros _ Hm; discriminate Hm|]. split; assumption.
  - cbv zeta.
    destruct (Fail "API Key not found in environment variables")
      as (? & ? & ? & ? & ? & ? & ? & ? & ?).
    split; [intros _; repeat split; assumption|].
    split; [intros Hk; discriminate Hk|]. split; assumption.
Qed.

Lemma connectToGemini_outcome cl (r : bool) env st :
  TimersOk st ->
  (if r then isManuallyDisconnectedRef st else false) = false ->
  let st' := connectToGemini cl r env st in
  (e_apiKey env = false \/ e_mic env = false ->
   connectionState st' = ERROR /\
   errorMsg st'
   = Some (if e_apiKey env
           then "Microphone access denied. Please check permissions."
           else "API Key not found in environment variables") /\
   reconnectTimers st'
   = [{| t_id := nextTimerId st; t_delay := RECONNECT_DELAY;
         t_callback := CbReconnect cl |}] /\
   sessions st' = sessions st /\
   sessionPromiseRef st' = sessionPromiseRef st /\
   mediaStreamRef st' = mediaStreamRef st /\
   sent st' = sent st) /\
  (e_apiKey env = true -> e_mic env = true ->
   connectionState st' = CONNECTING /\
   errorMsg st' = None /\
   reconnectTimers st' = [] /\
   sessions st' = sessions st ++ [{| s_closure := cl; s_isReconnect := r |}] /\
   sessionPromiseRef st' = Some (List.length (sessions st)) /\
   mediaStreamRef st' = true /\
   sent st' = sent st) /\
  inputAudioContextRef st' = true /\
  outputAudioContextRef st' = true.
Proof.
  intros Hok Hf.
  destruct r.
  - set (st0 := st {{ connectCalls ::= fun l => l ++ [true] }}).
    assert (Hok0 : TimersOk st0) by exact Hok.
    assert (Hf0 : isManuallyDisconnectedRef st0 = false) by exact Hf.
    exact (connect_attempt_outcome cl true env st0 Hok0 Hf0).
  - set (st0 := st {{ connectCalls ::= fun l => l ++ [false] }}
                   {{ isManuallyDisconnectedRef := false }}).
    assert (Hok0 : TimersOk st0) by exact Hok.
    exact (connect_attempt_outcome cl false env st0 Hok0 eq_refl).
Qed.

Lemma fireTimer_reconnect st t cl env :
  reachable st ->
  In t (timers st) ->
  t_callback t = CbReconnect cl ->
  isManuallyDisconnectedRef st = false /\
  handle (EvTimer (t_id t) env) st
  = connectToGemini cl true env (clearTimer (t_id t) st).
Proof.
  intros Hreach Hin Hcb.
  pose proof (TimersOk_reachable st Hreach) as Hok.
  assert (Hrc : In t (reconnectTimers st)).
  { apply filter_In. split; [exact Hin|].
    unfold is_reconnect. rewrite Hcb. reflexivity. }
  split.
  - destruct (isManuallyDisconnectedRef st) eqn:E; [|reflexivity].
    rewrite (flag_excludes_reconnect st Hreach E) in Hrc. destruct Hrc.
  - unfold handle, fireTimer. rewrite (find_by_id st t Hok Hin), Hcb.
    reflexivity.
Qed.

(** X5. The reconnect loop.  In any reachable state with a reconnect
    timer pending, the manual-disconnect flag is not set, and the firing
    of the timer runs [connectToGemini(true)] once.  If the attempt fails
    (no API key, or the microphone is refused) the state is [ERROR] and
    exactly one new reconnect timer is pending, with the same closure and
    30000 ms to run, so the attempts go on until one succeeds; if the
    attempt succeeds the state is [CONNECTING], a session marked as a
    reconnect is created and becomes the one held, and no reconnect timer
    is pending. *)
Theorem reconnect_timer_retries :
  forall st t cl env,
    reachable st ->
    In t (timers st) ->
    t_callback t = CbReconnect cl ->
    let st' := step (EvTimer (t_id t) env) st in
    isManuallyDisconnectedRef st = false /\
    connectCalls st' = connectCalls st ++ [true] /\
    (e_apiKey env = false \/ e_mic env = false ->
     connectionState st' = ERROR /\
     reconnectTimers st'
     = [{| t_id := nextTimerId st; t_delay := 30000;
           t_callback := CbReconnect cl |}] /\
     sessions st' = sessions st /\
     sessionPromiseRef st' = sessionPromiseRef st) /\
    (e_apiKey env = true -> e_mic env = true ->
     connectionState st' = CONNECTING /\
     reconnectTimers st' = [] /\
     sessions st' = sessions st ++ [{| s_closure := cl; s_isReconnect := true |}] /\
     sessionPromiseRef st' = Some (List.length (sessions st))).
Proof.
  intros st t cl env Hreach Hin Hcb st'.
  pose proof (TimersOk_reachable st Hreach) as Hok.
  destruct (fireTimer_reconnect st t cl env Hreach Hin Hcb) as (Hf & Eh).
  pose proof (connectToGemini_outcome cl true env (clearTimer (t_id t) st)
                (TimersOk_clearTimer _ _ Hok) Hf) as (Hfail & Hsucc & _).
  rewrite <- Eh in Hfail, Hsucc.
  subst st'. unfold step.
  rewrite !(commit_frame _ (handle (EvTimer (t_id t) env) st)) by by_fields.
  split; [exact Hf|]. split.
  { rewrite Eh, connectToGemini_connectCalls. reflexivity. }
  split.
  - intros He. destruct (Hfail He) as (E1 & _ & E3 & E4 & E5 & _).
    repeat split; assumption.
  - intros Hk Hm. destruct (Hsucc Hk Hm) as (E1 & _ & E3 & E4 & E5 & _).
    repeat split; assumption.
Qed.

Lemma reconnect_timer_retries_witness :
  let st := step (EvError 0 (envAt 5000 0) "socket failure") (connectedAt 1000) in
  let st' := step (EvTimer 1 (envNoKey 35000)) st in
  connectionState st' = ERROR /\ List.length (reconnectTimers st') = 1%nat.
Proof.
  intros st st'.
  destruct (reconnect_timer_retries st
              {| t_id := 1; t_delay := 30000;
                 t_callback := CbReconnect (render (mounted None)) |}
              (render (mounted None)) (envNoKey 35000))
    as (_ & _ & Hfail & _).
  - unfold st, connectedAt, run. cbn [fold_left].
    apply reachable_step, reachable_step, reachable_step, reachable_mounted.
  - vm_compute. left. reflexivity.
  - reflexivity.
  - destruct (Hfail (or_introl eq_refl)) as (E1 & E2 & _).
    split; [exact E1|]. subst st'. cbn [t_id] in E2. rewrite E2. reflexivity.
Defined.

(** X6. A refused microphone.  When the API key is present and the
    microphone is refused, a connect started by the user ends in state
    [ERROR] with the microphone message; both audio contexts have been
    created by then, but no session is created, the session handle and
    the microphone stream are as before, nothing is sent, and one
    reconnect timer of 30000 ms is armed: the attempt is retried. *)
Theorem microphone_refused :
  forall cl env st,
    reachable st ->
    e_apiKey env = true -> e_mic env = false ->
    let st' := connectToGemini cl false env st in
    connectionState st' = ERROR /\
    errorMsg st' = Some "Microphone access denied. Please check permissions." /\
    inputAudioContextRef st' = true /\
    outputAudioContextRef st' = true /\
    sessions st' = sessions st /\
    sessionPromiseRef st' = sessionPromiseRef st /\
    mediaStreamRef st' = mediaStreamRef st /\
    sent st' = sent st /\
    isManuallyDisconnectedRef st' = false /\
    reconnectTimers st'
    = [{| t_id := nextTimerId st; t_delay := 30000;
          t_callback := CbReconnect cl |}].
Proof.
  intros cl env st Hreach Hk Hm st'.
  pose proof (TimersOk_reachable st Hreach) as Hok.
  destruct (connectToGemini_outcome cl false env st Hok eq_refl)
    as (Hfail & _ & Hi & Ho).
  destruct (Hfail (or_intror Hm)) as (E1 & E2 & E3 & E4 & E5 & E6 & E7).
  rewrite Hk in E2. fold st' in E1, E2, E3, E4, E5, E6, E7, Hi, Ho.
  repeat split; try assumption.
  subst st'. rewrite connectToGemini_flag. reflexivity.
Qed.

Lemma microphone_refused_witness :
  let env := {| e_now := 1000; e_clock := 0; e_apiKey := true;
                e_mic := false; e_cam := true |} in
  let st' := connectToGemini (render (mounted None)) false env (mounted None) in
  connectionState st' = ERROR /\ sessions st' = [] /\
  List.length (reconnectTimers st') = 1%nat.
Proof.
  intros env st'.
  destruct (microphone_refused (render (mounted None)) env (mounted None)
              (reachable_mounted None) eq_refl eq_refl)
    as (E1 & _ & _ & _ & E5 & _ & _ & _ & _ & E10).
  split; [exact E1|]. split; [exact E5|].
  subst st'. rewrite E10. reflexivity.
Defined.

(** ** The error panel *)

Lemma connectToGemini_state cl r env st :
  let st' := connectToGemini cl r env st in
  (e_apiKey env = false ->
   connectionState st' = ERROR /\
   errorMsg st' = Some "API Key not found in environment variables") /\
  (e_apiKey env = true -> e_mic env = false ->
   connectionState st' = ERROR /\
   errorMsg st' = Some "Microphone access denied. Please check permissions.") /\
  (e_apiKey env = true -> e_mic env = true ->
   connectionState st' = CONNECTING /\ errorMsg st' = None).
Proof.
  intros st'. subst st'.
  unfold connectToGemini, initializeAudioContexts. cbv zeta.
  set (st1 := if r then _ else _). clearbody st1.
  assert (Fail : forall message st4,
             connectionState (connectFailed cl env message st4) = ERROR /\
             errorMsg (connectFailed cl env message st4) = Some message).
  { intros message st4. unfold connectFailed. cbv zeta.
    case_cond; rewrite ?scheduleReconnect_frame by by_fields;
      split; reflexivity. }
  destruct (e_apiKey env); cbn [negb].
  - destruct (e_mic env); cbn [negb].
    + split; [discriminate|]. split; [discriminate|].
      intros _ _. split; reflexivity.
    + split; [discriminate|]. split; [intros _ _; apply Fail|discriminate].
  - split; [intros _; apply Fail|]. split; discriminate.
Qed.

(** X7. What the error panel shows after a failed connect: a missing API
    key is presented as an authentication error, a refused microphone as
    a hardware access error; after a connect that goes through, the
    panel is not shown. *)
Theorem connect_failure_is_explained :
  forall cl r env st,
    let st' := connectToGemini cl r env st in
    (e_apiKey env = false ->
     errorPanel st'
     = Some {| title := "Authentication Error";
               hint := "Check your API Key configuration." |}) /\
    (e_apiKey env = true -> e_mic env = false ->
     errorPanel st'
     = Some {| title := "Hardware Access Denied";
               hint := "Please allow microphone/camera permissions." |}) /\
    (e_apiKey env = true -> e_mic env = true -> errorPanel st' = None).
Proof.
  intros cl r env st st'.
  destruct (connectToGemini_state cl r env st) as (H1 & H2 & H3).
  fold st' in H1, H2, H3. unfold errorPanel.
  split; [|split].
  - intros Hk. destruct (H1 Hk) as (-> & ->). reflexivity.
  - intros Hk Hm. destruct (H2 Hk Hm) as (-> & ->). reflexivity.
  - intros Hk Hm. destruct (H3 Hk Hm) as (-> & _). reflexivity.
Qed.

Lemma connect_failure_is_explained_witness :
  errorPanel (connectToGemini (render (mounted None)) false (envNoKey 1000)
                (mounted None))
  = Some {| title := "Authentication Error";
            hint := "Check your API Key configuration." |}.
Proof.
  destruct (connect_failure_is_explained (render (mounted None)) false
              (envNoKey 1000) (mounted None)) as (H & _).
  exact (H eq_refl).
Defined.

Lemma getErrorDetails_specific m :
  Js.truthy m = true ->
  let d := getErrorDetails (Some m) in
  title d <> "System Failure" /\
  Js.truthy (hint d) = true /\
  (title d = "System Malfunction" -> hint d = m).
Proof.
  intros Hm d. subst d. unfold getErrorDetails. rewrite Hm. cbn [negb].
  repeat case_cond; cbn [title hint];
    (split; [discriminate|split; [try reflexivity; exact Hm|]]);
    try discriminate; reflexivity.
Qed.

Lemma onmessage_connectionState cl env m st :
  connectionState (onmessage cl env m st) = connectionState st \/
  connectionState (onmessage cl env m st) = DISCONNECTED.
Proof.
  unfold onmessage. cbv zeta.
  rewrite (onmessage_tail_frame connectionState) by by_fields.
  set (st1 := match toolCall m with Some calls => _ | None => st end).
  assert (E1 : connectionState st1 = connectionState st).
  { subst st1. destruct (toolCall m); [|reflexivity].
    apply handleToolCall_frame; by_fields. }
  rewrite <- E1. clearbody st1. unfold handleTranscription.
  destruct (outputTranscription m); [left; reflexivity|].
  destruct (inputTranscription m); [|left; reflexivity].
  cbv zeta. unfold checkLocalCommands. cbv zeta.
  destruct (_ <? _); [left; reflexivity|].
  destruct (matchCommand _) as [c|]; [|left; reflexivity].
  rewrite appendLog_frame by by_fields.
  set (st1' := st1 {{ currentInputTranscription ::= _ }}).
  change (connectionState (runCommand cl env c st1') = connectionState st1' \/
          connectionState (runCommand cl env c st1') = DISCONNECTED).
  clearbody st1'. destruct c; unfold runCommand.
  - left. reflexivity.
  - left. destruct (negb _); [apply startVideo_frame; by_fields|reflexivity].
  - left. destruct (cl_isVideoEnabled cl);
      [apply stopVideo_frame; by_fields|reflexivity].
  - right. apply disconnect_effect.
Qed.

Lemma error_has_message_handle ev st :
  (connectionState st = ERROR ->
   exists m, errorMsg st = Some m /\ Js.truthy m = true) ->
  connectionState (handle ev st) = ERROR ->
  exists m, errorMsg (handle ev st) = Some m /\ Js.truthy m = true.
Proof.
  intros K.
  assert (Same : forall ev',
             ev = ev' ->
             untouched_by_event ev'
               (fun s => (connectionState s, errorMsg s)) ->
             connectionState (handle ev st) = ERROR ->
             exists m, errorMsg (handle ev st) = Some m /\ Js.truthy m = true).
  { intros ev' -> Hu.
    pose proof (handle_frame (fun s => (connectionState s, errorMsg s))
                  ev' st Hu) as E.
    cbv beta in E. injection E as -> ->. exact K. }
  assert (Connect : forall cl r env s,
             connectionState (connectToGemini cl r env s) = ERROR ->
             exists m, errorMsg (connectToGemini cl r env s) = Some m /\
                       Js.truthy m = true).
  { intros cl r env s.
    destruct (connectToGemini_state cl r env s) as (H1 & H2 & H3).
    destruct (e_apiKey env) eqn:Ek; [destruct (e_mic env) eqn:Em|].
    - destruct (H3 eq_refl eq_refl) as (-> & _). discriminate.
    - destruct (H2 eq_refl eq_refl) as (_ & ->). intros _.
      eexists. split; reflexivity.
    - destruct (H1 eq_refl) as (_ & ->). intros _.
      eexists. split; reflexivity. }
  destruct ev; try (apply (Same _ eq_refl); by_fields).
  - unfold handle, toggleConnection. destruct (connectionState st).
    + apply Connect.
    + intros H. destruct (disconnect_effect st) as (_ & _ & _ & _ & _ & _ & _ & E & _).
      congruence.
    + intros H. destruct (disconnect_effect st) as (_ & _ & _ & _ & _ & _ & _ & E & _).
      congruence.
    + apply Connect.
  - unfold handle, withSession. destruct (nth_error _ _); [|exact K].
    unfold onopen. cbv zeta. case_cond; discriminate.
  - unfold handle, withSession. destruct (nth_error _ _) as [s0|]; [|exact K].
    rewrite (onmessage_frame errorMsg) by by_fields.
    destruct (onmessage_connectionState (s_closure s0) env m st) as [-> | ->];
      [exact K|discriminate].
  - unfold handle, withSession. destruct (nth_error _ _); [|exact K].
    unfold onclose. cbv zeta. discriminate.
  - unfold handle, withSession. destruct (nth_error _ _); [|exact K].
    intros _. unfold onerror. cbv zeta.
    exists (if Js.truthy message then message
            else "Connection lost. J.A.R.V.I.S. is currently unavailable.").
    split.
    + case_cond; [rewrite scheduleReconnect_frame by by_fields|]; reflexivity.
    + destruct (Js.truthy message) eqn:E; [exact E|reflexivity].
  - unfold handle, fireTimer. destruct (find _ _) as [t|]; [|exact K].
    destruct (t_callback t).
    + apply Connect.
    + exact K.
    + rewrite !(send_frame _ sendVideoFrame_jpeg st) by by_fields. exact K.
Qed.

Lemma error_has_message st :
  reachable st -> connectionState st = ERROR ->
  exists m, errorMsg st = Some m /\ Js.truthy m = true.
Proof.
  induction 1 as [saved|ev st _ IH]; [discriminate|].
  exact (error_has_message_handle ev st IH).
Qed.

(** X8. In every reachable state in which the error panel is shown, an
    error message is present and not empty, so the panel never shows the
    fall-back title [System Failure]; its hint is never empty, and under
    the title [System Malfunction] the hint is the error message itself. *)
Theorem error_panel_is_specific :
  forall st d,
    reachable st ->
    errorPanel st = Some d ->
    exists m,
      errorMsg st = Some m /\ m <> EmptyString /\
      d = getErrorDetails (Some m) /\
      title d <> "System Failure" /\
      hint d <> EmptyString /\
      (title d = "System Malfunction" -> hint d = m).
Proof.
  intros st d Hreach Hp. unfold errorPanel in Hp.
  destruct (connectionState st) eqn:Ec; try discriminate.
  injection Hp as <-.
  destruct (error_has_message st Hreach Ec) as (m & Em & Ht).
  destruct (getErrorDetails_specific m Ht) as (H1 & H2 & H3).
  exists m. rewrite Em.
  split; [reflexivity|]. split; [intros ->; discriminate|].
  split; [reflexivity|]. split; [exact H1|]. split; [|exact H3].
  intros E. rewrite E in H2. discriminate.
Qed.

Lemma error_panel_is_specific_witness :
  exists m,
    errorMsg (step (EvError 0 (envAt 5000 0) EmptyString) (connectedAt 1000))
    = Some m /\
    m = "Connection lost. J.A.R.V.I.S. is currently unavailable.".
Proof.
  destruct (error_panel_is_specific
              (step (EvError 0 (envAt 5000 0) EmptyString) (connectedAt 1000))
              {| title := "System Malfunction";
                 hint := "Connection lost. J.A.R.V.I.S. is currently unavailable." |})
    as (m & Em & _ & _ & _ & _ & Hh).
  - unfold connectedAt, run. cbn [fold_left].
    apply reachable_step, reachable_step, reachable_step, reachable_mounted.
  - reflexivity.
  - exists m. split; [exact Em|]. symmetry. exact (Hh eq_refl).
Defined.

(** ** The camera *)

Lemma filter_fresh_timer (l : list Timer) n t :
  (forall x, In x l -> (t_id x < n)%nat) -> t_id t = n ->
  filter (fun x => negb (t_id x =? n)%nat) (l ++ [t]) = l.
Proof.
  intros Hl Ht. rewrite filter_app. cbn [filter]. rewrite Ht, Nat.eqb_refl.
  cbn [negb]. rewrite app_nil_r.
  induction l as [|x l IH]; [reflexivity|]. cbn [filter].
  destruct (Nat.eqb_spec (t_id x) n) as [E|_]; cbn [negb].
  - specialize (Hl x (or_introl eq_refl)). lia.
  - f_equal. apply IH. intros y Hy. apply Hl. right. exact Hy.
Qed.

(** X9. Switching the camera on and off with the video button leaves no
    timer behind: in a reachable state with the session connected and the
    camera off, a press that starts the camera arms one capture interval
    of 1000 ms, and the next press clears exactly that interval, so that
    the pending timers are the ones there were before. *)
Theorem video_button_round_trip :
  forall st env env2,
    reachable st ->
    connectionState st = CONNECTED ->
    isVideoEnabled st = false ->
    e_cam env = true ->
    let st1 := step (EvToggleVideo env) st in
    let st2 := step (EvToggleVideo env2) st1 in
    isVideoEnabled st1 = true /\
    timers st1 = timers st ++ [{| t_id := nextTimerId st; t_delay := 1000;
                                  t_callback := CbVideoFrame |}] /\
    frameIntervalRef st1 = Some (nextTimerId st) /\
    isVideoEnabled st2 = false /\
    timers st2 = timers st /\
    frameIntervalRef st2 = None /\
    videoSrcObject st2 = false.
Proof.
  intros st env env2 Hreach Hc Hv Hcam st1 st2.
  pose proof (TimersOk_reachable st Hreach) as (Hlt & _).
  assert (E1 : handle (EvToggleVideo env) st = startVideo env st).
  { unfold handle, toggleVideo. rewrite Hc, Hv. reflexivity. }
  destruct (startVideo_granted env st Hcam) as (Et & En & Ef & Ev & Es & _).
  assert (Ec1 : connectionState (startVideo env st) = CONNECTED).
  { rewrite startVideo_frame by by_fields. exact Hc. }
  assert (E2 : handle (EvToggleVideo env2) st1 = stopVideo st1).
  { unfold handle, toggleVideo.
    assert (Ec : connectionState st1 = CONNECTED).
    { subst st1. unfold step. rewrite commit_frame by by_fields.
      rewrite E1. exact Ec1. }
    assert (Evv : isVideoEnabled st1 = true).
    { subst st1. unfold step. rewrite commit_frame by by_fields.
      rewrite E1. exact Ev. }
    rewrite Ec, Evv. reflexivity. }
  assert (Et1 : timers st1 = timers st ++ [{| t_id := nextTimerId st;
                                              t_delay := 1000;
                                              t_callback := CbVideoFrame |}]).
  { subst st1. unfold step. rewrite commit_frame by by_fields.
    rewrite E1. exact Et. }
  assert (Ef1 : frameIntervalRef st1 = Some (nextTimerId st)).
  { subst st1. unfold step. rewrite commit_frame by by_fields.
    rewrite E1. exact Ef. }
  assert (Ev1 : isVideoEnabled st1 = true).
  { subst st1. unfold step. rewrite commit_frame by by_fields.
    rewrite E1. exact Ev. }
  clearbody st1.
  destruct (stopVideo_effect st1) as (St & Sf & Sv & Ss & _).
  rewrite Ef1, Et1 in St.
  rewrite filter_fresh_timer in St by (try exact Hlt; reflexivity).
  subst st2. unfold step. rewrite !(commit_frame _ (handle _ st1)) by by_fields.
  rewrite E2. repeat split; assumption.
Qed.

Lemma video_button_round_trip_witness :
  timers (run [EvToggleVideo (envAt 2000 0); EvToggleVideo (envAt 3000 0)]
            (connectedAt 1000))
  = timers (connectedAt 1000).
Proof.
  destruct (video_button_round_trip (connectedAt 1000) (envAt 2000 0)
              (envAt 3000 0))
    as (_ & _ & _ & _ & E & _).
  - unfold connectedAt, run. cbn [fold_left].
    apply reachable_step, reachable_step, reachable_mounted.
  - reflexivity.
  - reflexivity.
  - reflexivity.
  - exact E.
Defined.

(** X10. Starting the camera while it is running leaks a capture
    interval.  [startVideo] does not clear the interval it finds; so
    after two starts in a row (two [set_camera] calls, or a voice command
    acting on a stale camera flag) two capture intervals are pending, a
    stop clears only the newer one, and no further stop clears the older
    one, which goes on firing every 1000 ms. *)
Theorem second_start_leaks_interval :
  forall st env1 env2,
    reachable st ->
    e_cam env1 = true -> e_cam env2 = true ->
    let first := {| t_id := nextTimerId st; t_delay := 1000;
                    t_callback := CbVideoFrame |} in
    let second := {| t_id := S (nextTimerId st); t_delay := 1000;
                     t_callback := CbVideoFrame |} in
    let st2 := startVideo env2 (startVideo env1 st) in
    let st3 := stopVideo st2 in
    timers st2 = timers st ++ [first; second] /\
    isVideoEnabled st3 = false /\
    frameIntervalRef st3 = None /\
    (forall t, In t (timers st3) <-> In t (timers st) \/ t = first) /\
    timers (stopVideo st3) = timers st3.
Proof.
  intros st env1 env2 Hreach H1 H2 first second st2 st3.
  pose proof (TimersOk_reachable st Hreach) as (Hlt & _).
  destruct (startVideo_granted env1 st H1) as (Et1 & En1 & _).
  destruct (startVideo_granted env2 (startVideo env1 st) H2)
    as (Et2 & _ & Ef2 & _).
  rewrite Et1, En1 in Et2. rewrite En1 in Ef2. rewrite <- app_assoc in Et2.
  cbn [app] in Et2. fold first second st2 in Et2. fold st2 in Ef2.
  clearbody st2.
  destruct (stopVideo_effect st2) as (St & Sf & Sv & _).
  fold st3 in St, Sf, Sv. rewrite Ef2, Et2 in St.
  assert (St' : timers st3 = timers st ++ [first]).
  { rewrite St.
    change (timers st ++ [first; second])
      with (timers st ++ [first] ++ [second]).
    rewrite app_assoc. apply filter_fresh_timer; [|reflexivity].
    intros x Hx. apply in_app_or in Hx. destruct Hx as [Hx|[<-|[]]].
    - apply Hlt in Hx. lia.
    - cbn. lia. }
  clearbody st3.
  split; [exact Et2|]. split; [exact Sv|]. split; [exact Sf|]. split.
  - intros t. rewrite St'. rewrite in_app_iff. cbn [In].
    intuition congruence.
  - destruct (stopVideo_effect st3) as (E & _). rewrite Sf in E. exact E.
Qed.

Lemma second_start_leaks_interval_witness :
  let st := step (EvToggleVideo (envAt 2000 0)) (connectedAt 1000) in
  let st3 := stopVideo (startVideo (envAt 3000 0) (startVideo (envAt 2500 0) st)) in
  isVideoEnabled st3 = false /\ List.length (timers st3) = 2%nat.
Proof.
  intros st st3.
  destruct (second_start_leaks_interval st (envAt 2500 0) (envAt 3000 0))
    as (_ & E & _).
  - unfold st, connectedAt, run. cbn [fold_left].
    apply reachable_step, reachable_step, reachable_step, reachable_mounted.
  - reflexivity.
  - reflexivity.
  - split; [exact E|reflexivity].
Defined.

Lemma execCall_video_other env st rs fc :
  (forall j e, fc <> set_camera j e) ->
  isVideoEnabled (fst (execCall env (st, rs) fc)) = isVideoEnabled st.
Proof.
  intros Hn. destruct fc as [i e|i l|i t c|i n a]; unfold execCall; cbn [fst].
  - exfalso. exact (Hn i e eq_refl).
  - reflexivity.
  - reflexivity.
  - reflexivity.
Qed.

Lemma fold_execCall_video_other env calls : forall st rs,
  (forall j e, ~ In (set_camera j e) calls) ->
  isVideoEnabled (fst (fold_left (execCall env) calls (st, rs)))
  = isVideoEnabled st.
Proof.
  induction calls as [|fc calls IH]; intros st rs Hn; cbn [fold_left].
  - reflexivity.
  - destruct (execCall env (st, rs) fc) as [st1 rs1] eqn:E.
    rewrite IH by (intros j e Hin; apply (Hn j e); right; exact Hin).
    change st1 with (fst (st1, rs1)). rewrite <- E.
    apply execCall_video_other.
    intros j e ->. apply (Hn j e). left. reflexivity.
Qed.

Lemma handleToolCall_camera_refused env pre i post st :
  e_cam env = false ->
  (forall j e, ~ In (set_camera j e) post) ->
  let st' := handleToolCall env (pre ++ set_camera i true :: post) st in
  isVideoEnabled st' = false /\
  In (logEntry env "sys" jarvis "Camera access denied or unavailable.")
     (logs st').
Proof.
  intros Hcam Hn st'. subst st'. unfold handleToolCall. cbv zeta.
  set (st1 := appendLog _ st). clearbody st1.
  rewrite fold_left_app. cbn [fold_left].
  destruct (fold_left (execCall env) pre (st1, [])) as [st2 rs2].
  assert (Ecall : execCall env (st2, rs2) (set_camera i true)
                  = (startVideo env st2,
                     rs2 ++ [{| fr_id := call_id (set_camera i true);
                                fr_name := call_name (set_camera i true);
                                fr_result := "Camera enabled." |}]))
    by reflexivity.
  rewrite Ecall. clear Ecall.
  rewrite (startVideo_refused env st2 Hcam).
  set (st3 := appendLog _ _).
  assert (Ev : isVideoEnabled st3 = false) by reflexivity.
  assert (El : In (logEntry env "sys" jarvis "Camera access denied or unavailable.")
                  (logs st3)).
  { subst st3. unfold appendLog. record.simp. apply in_or_app. right.
    left. reflexivity. }
  clearbody st3.
  pose proof (fold_execCall_video_other env post st3
                (rs2 ++ [{| fr_id := call_id (set_camera i true);
                            fr_name := call_name (set_camera i true);
                            fr_result := "Camera enabled." |}]) Hn) as Ev'.
  pose proof (extendsLogs_fold_execCall env post st3
                (rs2 ++ [{| fr_id := call_id (set_camera i true);
                            fr_name := call_name (set_camera i true);
                            fr_result := "Camera enabled." |}])) as (extra & Ex).
  destruct (fold_left (execCall env) post _) as [st4 rs4]. cbn [fst] in Ev', Ex.
  assert (H4 : isVideoEnabled st4 = false /\
               In (logEntry env "sys" jarvis "Camera access denied or unavailable.")
                  (logs st4)).
  { split; [congruence|]. rewrite Ex. apply in_or_app. left. exact El. }
  destruct rs4; [exact H4|].
  rewrite !(send_frame _ _ st4) by by_fields. exact H4.
Qed.

(** X11. A camera that cannot be opened is reported as opened.  When a
    [set_camera] call asks to enable the camera and the camera is refused,
    [startVideo] keeps the failure to itself: the reply sent for the call
    still carries [Camera enabled.], while the video state is off and the
    transcript tells that camera access was denied. *)
Theorem camera_refusal_is_answered_as_success :
  forall cl env m pre i post sid st,
    toolCall m = Some (pre ++ set_camera i true :: post) ->
    (forall j e, ~ In (set_camera j e) post) ->
    inputTranscription m = None ->
    sessionPromiseRef st = Some sid ->
    e_cam env = false ->
    let st' := onmessage cl env m st in
    (exists rs,
        sent st' = sent st ++ [(sid, sendToolResponse rs)] /\
        In {| fr_id := i; fr_name := "set_camera";
              fr_result := "Camera enabled." |} rs) /\
    isVideoEnabled st' = false /\
    In (logEntry env "sys" jarvis "Camera access denied or unavailable.")
       (logs st').
Proof.
  intros cl env m pre i post sid st Hm Hn Hi Hs Hcam st'.
  destruct (handleToolCall_camera_refused env pre i post st Hcam Hn)
    as (Ev & El).
  split; [|split].
  - pose proof (onmessage_tool_sent cl env m _ sid st Hm Hs) as E.
    fold st' in E.
    assert (Hd : In (set_camera i true)
                    (answeredAtOnce (pre ++ set_camera i true :: post))).
    { apply filter_In. split; [|reflexivity].
      apply in_or_app. right. left. reflexivity. }
    destruct (answeredAtOnce _) as [|fc direct] eqn:Ed; [destruct Hd|].
    eexists. split; [exact E|].
    change {| fr_id := i; fr_name := "set_camera";
              fr_result := "Camera enabled." |}
      with (responseOf (set_camera i true)).
    apply in_map. exact Hd.
  - subst st'. unfold onmessage. cbv zeta.
    rewrite (onmessage_tail_frame isVideoEnabled) by by_fields.
    rewrite Hm. unfold handleTranscription. rewrite Hi.
    destruct (outputTranscription m); exact Ev.
  - subst st'. unfold onmessage. cbv zeta.
    rewrite Hm.
    set (st1 := handleToolCall _ _ _) in *. clearbody st1.
    set (st2 := handleTranscription cl env m st1).
    assert (E2 : logs st2 = logs st1).
    { subst st2. unfold handleTranscription. rewrite Hi.
      destruct (outputTranscription m); reflexivity. }
    set (st3 := if turnComplete m then _ else st2).
    assert (H3 : extendsLogs st2 st3).
    { subst st3. destruct (turnComplete m); [|apply extendsLogs_refl].
      eexists. rewrite handleTurnComplete_logs. reflexivity. }
    destruct H3 as (extra & E3).
    set (st4 := match inlineAudio m with Some buf => _ | None => st3 end).
    assert (E4 : logs st4 = logs st3).
    { subst st4. destruct (inlineAudio m); [|reflexivity].
      apply handleAudio_frame; by_fields. }
    assert (E5 : logs (if interrupted m then handleInterrupted st4 else st4)
                 = logs st4).
    { destruct (interrupted m); [|reflexivity].
      apply handleInterrupted_frame; by_fields. }
    rewrite E5, E4, E3, E2. apply in_or_app. left. exact El.
Qed.

Lemma camera_refusal_is_answered_as_success_witness :
  let env := {| e_now := 2000; e_clock := 0; e_apiKey := true;
                e_mic := true; e_cam := false |} in
  let st' := onmessage (render (connectedAt 1000)) env
               (toolCallMessage [set_camera "c" true]) (connectedAt 1000) in
  isVideoEnabled st' = false /\
  sent st'
  = [(0%nat, sendToolResponse
               [{| fr_id := "c"; fr_name := "set_camera";
                   fr_result := "Camera enabled." |}])].
Proof.
  intros env st'.
  destruct (camera_refusal_is_answered_as_success (render (connectedAt 1000))
              env (toolCallMessage [set_camera "c" true]) [] "c" [] 0%nat
              (connectedAt 1000) eq_refl (fun j e H => H) eq_refl eq_refl
              eq_refl)
    as (_ & E & _).
  split; [exact E|reflexivity].
Defined.

(** ** Voice commands and the state captured by the session *)

Lemma handle_input_fragment {A} (p : State -> A) sid s env m t c st :
  nth_error (sessions st) sid = Some s ->
  toolCall m = None ->
  outputTranscription m = None ->
  inputTranscription m = Some t ->
  matchCommand (Js.toLowerCase (currentInputTranscription st ++ t)) = Some c ->
  2000 <= e_now env - lastProcessedCommandRef st ->
  untouched_by_playback p -> untouched p logs ->
  untouched p currentInputTranscription ->
  untouched p lastProcessedCommandRef ->
  p (handle (EvMessage sid env m) st)
  = p (runCommand (s_closure s) env c
         (st {{ currentInputTranscription ::= fun b => (b ++ t)%string }})).
Proof.
  intros Hs Ht Ho Hi Hc Hd Hp Hl Hci Hlp.
  unfold handle, withSession. rewrite Hs. unfold onmessage. cbv zeta.
  rewrite (onmessage_tail_frame p) by assumption.
  rewrite Ht. unfold handleTranscription. rewrite Ho, Hi. cbv zeta.
  set (st1 := st {{ currentInputTranscription ::= _ }}).
  assert (Eb : currentInputTranscription st1
               = (currentInputTranscription st ++ t)%string) by reflexivity.
  assert (El : lastProcessedCommandRef st1 = lastProcessedCommandRef st)
    by reflexivity.
  rewrite (checkLocalCommands_fires (s_closure s) env _ c st1);
    [|rewrite El; exact Hd|rewrite Eb; exact Hc].
  rewrite appendLog_frame by assumption. use_untouched. reflexivity.
Qed.

(** X12. The camera voice commands act on the camera flag the session
    captured when it was started, not on the camera as it is.  In a
    session started with the camera off, the phrase that turns the camera
    off is recognised and logged but changes nothing: a camera that is
    running stays on, with its capture interval pending. *)
Theorem voice_camera_off_uses_captured_flag :
  forall st sid s env m t,
    nth_error (sessions st) sid = Some s ->
    cl_isVideoEnabled (s_closure s) = false ->
    toolCall m = None ->
    outputTranscription m = None ->
    inputTranscription m = Some t ->
    matchCommand (Js.toLowerCase (currentInputTranscription st ++ t))
    = Some CmdCameraOff ->
    2000 <= e_now env - lastProcessedCommandRef st ->
    let st' := step (EvMessage sid env m) st in
    isVideoEnabled st' = isVideoEnabled st /\
    videoSrcObject st' = videoSrcObject st /\
    frameIntervalRef st' = frameIntervalRef st /\
    timers st' = timers st /\
    lastProcessedCommandRef st' = e_now env /\
    In (voiceCommandEntry env (currentInputTranscription st ++ t)) (logs st').
Proof.
  intros st sid s env m t Hs Hcl Ht Ho Hi Hc Hd st'.
  assert (F : forall {A} (p : State -> A),
             untouched_by_playback p -> untouched p logs ->
             untouched p currentInputTranscription ->
             untouched p lastProcessedCommandRef ->
             p (handle (EvMessage sid env m) st) = p st).
  { intros A p Hp Hl Hci Hlp.
    rewrite (handle_input_fragment p sid s env m t CmdCameraOff st
               Hs Ht Ho Hi Hc Hd Hp Hl Hci Hlp).
    unfold runCommand. rewrite Hcl. use_untouched. reflexivity. }
  subst st'. unfold step.
  rewrite !(commit_frame _ (handle (EvMessage sid env m) st)) by by_fields.
  rewrite !F by by_fields.
  split; [reflexivity|]. split; [reflexivity|]. split; [reflexivity|].
  split; [reflexivity|].
  unfold handle, withSession. rewrite Hs. unfold onmessage. cbv zeta.
  rewrite (onmessage_tail_frame lastProcessedCommandRef) by by_fields.
  rewrite Ht. unfold handleTranscription. rewrite Ho, Hi. cbv zeta.
  set (st1 := st {{ currentInputTranscription ::= _ }}).
  rewrite (checkLocalCommands_fires (s_closure s) env _ CmdCameraOff st1);
    [|exact Hd|exact Hc].
  split; [reflexivity|].
  set (st2 := appendLog _ _).
  assert (E2 : In (voiceCommandEntry env (currentInputTranscription st ++ t))
                  (logs st2)).
  { subst st2. unfold appendLog. record.simp. apply in_or_app. right.
    left. reflexivity. }
  clearbody st2.
  set (st3 := if turnComplete m then _ else st2).
  assert (H3 : extendsLogs st2 st3).
  { subst st3. destruct (turnComplete m); [|apply extendsLogs_refl].
    eexists. rewrite handleTurnComplete_logs. reflexivity. }
  destruct H3 as (extra & E3).
  set (st4 := match inlineAudio m with Some buf => _ | None => st3 end).
  assert (E4 : logs st4 = logs st3).
  { subst st4. destruct (inlineAudio m); [|reflexivity].
    apply handleAudio_frame; by_fields. }
  assert (E5 : logs (if interrupted m then handleInterrupted st4 else st4)
               = logs st4).
  { destruct (interrupted m); [|reflexivity].
    apply handleInterrupted_frame; by_fields. }
  rewrite E5, E4, E3. apply in_or_app. left. exact E2.
Qed.

Lemma voice_camera_off_uses_captured_flag_witness :
  let st := step (EvToggleVideo (envAt 2000 0)) (connectedAt 1000) in
  let m := {| toolCall := None; outputTranscription := None;
              inputTranscription := Some "Jarvis, turn off camera";
              turnComplete := false; inlineAudio := None;
              interrupted := false |} in
  isVideoEnabled st = true /\
  isVideoEnabled (step (EvMessage 0 (envAt 9000 0) m) st) = true.
Proof.
  intros st m.
  destruct (voice_camera_off_uses_captured_flag st 0
              {| s_closure := render (mounted None); s_isReconnect := false |}
              (envAt 9000 0) m "Jarvis, turn off camera")
    as (E & _); try reflexivity.
  - cbn. lia.
  - split; [reflexivity|]. rewrite E. reflexivity.
Defined.

(** ** Transcription buffers and the end of a turn *)

Lemma string_app_nil_r (s : string) : (s ++ EmptyString)%string = s.
Proof.
  induction s as [|c s IH]; [reflexivity|].
  change (String c (s ++ EmptyString) = String c s). rewrite IH. reflexivity.
Qed.

Lemma checkLocalCommands_buffers cl env t st :
  currentInputTranscription (checkLocalCommands cl env t st)
  = currentInputTranscription st /\
  currentOutputTranscription (checkLocalCommands cl env t st)
  = currentOutputTranscription st.
Proof. split; apply checkLocalCommands_frame; by_fields. Qed.

Lemma onmessage_buffers cl env m st :
  (currentInputTranscription (onmessage cl env m st),
   currentOutputTranscription (onmessage cl env m st))
  = buffersAfter m (currentInputTranscription st,
                    currentOutputTranscription st).
Proof.
  unfold onmessage. cbv zeta.
  set (st1 := match toolCall m with Some calls => _ | None => st end).
  assert (E1 : currentInputTranscription st1 = currentInputTranscription st /\
               currentOutputTranscription st1 = currentOutputTranscription st).
  { subst st1. destruct (toolCall m); [|split; reflexivity].
    split; apply handleToolCall_frame; by_fields. }
  destruct E1 as (<- & <-). clearbody st1.
  set (st2 := handleTranscription cl env m st1).
  assert (E2 : currentInputTranscription st2
               = (currentInputTranscription st1 ++ inputFragment m)%string /\
               currentOutputTranscription st2
               = (currentOutputTranscription st1 ++ outputFragment m)%string).
  { subst st2. unfold handleTranscription, inputFragment, outputFragment.
    destruct (outputTranscription m) as [o|].
    - record.simp. rewrite string_app_nil_r. split; reflexivity.
    - destruct (inputTranscription m) as [i|].
      + cbv zeta.
        destruct (checkLocalCommands_buffers cl env
                    (currentInputTranscription
                       (st1 {{ currentInputTranscription ::=
                                 fun s => (s ++ i)%string }}))
                    (st1 {{ currentInputTranscription ::=
                              fun s => (s ++ i)%string }})) as (-> & ->).
        record.simp. rewrite string_app_nil_r. split; reflexivity.
      + rewrite !string_app_nil_r. split; reflexivity. }
  clearbody st2. unfold buffersAfter. cbn [fst snd].
  destruct E2 as (<- & <-).
  set (st3 := if turnComplete m then _ else st2).
  assert (E3 : currentInputTranscription st3
               = (if turnComplete m then EmptyString
                  else currentInputTranscription st2) /\
               currentOutputTranscription st3
               = (if turnComplete m then EmptyString
                  else currentOutputTranscription st2)).
  { subst st3. destruct (turnComplete m); [|split; reflexivity].
    unfold handleTurnComplete. cbv zeta. record.simp. split; reflexivity. }
  clearbody st3.
  set (st4 := match inlineAudio m with Some buf => _ | None => st3 end).
  assert (E4 : currentInputTranscription st4 = currentInputTranscription st3 /\
               currentOutputTranscription st4 = currentOutputTranscription st3).
  { subst st4. destruct (inlineAudio m); [|split; reflexivity].
    unfold handleAudio. destruct (outputAudioContextRef st3);
      [|split; reflexivity].
    cbv zeta. record.simp. split; reflexivity. }
  clearbody st4. destruct E4 as (E4i & E4o). destruct E3 as (E3i & E3o).
  destruct (interrupted m).
  - unfold handleInterrupted. record.simp. rewrite E4i, E3i, orb_true_r.
    reflexivity.
  - rewrite E4i, E4o, E3i, E3o, orb_false_r. reflexivity.
Qed.

(** X13. How the transcription buffers evolve.  After any message the
    input and output buffers are the buffers before it with the
    message's fragment appended: the output fragment if there is one,
    and the input fragment only if there is no output fragment; a
    completed turn empties both; an interruption empties the output
    buffer and keeps the input buffer.  Tool calls, voice commands and
    audio in the same message do not change the buffers.  Over a sequence
    of messages the buffers are obtained by folding this rule. *)
Theorem transcription_buffers_follow_fragments :
  forall cl ms st,
    let st' := fold_left (fun s '(env, m) => onmessage cl env m s) ms st in
    (currentInputTranscription st', currentOutputTranscription st')
    = fold_left (fun b '(_, m) => buffersAfter m b) ms
        (currentInputTranscription st, currentOutputTranscription st).
Proof.
  intros cl ms. induction ms as [|[env m] ms IH]; intros st st'; [reflexivity|].
  subst st'. cbn [fold_left]. rewrite IH, onmessage_buffers. reflexivity.
Qed.

Lemma strip_blank n : forall s,
  (String.length s <= n)%nat -> isBlank s = true ->
  Js.strip false s = EmptyString.
Proof.
  induction n as [|n IH]; intros s Hn H.
  - destruct s; [reflexivity|cbn [String.length] in Hn; lia].
  - destruct s as [|c1 r1]; [reflexivity|].
    cbn [String.length] in Hn. cbn [isBlank] in H. cbn [Js.strip].
    destruct (Js.is_space c1); [apply IH; [lia|exact H]|].
    destruct r1 as [|c2 r2]; [discriminate|].
    cbn [String.length] in Hn.
    destruct (Js.is_space2 c1 c2); [apply IH; [lia|exact H]|].
    destruct r2 as [|c3 r3]; [discriminate|].
    cbn [String.length] in Hn.
    apply andb_prop in H. destruct H as (-> & H). apply IH; [lia|exact H].
Qed.

Lemma trimStart_blank s : isBlank s = true -> Js.trimStart s = EmptyString.
Proof. apply (strip_blank (String.length s)). lia. Qed.

Lemma trim_blank s : isBlank s = true -> Js.trim s = EmptyString.
Proof.
  intros H. unfold Js.trim. rewrite (trimStart_blank s H). reflexivity.
Qed.

(** X14. The end of a turn.  The transcript gains the trimmed user text
    and then the trimmed model text, each only if it is not empty, so no
    entry with an empty text is logged; both buffers are emptied and the
    speaking flag is cleared.  When both buffers hold nothing but white
    space (ASCII or not) the transcript is left as it is, and a second
    completion right after the first adds nothing. *)
Theorem turn_completion_logs_the_utterance :
  forall env st,
    let u := Js.trim (currentInputTranscription st) in
    let o := Js.trim (currentOutputTranscription st) in
    let st' := handleTurnComplete env st in
    logs st'
    = logs st
      ++ (if Js.truthy u then [logEntry env "u" user u] else [])
      ++ (if Js.truthy o then [logEntry env "m" jarvis o] else []) /\
    (forall e, In e (logs st') -> In e (logs st) \/ text e <> EmptyString) /\
    currentInputTranscription st' = EmptyString /\
    currentOutputTranscription st' = EmptyString /\
    isSpeaking st' = false /\
    (isBlank (currentInputTranscription st) = true ->
     isBlank (currentOutputTranscription st) = true ->
     logs st' = logs st) /\
    (forall env2, logs (handleTurnComplete env2 st') = logs st').
Proof.
  intros env st u o st'.
  assert (El := handleTurnComplete_logs env st). fold u o st' in El.
  assert (Eb : currentInputTranscription st' = EmptyString /\
               currentOutputTranscription st' = EmptyString /\
               isSpeaking st' = false).
  { subst st'. unfold handleTurnComplete. cbv zeta. record.simp.
    repeat split; reflexivity. }
  destruct Eb as (Ei & Eo & Es).
  split; [exact El|]. split.
  { intros e He. rewrite El in He. apply in_app_or in He.
    destruct He as [He|He]; [left; exact He|right].
    apply in_app_or in He. destruct He as [He|He].
    - destruct (Js.truthy u) eqn:Tu; [|destruct He].
      destruct He as [<-|[]]. cbn [text logEntry]. intros E.
      rewrite E in Tu. discriminate.
    - destruct (Js.truthy o) eqn:To; [|destruct He].
      destruct He as [<-|[]]. cbn [text logEntry]. intros E.
      rewrite E in To. discriminate. }
  split; [exact Ei|]. split; [exact Eo|]. split; [exact Es|]. split.
  - intros Hi Ho. rewrite El. subst u o.
    rewrite (trim_blank _ Hi), (trim_blank _ Ho). cbn [Js.truthy].
    rewrite !app_nil_r. reflexivity.
  - intros env2. rewrite handleTurnComplete_logs, Ei, Eo.
    change (Js.trim EmptyString) with EmptyString. cbn [Js.truthy].
    rewrite !app_nil_r. reflexivity.
Qed.

Lemma turn_completion_logs_the_utterance_witness :
  let heard := handleMessages (render (connectedAt 1000))
                 [(envAt 2000 0,
                   inputFragmentMessage (nbsp ++ "hi" ++ nbsp)%string)]
                 (connectedAt 1000) in
  let blank := handleMessages (render (connectedAt 1000))
                 [(envAt 2000 0, inputFragmentMessage (" " ++ nbsp)%string)]
                 (connectedAt 1000) in
  logs (handleTurnComplete (envAt 3000 0) heard)
  = logs heard ++ [logEntry (envAt 3000 0) "u" user "hi"] /\
  logs (handleTurnComplete (envAt 3000 0) blank) = logs blank.
Proof.
  intros heard blank. split.
  - destruct (turn_completion_logs_the_utterance (envAt 3000 0) heard)
      as (H & _).
    exact H.
  - destruct (turn_completion_logs_the_utterance (envAt 3000 0) blank)
      as (_ & _ & _ & _ & _ & H & _).
    apply H; reflexivity.
Defined.

(** ** A command phrase stays in the buffer *)

Lemma prefix_append n : forall s t,
  String.prefix n s = true -> String.prefix n (s ++ t) = true.
Proof.
  induction n as [|a n IH]; intros s t H;
    [destruct (s ++ t)%string; reflexivity|].
  destruct s as [|b s]; [discriminate|].
  change (String b s ++ t)%string with (String b (s ++ t)).
  cbn [String.prefix] in *.
  destruct (ascii_dec a b); [|discriminate]. apply IH. exact H.
Qed.

Lemma index_append n : forall s t k,
  String.index 0 n s = Some k -> exists k', String.index 0 n (s ++ t) = Some k'.
Proof.
  induction s as [|b s IH]; intros t k H.
  - cbn [String.index] in H. destruct n; [|discriminate].
    change (EmptyString ++ t)%string with t.
    destruct t; cbn [String.index String.prefix]; eexists; reflexivity.
  - change (String b s ++ t)%string with (String b (s ++ t)).
    cbn [String.index] in *.
    destruct (String.prefix n (String b s)) eqn:P.
    + pose proof (prefix_append n (String b s) t P) as P'.
      change (String b s ++ t)%string with (String b (s ++ t)) in P'.
      rewrite P'. eexists; reflexivity.
    + destruct (String.index 0 n s) as [k0|] eqn:I; [|discriminate].
      destruct (IH t k0 eq_refl) as (k' & ->).
      destruct (String.prefix n (String b (s ++ t))); eexists; reflexivity.
Qed.

Lemma includes_append n s t :
  Js.includes n s = true -> Js.includes n (s ++ t) = true.
Proof.
  unfold Js.includes. destruct (String.index 0 n s) as [k|] eqn:I;
    [|discriminate].
  intros _. destruct (index_append n s t k I) as (k' & ->). reflexivity.
Qed.

Lemma toLowerCase_append s t :
  Js.toLowerCase (s ++ t) = (Js.toLowerCase s ++ Js.toLowerCase t)%string.
Proof.
  induction s as [|c s IH]; [reflexivity|].
  change (Js.toLowerCase (String c s ++ t))
    with (String (Js.lower_char c) (Js.toLowerCase (s ++ t))).
  rewrite IH. reflexivity.
Qed.

Lemma matchCommand_toggle_mute lower :
  Js.includes "toggle mute" lower = true ->
  matchCommand lower = Some CmdToggleMute.
Proof. intros H. unfold matchCommand. rewrite H. reflexivity. Qed.

Lemma string_app_assoc (a b c : string) :
  ((a ++ b) ++ c)%string = (a ++ b ++ c)%string.
Proof.
  induction a as [|x a IH]; [reflexivity|].
  change (String x ((a ++ b) ++ c) = String x (a ++ b ++ c)).
  rewrite IH. reflexivity.
Qed.

Lemma voiceCommandLogs_app st e l :
  logs st = l ++ [e] ->
  String.prefix "[VOICE COMMAND]: " (text e) = true ->
  List.length (filter (fun e => String.prefix "[VOICE COMMAND]: " (text e))
                 (logs st))
  = S (List.length (filter (fun e => String.prefix "[VOICE COMMAND]: " (text e)) l)).
Proof.
  intros -> H. rewrite filter_app, length_app. cbn [filter]. rewrite H.
  cbn [List.length]. lia.
Qed.

Lemma voiceCommandEntry_tagged env t :
  String.prefix "[VOICE COMMAND]: " (text (voiceCommandEntry env t)) = true.
Proof.
  cbn [voiceCommandEntry logEntry text].
  apply prefix_correct. destruct t; reflexivity.
Qed.

(** The effect of an input fragment that toggles the microphone. *)
Lemma toggle_mute_fragment sid s env m t st :
  nth_error (sessions st) sid = Some s ->
  toolCall m = None ->
  outputTranscription m = None ->
  inputTranscription m = Some t ->
  turnComplete m = false ->
  Js.includes "toggle mute"
    (Js.toLowerCase (currentInputTranscription st ++ t)) = true ->
  2000 <= e_now env - lastProcessedCommandRef st ->
  let st' := step (EvMessage sid env m) st in
  isMuted st' = negb (isMuted st) /\
  sessions st' = sessions st /\
  currentInputTranscription st' = (currentInputTranscription st ++ t)%string /\
  lastProcessedCommandRef st' = e_now env /\
  logs st'
  = logs st ++ [voiceCommandEntry env (currentInputTranscription st ++ t)].
Proof.
  intros Hs Ht Ho Hi Htc Hinc Hd st'.
  assert (Hc := matchCommand_toggle_mute _ Hinc).
  assert (Eh : handle (EvMessage sid env m) st
               = onmessage (s_closure s) env m st).
  { unfold handle, withSession. rewrite Hs. reflexivity. }
  subst st'. unfold step.
  rewrite !(commit_frame _ (handle (EvMessage sid env m) st)) by by_fields.
  split.
  { rewrite (handle_input_fragment isMuted sid s env m t CmdToggleMute st
               Hs Ht Ho Hi Hc Hd) by by_fields.
    reflexivity. }
  split.
  { rewrite Eh. apply onmessage_frame; by_fields. }
  rewrite Eh. split.
  { pose proof (onmessage_buffers (s_closure s) env m st) as E.
    unfold buffersAfter, inputFragment in E. rewrite Htc, Ho, Hi in E.
    cbn [fst snd] in E. injection E as E _. exact E. }
  unfold onmessage. cbv zeta.
  rewrite (onmessage_tail_frame lastProcessedCommandRef) by by_fields.
  rewrite Ht, Htc. unfold handleTranscription. rewrite Ho, Hi. cbv zeta.
  set (st1 := st {{ currentInputTranscription ::= _ }}).
  rewrite (checkLocalCommands_fires (s_closure s) env _ CmdToggleMute st1);
    [|exact Hd|exact Hc].
  split; [reflexivity|].
  set (st2 := appendLog _ _).
  assert (E2 : logs st2
               = logs st ++ [voiceCommandEntry env
                               (currentInputTranscription st ++ t)])
    by reflexivity.
  clearbody st2.
  set (st4 := match inlineAudio m with Some buf => _ | None => st2 end).
  assert (E4 : logs st4 = logs st2).
  { subst st4. destruct (inlineAudio m); [|reflexivity].
    apply handleAudio_frame; by_fields. }
  destruct (interrupted m);
    [rewrite handleInterrupted_frame by by_fields|]; rewrite E4; exact E2.
Qed.

(** X15. Voice commands are looked for in the whole input buffer of the
    turn, which still holds a phrase that has already been acted on.  So
    when the user says the mute phrase and goes on speaking, the next
    input fragment that arrives 2000 ms or more after the command, in the
    same turn, toggles the microphone again: after the two fragments the
    mute state is what it was before the command, and two voice-command
    entries have been logged. *)
Theorem mute_phrase_fires_again_in_the_same_turn :
  forall st sid s env1 env2 m1 m2 t1 t2,
    nth_error (sessions st) sid = Some s ->
    toolCall m1 = None -> outputTranscription m1 = None ->
    inputTranscription m1 = Some t1 -> turnComplete m1 = false ->
    toolCall m2 = None -> outputTranscription m2 = None ->
    inputTranscription m2 = Some t2 -> turnComplete m2 = false ->
    Js.includes "toggle mute"
      (Js.toLowerCase (currentInputTranscription st ++ t1)) = true ->
    2000 <= e_now env1 - lastProcessedCommandRef st ->
    2000 <= e_now env2 - e_now env1 ->
    let st1 := step (EvMessage sid env1 m1) st in
    let st2 := step (EvMessage sid env2 m2) st1 in
    isMuted st1 = negb (isMuted st) /\
    isMuted st2 = isMuted st /\
    logs st2
    = logs st
      ++ [voiceCommandEntry env1 (currentInputTranscription st ++ t1);
          voiceCommandEntry env2 (currentInputTranscription st ++ t1 ++ t2)] /\
    List.length (voiceCommandLogs st2)
    = S (S (List.length (voiceCommandLogs st))).
Proof.
  intros st sid s env1 env2 m1 m2 t1 t2 Hs Ht1 Ho1 Hi1 Hc1 Ht2 Ho2 Hi2 Hc2
         Hinc Hd1 Hd2 st1 st2.
  destruct (toggle_mute_fragment sid s env1 m1 t1 st Hs Ht1 Ho1 Hi1 Hc1 Hinc Hd1)
    as (Em1 & Es1 & Eb1 & El1 & Eg1).
  fold st1 in Em1, Es1, Eb1, El1, Eg1. clearbody st1.
  assert (Hs1 : nth_error (sessions st1) sid = Some s) by (rewrite Es1; exact Hs).
  assert (Hinc1 : Js.includes "toggle mute"
                    (Js.toLowerCase (currentInputTranscription st1 ++ t2)) = true).
  { rewrite Eb1, toLowerCase_append. apply includes_append. exact Hinc. }
  assert (Hd : 2000 <= e_now env2 - lastProcessedCommandRef st1)
    by (rewrite El1; exact Hd2).
  destruct (toggle_mute_fragment sid s env2 m2 t2 st1 Hs1 Ht2 Ho2 Hi2 Hc2 Hinc1 Hd)
    as (Em2 & _ & _ & _ & Eg2).
  fold st2 in Em2, Eg2. clearbody st2.
  rewrite Eb1, string_app_assoc in Eg2.
  split; [exact Em1|]. split.
  { rewrite Em2, Em1. apply negb_involutive. }
  assert (Eg : logs st2
               = logs st
                 ++ [voiceCommandEntry env1 (currentInputTranscription st ++ t1);
                     voiceCommandEntry env2
                       (currentInputTranscription st ++ t1 ++ t2)]).
  { rewrite Eg2, Eg1, <- app_assoc. reflexivity. }
  split; [exact Eg|].
  unfold voiceCommandLogs.
  rewrite (voiceCommandLogs_app st2 _ _ Eg2 (voiceCommandEntry_tagged _ _)).
  rewrite (voiceCommandLogs_app st1 _ _ Eg1 (voiceCommandEntry_tagged _ _)).
  reflexivity.
Qed.

Lemma mute_phrase_fires_again_in_the_same_turn_witness :
  let frag t := {| toolCall := None; outputTranscription := None;
                   inputTranscription := Some t; turnComplete := false;
                   inlineAudio := None; interrupted := false |} in
  let st := connectedAt 1000 in
  let st2 := run [EvMessage 0 (envAt 5000 0) (frag "Jarvis, toggle mute");
                  EvMessage 0 (envAt 8000 0) (frag " and tell me the weather")]
               st in
  isMuted st2 = false /\ List.length (voiceCommandLogs st2) = 2%nat.
Proof.
  intros frag st st2.
  destruct (mute_phrase_fires_again_in_the_same_turn st 0
              {| s_closure := render (mounted None); s_isReconnect := false |}
              (envAt 5000 0) (envAt 8000 0)
              (frag "Jarvis, toggle mute") (frag " and tell me the weather")
              "Jarvis, toggle mute" " and tell me the weather")
    as (_ & E & _ & L); try reflexivity.
  - cbn. lia.
  - cbn. lia.
  - split; [exact E|exact L].
Defined.

(** ** Reports *)

Lemma execCall_title_other env st rs fc :
  is_create_report fc = false ->
  editedTitle (fst (execCall env (st, rs) fc)) = editedTitle st /\
  pendingReport (fst (execCall env (st, rs) fc)) = pendingReport st.
Proof.
  intros Hn. destruct fc as [i e|i l|i t c|i n a]; unfold execCall; cbn [fst];
    try discriminate Hn.
  - destruct e; split;
      first [apply startVideo_frame|apply stopVideo_frame]; by_fields.
  - split; reflexivity.
  - split; reflexivity.
Qed.

Lemma fold_execCall_title_other env calls : forall st rs,
  forallb (fun fc => negb (is_create_report fc)) calls = true ->
  editedTitle (fst (fold_left (execCall env) calls (st, rs))) = editedTitle st /\
  pendingReport (fst (fold_left (execCall env) calls (st, rs)))
  = pendingReport st.
Proof.
  induction calls as [|fc calls IH]; intros st rs Hn; cbn [fold_left].
  - split; reflexivity.
  - cbn [forallb] in Hn. apply andb_prop in Hn. destruct Hn as (H1 & H2).
    apply negb_true_iff in H1.
    destruct (execCall env (st, rs) fc) as [st1 rs1] eqn:E.
    destruct (IH st1 rs1 H2) as (-> & ->).
    change st1 with (fst (st1, rs1)). rewrite <- E.
    apply execCall_title_other. exact H1.
Qed.

Lemma handleToolCall_stages env pre i t c post st :
  forallb (fun fc => negb (is_create_report fc)) post = true ->
  let st' := handleToolCall env (pre ++ create_report i t c :: post) st in
  editedTitle st' = t /\
  pendingReport st'
  = Some {| pr_id := i; pr_title := t; pr_content := c |}.
Proof.
  intros Hn st'. subst st'. unfold handleToolCall. cbv zeta.
  set (st1 := appendLog _ st). clearbody st1.
  rewrite fold_left_app. cbn [fold_left].
  destruct (fold_left (execCall env) pre (st1, [])) as [st2 rs2].
  assert (Ecall : execCall env (st2, rs2) (create_report i t c)
                  = (st2 {{ editedTitle := t;
                            pendingReport :=
                              Some {| pr_id := i; pr_title := t;
                                      pr_content := c |} }}, rs2))
    by reflexivity.
  rewrite Ecall. clear Ecall.
  set (st3 := st2 {{ editedTitle := t; pendingReport := _ }}).
  pose proof (fold_execCall_title_other env post st3 rs2 Hn) as (E1 & E2).
  destruct (fold_left (execCall env) post (st3, rs2)) as [st4 rs4].
  cbn [fst] in E1, E2.
  assert (H4 : editedTitle st4 = t /\
               pendingReport st4
               = Some {| pr_id := i; pr_title := t; pr_content := c |})
    by (rewrite E1, E2; split; reflexivity).
  destruct rs4; [exact H4|].
  rewrite !(send_frame _ _ st4) by by_fields. exact H4.
Qed.

(** X16. A report is filed under the title the user leaves in the
    dialog.  A batch of tool calls whose last [create_report] call is
    [(i, t, c)] stages that report and puts [t] in the title field,
    whatever was being edited before.  Whatever the user then types in
    the title field, confirming appends one entry to the transcript,
    marked as a report, whose text is the typed title, an empty line and
    the content [c] as the model gave it, and sends one response for [i]
    that quotes the typed title; cancelling logs nothing and answers that
    the user cancelled.  Either way the dialog is closed. *)
Theorem report_is_filed_under_the_edited_title :
  forall cl env m pre i t c post st1 sid typed env2,
    toolCall m = Some (pre ++ create_report i t c :: post) ->
    forallb (fun fc => negb (is_create_report fc)) post = true ->
    let st := onmessage cl env m st1 in
    sessionPromiseRef st = Some sid ->
    let edited := step (EvEditTitle typed) st in
    let confirmed := step (EvConfirmReport env2) edited in
    let cancelled := step EvCancelReport edited in
    editedTitle st = t /\
    pendingReport st = Some {| pr_id := i; pr_title := t; pr_content := c |} /\
    editedTitle edited = typed /\
    logs confirmed
    = logs st
      ++ [{| id := (Js.Number_toString (e_now env2) ++ "r")%string;
             sender := jarvis;
             text := (typed ++ Js.newline ++ Js.newline ++ c)%string;
             timestamp := e_now env2;
             isReport := Some true |}] /\
    sent confirmed
    = sent st
      ++ [(sid, sendToolResponse
                  [{| fr_id := i; fr_name := "create_report";
                      fr_result :=
                        ("Report " ++ Js.dquote ++ typed ++ Js.dquote
                           ++ " generated successfully.")%string |}])] /\
    pendingReport confirmed = None /\
    logs cancelled = logs st /\
    sent cancelled
    = sent st
      ++ [(sid, sendToolResponse
                  [{| fr_id := i; fr_name := "create_report";
                      fr_result := "User cancelled the report generation." |}])] /\
    pendingReport cancelled = None.
Proof.
  intros cl env m pre i t c post st1 sid typed env2 Hm Hn st Hs
         edited confirmed cancelled.
  assert (Est : editedTitle st = t /\
                pendingReport st
                = Some {| pr_id := i; pr_title := t; pr_content := c |}).
  { subst st.
    rewrite (onmessage_after_tools_frame editedTitle),
            (onmessage_after_tools_frame pendingReport) by by_fields.
    rewrite Hm. apply handleToolCall_stages. exact Hn. }
  destruct Est as (Et & Ep). clearbody st.
  assert (Ee : edited = commit (st {{ editedTitle := typed }})).
  { subst edited. unfold step, handle. rewrite Ep. reflexivity. }
  assert (Hpe : pendingReport edited
                = Some {| pr_id := i; pr_title := t; pr_content := c |})
    by (rewrite Ee; exact Ep).
  assert (Hse : sessionPromiseRef edited = Some sid) by (rewrite Ee; exact Hs).
  assert (Hte : editedTitle edited = typed) by (rewrite Ee; reflexivity).
  assert (Hle : logs edited = logs st) by (rewrite Ee; reflexivity).
  assert (Hne : sent edited = sent st) by (rewrite Ee; reflexivity).
  clearbody edited. clear Ee.
  destruct (confirm_report_sent env2 edited _ sid Hpe Hse) as (Ec1 & Ec2).
  destruct (cancel_report_sent edited _ sid Hpe Hse) as (Ex1 & Ex2).
  rewrite Hte, Hne in Ec1. rewrite Hne in Ex1. cbn [pr_id] in Ec1, Ex1.
  split; [exact Et|]. split; [exact Ep|]. split; [exact Hte|].
  subst confirmed cancelled. unfold step.
  rewrite !(commit_frame _ (handle (EvConfirmReport env2) edited)),
          !(commit_frame _ (handle EvCancelReport edited)) by by_fields.
  split.
  { unfold handle, handleConfirmReport, render.
    cbn [cl_pendingReport cl_editedTitle]. rewrite Hpe, Hte. cbv zeta.
    record.simp. rewrite send_frame by by_fields.
    unfold appendLog. record.simp. rewrite Hle. reflexivity. }
  split; [exact Ec1|]. split; [exact Ec2|].
  split.
  { rewrite <- Hle. apply (handle_frame logs EvCancelReport). by_fields. }
  split; [exact Ex1|exact Ex2].
Qed.

Lemma report_is_filed_under_the_edited_title_witness :
  let st := onmessage (render (connectedAt 1000)) (envAt 2000 0)
              (toolCallMessage [create_report "r" "Draft" "Body"])
              (connectedAt 1000) in
  let confirmed := step (EvConfirmReport (envAt 4000 0))
                     (step (EvEditTitle "Final") st) in
  map text (logs confirmed)
  = map text (logs st) ++ [("Final" ++ Js.newline ++ Js.newline ++ "Body")%string].
Proof.
  intros st confirmed.
  destruct (report_is_filed_under_the_edited_title
              (render (connectedAt 1000)) (envAt 2000 0)
              (toolCallMessage [create_report "r" "Draft" "Body"])
              [] "r" "Draft" "Body" [] (connectedAt 1000) 0%nat "Final"
              (envAt 4000 0) eq_refl eq_refl eq_refl)
    as (_ & _ & _ & E & _).
  fold st confirmed in E. rewrite E, map_app. reflexivity.
Defined.

(** ** Audio processors across reconnects *)

Lemma onerror_armed sid s env message st :
  reachable st ->
  nth_error (sessions st) sid = Some s ->
  isManuallyDisconnectedRef st = false ->
  let st1 := step (EvError sid env message) st in
  reachable st1 /\
  In {| t_id := nextTimerId st; t_delay := RECONNECT_DELAY;
        t_callback := CbReconnect (s_closure s) |} (timers st1) /\
  sessions st1 = sessions st /\
  processors st1 = processors st /\
  inputAudioContextRef st1 = inputAudioContextRef st.
Proof.
  intros Hreach Hs Hf st1.
  pose proof (TimersOk_reachable st Hreach) as Hok.
  assert (Eh : handle (EvError sid env message) st
               = onerror (s_closure s) env message st).
  { unfold handle, withSession. rewrite Hs. reflexivity. }
  destruct (onerror_effect (s_closure s) env message st Hok Hf)
    as (_ & Et & _ & _).
  split; [apply reachable_step; exact Hreach|].
  subst st1. unfold step.
  rewrite !(commit_frame _ (handle (EvError sid env message) st)) by by_fields.
  split.
  { rewrite Eh, Et. apply in_or_app. right. left. reflexivity. }
  repeat split; apply (handle_frame _ (EvError sid env message)); by_fields.
Qed.

(** X17. An automatic reconnect adds an audio processor and removes
    none.  In a reachable state with an input audio context, after a
    session error, the firing of the reconnect timer with the key and the
    microphone available, and the opening of the new session, the state
    is [CONNECTED], the new session is the one held, and the audio
    processors are the ones there were before plus one for the new
    session, which carries the same captured state as the session that
    failed.  Every one of these processors whose captured mute flag is
    off forwards its chunks to the new session, so a chunk of microphone
    audio is sent once per processor. *)
Theorem reconnect_adds_an_audio_processor :
  forall st sid s env env2 message,
    reachable st ->
    nth_error (sessions st) sid = Some s ->
    isManuallyDisconnectedRef st = false ->
    inputAudioContextRef st = true ->
    e_apiKey env2 = true -> e_mic env2 = true ->
    let fresh := List.length (sessions st) in
    let st3 := run [EvError sid env message;
                    EvTimer (nextTimerId st) env2;
                    EvOpen fresh] st in
    connectionState st3 = CONNECTED /\
    sessionPromiseRef st3 = Some fresh /\
    nth_error (sessions st3) fresh
    = Some {| s_closure := s_closure s; s_isReconnect := true |} /\
    processors st3 = processors st ++ [s_closure s] /\
    (forall k cl chunk,
        nth_error (processors st3) k = Some cl ->
        cl_isMuted cl = false ->
        sent (step (EvAudioProcess k chunk) st3)
        = sent st3 ++ [(fresh, sendRealtimeInput (createAudioBlob chunk))]).
Proof.
  intros st sid s env env2 message Hreach Hs Hf Hi Hk Hm fresh st3.
  unfold run in st3. cbn [fold_left] in st3.
  destruct (onerror_armed sid s env message st Hreach Hs Hf)
    as (Hreach1 & Hin & Es1 & Ep1 & Ei1).
  set (st1 := step (EvError sid env message) st) in *.
  set (armed := {| t_id := nextTimerId st; t_delay := RECONNECT_DELAY;
                   t_callback := CbReconnect (s_closure s) |}) in *.
  destruct (fireTimer_reconnect st1 armed (s_closure s) env2 Hreach1 Hin eq_refl)
    as (Hf1 & Eh2).
  pose proof (connectToGemini_outcome (s_closure s) true env2
                (clearTimer (t_id armed) st1)
                (TimersOk_clearTimer _ _ (TimersOk_reachable _ Hreach1)) Hf1)
    as (_ & Hsucc & Hic & _).
  destruct (Hsucc Hk Hm) as (_ & _ & _ & Es2 & Er2 & _).
  rewrite <- Eh2 in Es2, Er2, Hic.
  change (t_id armed) with (nextTimerId st) in *.
  assert (Ep2 : processors (handle (EvTimer (nextTimerId st) env2) st1)
                = processors st1)
    by (apply handle_frame; by_fields).
  change (sessions (clearTimer (nextTimerId st) st1)) with (sessions st1)
    in Es2, Er2.
  rewrite Es1 in Es2, Er2. fold fresh in Er2.
  set (st2 := step (EvTimer (nextTimerId st) env2) st1) in *.
  assert (Es2' : sessions st2
                 = sessions st ++ [{| s_closure := s_closure s;
                                      s_isReconnect := true |}])
    by exact Es2.
  assert (Er2' : sessionPromiseRef st2 = Some fresh) by exact Er2.
  assert (Hic' : inputAudioContextRef st2 = true) by exact Hic.
  assert (Ep2' : processors st2 = processors st)
    by (rewrite <- Ep1; exact Ep2).
  clearbody st2. clear Es2 Er2 Hic Ep2 Eh2.
  assert (Hn : nth_error (sessions st2) fresh
               = Some {| s_closure := s_closure s; s_isReconnect := true |}).
  { rewrite Es2'. unfold fresh. rewrite nth_error_app2 by lia.
    rewrite Nat.sub_diag. reflexivity. }
  assert (E3 : handle (EvOpen fresh) st2
               = (st2 {{ connectionState := CONNECTED }})
                   {{ processors ::= fun l => l ++ [s_closure s] }}).
  { unfold handle, withSession. rewrite Hn. unfold onopen. cbv zeta.
    change (inputAudioContextRef (st2 {{ connectionState := CONNECTED }}))
      with (inputAudioContextRef st2).
    rewrite Hic'. reflexivity. }
  assert (F3 : st3 = commit ((st2 {{ connectionState := CONNECTED }})
                               {{ processors ::= fun l => l ++ [s_closure s] }}))
    by (subst st3; unfold step; rewrite E3; reflexivity).
  clearbody st3. subst st3.
  split; [reflexivity|]. split; [exact Er2'|]. split; [exact Hn|].
  split; [unfold commit; record.simp; rewrite Ep2'; reflexivity|].
  intros k cl chunk Hkk Hmu. unfold step.
  rewrite commit_frame by by_fields.
  unfold handle. rewrite Hkk. unfold onaudioprocess. rewrite Hmu.
  unfold send.
  change (sessionPromiseRef (commit _)) with (sessionPromiseRef st2).
  rewrite Er2'. record.simp. reflexivity.
Qed.

Lemma reconnect_adds_an_audio_processor_witness :
  let st3 := run [EvError 0 (envAt 5000 0) "socket failure";
                  EvTimer 1 (envAt 35000 0);
                  EvOpen 1] (connectedAt 1000) in
  List.length (processors st3) = 2%nat /\
  List.length (sent (run [EvAudioProcess 0 [1; 2]; EvAudioProcess 1 [1; 2]] st3))
  = 2%nat.
Proof.
  intros st3.
  destruct (reconnect_adds_an_audio_processor (connectedAt 1000) 0
              {| s_closure := render (mounted None); s_isReconnect := false |}
              (envAt 5000 0) (envAt 35000 0) "socket failure")
    as (_ & _ & _ & E & _); try reflexivity.
  - unfold connectedAt, run. cbn [fold_left].
    apply reachable_step, reachable_step, reachable_mounted.
  - pose proof (f_equal (@List.length Closure) E) as L.
    split; [exact L|reflexivity].
Defined.

(** ** The speaking indicator *)

Lemma fireTimer_speakingOff st t env :
  reachable st ->
  In t (timers st) ->
  t_callback t = CbSpeakingOff ->
  handle (EvTimer (t_id t) env) st
  = (clearTimer (t_id t) st) {{ isSpeaking := false }}.
Proof.
  intros Hreach Hin Hcb. unfold handle, fireTimer.
  rewrite (find_by_id st t (TimersOk_reachable st Hreach) Hin), Hcb.
  reflexivity.
Qed.

Lemma onended_last h st :
  sourcesRef st = [h] ->
  onended h st
  = setTimer CbSpeakingOff 200
      (st {{ sourcesRef ::= filter (fun x => negb (x =? h)%nat) }}) /\
  sourcesRef (onended h st) = [].
Proof.
  intros H. unfold onended. cbv zeta.
  assert (E : sourcesRef (st {{ sourcesRef ::= filter (fun x => negb (x =? h)%nat) }})
              = []).
  { record.simp. rewrite H. cbn [filter]. rewrite Nat.eqb_refl. reflexivity. }
  rewrite E. split; [reflexivity|].
  rewrite setTimer_frame by by_fields. exact E.
Qed.

(** X18. The speaking indicator is cleared by a timer that nothing
    cancels.  When the only playing source ends, a timer of 200 ms is
    armed whose firing clears the speaking flag.  If an audio fragment
    arrives before the timer fires, the flag is set again and a new
    source plays, but the timer still fires: the flag is cleared and the
    status line no longer shows the speech notice while that source is
    playing. *)
Theorem speaking_timer_is_not_cancelled_by_new_audio :
  forall st h sid s env buf env2,
    reachable st ->
    sourcesRef st = [h] ->
    nth_error (sessions st) sid = Some s ->
    outputAudioContextRef st = true ->
    let off := {| t_id := nextTimerId st; t_delay := 200;
                  t_callback := CbSpeakingOff |} in
    let st1 := step (EvEnded h) st in
    let st2 := step (EvMessage sid env (audioFragment buf)) st1 in
    let st3 := step (EvTimer (nextTimerId st) env2) st2 in
    sourcesRef st1 = [] /\
    timers st1 = timers st ++ [off] /\
    isSpeaking (step (EvTimer (nextTimerId st) env2) st1) = false /\
    isSpeaking st2 = true /\
    sourcesRef st2 = [nextSourceId st] /\
    isSpeaking st3 = false /\
    sourcesRef st3 = [nextSourceId st] /\
    statusText st3 <> Some "PROCESSING SPEECH OUTPUT...".
Proof.
  intros st h sid s env buf env2 Hreach Hh Hs Ho off st1 st2 st3.
  destruct (onended_last h st Hh) as (E1 & Es1).
  assert (Hr1 : reachable st1) by (apply reachable_step; exact Hreach).
  assert (Et1 : timers st1 = timers st ++ [off]).
  { subst st1. unfold step. rewrite commit_frame by by_fields.
    unfold handle. rewrite E1. unfold setTimer. record.simp. reflexivity. }
  assert (Ess1 : sourcesRef st1 = []).
  { subst st1. unfold step. rewrite commit_frame by by_fields. exact Es1. }
  assert (F1 : forall {A} (p : State -> A),
             untouched p sourcesRef -> untouched p timers ->
             untouched p nextTimerId -> untouched p volumeRef ->
             untouched p storage -> p st1 = p st).
  { intros A p ? ? ? ? ?. subst st1. rewrite step_frame by assumption.
    apply handle_frame. repeat split; assumption. }
  assert (Ho1 : outputAudioContextRef st1 = true)
    by (rewrite F1 by by_fields; exact Ho).
  assert (Hs1 : nth_error (sessions st1) sid = Some s)
    by (rewrite F1 by by_fields; exact Hs).
  assert (En1 : nextSourceId st1 = nextSourceId st) by (apply F1; by_fields).
  clearbody st1. clear E1 Es1 F1.
  assert (Hin1 : In off (timers st1))
    by (rewrite Et1; apply in_or_app; right; left; reflexivity).
  assert (Eoff1 : isSpeaking (step (EvTimer (nextTimerId st) env2) st1) = false).
  { unfold step. rewrite commit_frame by by_fields.
    change (EvTimer (nextTimerId st) env2) with (EvTimer (t_id off) env2).
    rewrite (fireTimer_speakingOff st1 off env2 Hr1 Hin1 eq_refl).
    reflexivity. }
  assert (Hr2 : reachable st2) by (apply reachable_step; exact Hr1).
  assert (E2 : handle (EvMessage sid env (audioFragment buf)) st1
               = handleAudio env buf st1).
  { unfold handle, withSession. rewrite Hs1. reflexivity. }
  assert (A2 : isSpeaking st2 = true /\
               sourcesRef st2 = [nextSourceId st] /\
               timers st2 = timers st1).
  { subst st2. unfold step.
    rewrite !(commit_frame _ (handle _ st1)) by by_fields.
    rewrite E2. unfold handleAudio. rewrite Ho1. cbv zeta. record.simp.
    rewrite Ess1, En1. repeat split; reflexivity. }
  destruct A2 as (Esp2 & Eso2 & Et2). clearbody st2. clear E2.
  assert (Hin2 : In off (timers st2)) by (rewrite Et2; exact Hin1).
  assert (A3 : isSpeaking st3 = false /\ sourcesRef st3 = sourcesRef st2).
  { subst st3. unfold step.
    rewrite !(commit_frame _ (handle _ st2)) by by_fields.
    change (EvTimer (nextTimerId st) env2) with (EvTimer (t_id off) env2).
    rewrite (fireTimer_speakingOff st2 off env2 Hr2 Hin2 eq_refl).
    split; reflexivity. }
  destruct A3 as (Esp3 & Eso3). clearbody st3.
  split; [exact Ess1|]. split; [exact Et1|]. split; [exact Eoff1|].
  split; [exact Esp2|]. split; [exact Eso2|]. split; [exact Esp3|].
  split; [rewrite Eso3; exact Eso2|].
  unfold statusText. rewrite Esp3.
  destruct (connectionState st3); discriminate.
Qed.

Lemma speaking_timer_is_not_cancelled_by_new_audio_witness :
  let st := step (EvMessage 0 (envAt 2000 0) (audioFragment {| duration := 1 |}))
              (connectedAt 1000) in
  let st3 := run [EvEnded 0;
                  EvMessage 0 (envAt 3100 1) (audioFragment {| duration := 2 |});
                  EvTimer 1 (envAt 3200 1)] st in
  isSpeaking st3 = false /\ sourcesRef st3 = [1%nat].
Proof.
  intros st st3.
  destruct (speaking_timer_is_not_cancelled_by_new_audio st 0%nat 0%nat
              {| s_closure := render (mounted None); s_isReconnect := false |}
              (envAt 3100 1) {| duration := 2 |} (envAt 3200 1))
    as (_ & _ & _ & _ & _ & E1 & E2 & _); try reflexivity.
  - unfold st, connectedAt, run. cbn [fold_left].
    apply reachable_step, reachable_step, reachable_step, reachable_mounted.
  - split; [exact E1|exact E2].
Defined.

(** ** Playback after an interruption *)

Lemma onmessage_interrupted cl env m st :
  interrupted m = true ->
  sourcesRef (onmessage cl env m st) = [] /\
  nextStartTimeRef (onmessage cl env m st) = 0%Q.
Proof.
  intros Hi. unfold onmessage. cbv zeta. rewrite Hi.
  unfold handleInterrupted. record.simp. split; reflexivity.
Qed.

(** X19. After an interruption the queue starts afresh.  The first audio
    fragment handled after an interruption signal, the output context
    being there, starts at the clock time at which it is handled, not
    behind the audio that was interrupted; it is the only active source,
    and the next start time is its end. *)
Theorem playback_restarts_at_the_clock :
  forall cl env m env2 buf st,
    interrupted m = true ->
    let st1 := onmessage cl env m st in
    outputAudioContextRef st1 = true ->
    (0 <= e_clock env2)%Q ->
    let st2 := onmessage cl env2 (audioFragment buf) st1 in
    exists src,
      started st2 = started st1 ++ [src] /\
      (st_when src == e_clock env2)%Q /\
      st_duration src = duration buf /\
      sourcesRef st2 = [st_handle src] /\
      (nextStartTimeRef st2 == e_clock env2 + duration buf)%Q.
Proof.
  intros cl env m env2 buf st Hi st1 Ho Hc st2.
  destruct (onmessage_interrupted cl env m st Hi) as (Es & En).
  fold st1 in Es, En. clearbody st1.
  subst st2. rewrite onmessage_audioFragment.
  destruct (handleAudio_effect env2 buf st1 Ho) as (E1 & E2 & _).
  eexists. split; [exact E1|]. cbn [st_when st_duration st_handle].
  rewrite En.
  split; [apply Q.max_r; exact Hc|]. split; [reflexivity|]. split.
  - unfold handleAudio. rewrite Ho. cbv zeta. record.simp. rewrite Es.
    reflexivity.
  - rewrite E2, En. rewrite (Q.max_r 0 (e_clock env2) Hc). reflexivity.
Qed.

Lemma playback_restarts_at_the_clock_witness :
  let st := playFragments (render (connectedAt 1000))
              [(envAt 1100 (1#2), {| duration := 20 |})] (connectedAt 1000) in
  let st1 := onmessage (render st) (envAt 1300 1) interruption st in
  let st2 := onmessage (render st) (envAt 1400 2)
               (audioFragment {| duration := 3 |}) st1 in
  exists src, started st2 = started st1 ++ [src] /\ (st_when src == 2)%Q.
Proof.
  intros st st1 st2.
  destruct (playback_restarts_at_the_clock (render st) (envAt 1300 1)
              interruption (envAt 1400 2) {| duration := 3 |} st
              eq_refl eq_refl)
    as (src & E & W & _).
  - cbn. discriminate.
  - exists src. split; [exact E|exact W].
Defined.

(** ** The volume *)

Lemma newVol_range level : (0 <= newVol level <= 1)%Q.
Proof.
  unfold newVol, Qdiv, Qmult, Qinv, Qle, inject_Z. cbn.
  split; lia.
Qed.

Lemma execCall_volume_range env st rs fc :
  (0 <= volume st <= 1)%Q ->
  (0 <= volume (fst (execCall env (st, rs) fc)) <= 1)%Q.
Proof.
  intros H. destruct fc as [i e|i l|i t c|i n a]; unfold execCall; cbn [fst].
  - destruct e; [rewrite startVideo_frame by by_fields
                |rewrite stopVideo_frame by by_fields]; exact H.
  - apply newVol_range.
  - exact H.
  - exact H.
Qed.

Lemma handleToolCall_volume_range env calls st :
  (0 <= volume st <= 1)%Q ->
  (0 <= volume (handleToolCall env calls st) <= 1)%Q.
Proof.
  intros H. unfold handleToolCall. cbv zeta.
  set (st1 := appendLog _ st).
  assert (H1 : (0 <= volume st1 <= 1)%Q) by exact H.
  clearbody st1.
  assert (H2 : forall acc, (0 <= volume (fst acc) <= 1)%Q ->
                 (0 <= volume (fst (fold_left (execCall env) calls acc)) <= 1)%Q).
  { clear. induction calls as [|fc calls IH]; intros [st rs] Ha;
      cbn [fold_left]; [exact Ha|].
    destruct (execCall env (st, rs) fc) as [st' rs'] eqn:E.
    apply (IH (st', rs')). cbn [fst]. change st' with (fst (st', rs')).
    rewrite <- E. apply execCall_volume_range. exact Ha. }
  specialize (H2 (st1, []) H1).
  destruct (fold_left _ _ _) as [st2 rs]. cbn [fst] in H2.
  destruct rs; [exact H2|]. rewrite send_frame by by_fields. exact H2.
Qed.

Lemma onmessage_started cl env m st :
  started (onmessage cl env m st) = started st \/
  exists src,
    started (onmessage cl env m st) = started st ++ [src] /\
    st_gain src = volumeRef st.
Proof.
  unfold onmessage. cbv zeta.
  set (st3 := if turnComplete m then _ else _).
  assert (E3 : started st3 = started st /\ volumeRef st3 = volumeRef st).
  { split; apply onmessage_before_audio_frame; by_fields. }
  destruct E3 as (Es & Ev). clearbody st3.
  set (st4 := match inlineAudio m with Some buf => _ | None => st3 end).
  assert (E4 : started st4 = started st \/
               exists src, started st4 = started st ++ [src] /\
                           st_gain src = volumeRef st).
  { subst st4. destruct (inlineAudio m) as [buf|]; [|left; exact Es].
    unfold handleAudio. destruct (outputAudioContextRef st3); [|left; exact Es].
    right. eexists. cbv zeta. record.simp. rewrite Es.
    split; [reflexivity|]. cbn [st_gain]. exact Ev. }
  clearbody st4.
  destruct (interrupted m); [|exact E4].
  unfold handleInterrupted. record.simp. exact E4.
Qed.

Lemma gainsWithinUnity_step ev st :
  sliderInRange ev -> gainsWithinUnity st -> gainsWithinUnity (step ev st).
Proof.
  intros Hev (Hv & Hr & Hs).
  assert (Hh : (0 <= volume (handle ev st) <= 1)%Q /\
               Forall (fun s => (0 <= st_gain s <= 1)%Q)
                 (started (handle ev st))).
  { destruct ev;
      try (rewrite (handle_frame volume), (handle_frame started) by by_fields;
           split; assumption).
    - (* slider *)
      split; [exact Hev|exact Hs].
    - (* message *)
      unfold handle, withSession.
      destruct (nth_error _ _) as [s0|]; [|split; assumption].
      split.
      + rewrite onmessage_after_tools_frame by by_fields.
        destruct (toolCall m); [apply handleToolCall_volume_range|]; exact Hv.
      + destruct (onmessage_started (s_closure s0) env m st)
          as [-> | (src & -> & Eg)]; [exact Hs|].
        apply Forall_app. split; [exact Hs|].
        constructor; [rewrite Eg; exact Hr|constructor]. }
  destruct Hh as (Hv' & Hs').
  unfold gainsWithinUnity, step, commit. record.simp.
  split; [exact Hv'|]. split; [exact Hv'|exact Hs'].
Qed.

(** X20. The output is never amplified.  From the mounting of the page
    on, whatever events are handled, as long as the volume slider stays
    within its range of 0 to 1: the volume, the gain reference and the
    gain of every buffer that has been played are between 0 and 1. *)
Theorem gain_stays_within_unity :
  forall saved evs,
    Forall sliderInRange evs ->
    gainsWithinUnity (run evs (mounted saved)).
Proof.
  intros saved evs.
  assert (H0 : gainsWithinUnity (mounted saved)).
  { unfold gainsWithinUnity, mounted, commit, initialState. record.simp.
    repeat split; try (cbn; discriminate). constructor. }
  revert H0. generalize (mounted saved).
  induction evs as [|ev evs IH]; intros st H0 Hev; [exact H0|].
  inversion Hev as [|? ? H1 H2]; subst.
  unfold run. cbn [fold_left]. apply IH; [|exact H2].
  apply gainsWithinUnity_step; assumption.
Qed.

Lemma gain_stays_within_unity_witness :
  gainsWithinUnity
    (run [EvToggleConnection (envAt 1000 0); EvOpen 0;
          EvMessage 0 (envAt 2000 0) (toolCallMessage [set_volume "v" 150]);
          EvVolumeSlider (1 # 4);
          EvMessage 0 (envAt 3000 1) (audioFragment {| duration := 1 |})]
       (mounted None)).
Proof.
  apply gain_stays_within_unity.
  repeat constructor; cbn; discriminate.
Defined.

Lemma Math_round_percent z : Math_round (inject_Z z / 100 * 100) = z.
Proof.
  unfold Math_round.
  assert (E : (inject_Z z / 100 * 100 + (1 # 2) == (2 * z + 1) # 2)%Q).
  { unfold Qeq, Qdiv, Qmult, Qplus, Qinv, inject_Z. cbn -[Z.mul Z.add]. lia. }
  rewrite (Qfloor_comp _ _ E). unfold Qfloor.
  change (Z.pos 2) with 2. Z.div_mod_to_equations. lia.
Qed.

(** X21. The volume label after a [set_volume] call.  After a tool-call
    message whose last [set_volume] call asks for a whole number
    [level], the label next to the slider shows the level clamped to
    0..100, followed by the percent sign: for whole numbers the rounding
    of the label changes nothing, and the label shows what was applied. *)
Theorem volume_label_shows_the_applied_level :
  forall sid s env m st pre i level post,
    nth_error (sessions st) sid = Some s ->
    toolCall m = Some (pre ++ set_volume i level :: post) ->
    (forall j l, ~ In (set_volume j l) post) ->
    let st' := step (EvMessage sid env m) st in
    volumeLabel st'
    = (Js.Number_toString (Z.max 0 (Z.min 100 level)) ++ "%")%string /\
    (level = 150 -> volumeLabel st' = "100%") /\
    (level = -10 -> volumeLabel st' = "0%").
Proof.
  intros sid s env m st pre i level post Hs Hm Hn st'.
  assert (Ev : volume st' = newVol level).
  { subst st'. unfold step. rewrite commit_frame by by_fields.
    unfold handle, withSession. rewrite Hs.
    rewrite onmessage_after_tools_frame by by_fields.
    rewrite Hm. apply handleToolCall_volume. exact Hn. }
  assert (El : volumeLabel st'
               = (Js.Number_toString (Z.max 0 (Z.min 100 level)) ++ "%")%string).
  { unfold volumeLabel. rewrite Ev. unfold newVol.
    rewrite Math_round_percent. reflexivity. }
  split; [exact El|]. split; intros ->; rewrite El; reflexivity.
Qed.

Lemma volume_label_shows_the_applied_level_witness :
  volumeLabel (step (EvMessage 0 (envAt 2000 0)
                       (toolCallMessage [set_volume "v" 150]))
                 (connectedAt 1000))
  = "100%".
Proof.
  destruct (volume_label_shows_the_applied_level 0
              {| s_closure := render (mounted None); s_isReconnect := false |}
              (envAt 2000 0) (toolCallMessage [set_volume "v" 150])
              (connectedAt 1000) [] "v" 150 [] eq_refl eq_refl
              (fun j l H => H))
    as (_ & H & _).
  exact (H eq_refl).
Defined.

(** ** Calls of functions that are not declared *)

Lemma execCall_other env st rs i n a :
  execCall env (st, rs) (other_call i n a)
  = (st, rs ++ [{| fr_id := i; fr_name := n;
                   fr_result := "Function executed successfully." |}]).
Proof. reflexivity. Qed.

Lemma fold_execCall_others env calls : forall st rs,
  Forall (fun fc => exists i n a, fc = other_call i n a) calls ->
  fst (fold_left (execCall env) calls (st, rs)) = st.
Proof.
  induction calls as [|fc calls IH]; intros st rs H; [reflexivity|].
  inversion H as [|? ? (i & n & a & ->) H2]; subst.
  cbn [fold_left]. rewrite execCall_other. apply IH. exact H2.
Qed.

(** X22. A call of a function the component does not know is answered
    as done.  For a call in a batch whose name is none of [set_camera],
    [set_volume] and [create_report], the reply carries, under the
    identifier and the name of the call, the result [Function executed
    successfully.]; and a batch made of such calls only changes nothing
    but the transcript, which gains the entry listing the calls. *)
Theorem unknown_function_is_answered_as_done :
  forall cl env m calls sid st i n a,
    toolCall m = Some calls ->
    sessionPromiseRef st = Some sid ->
    In (other_call i n a) calls ->
    n <> "set_camera" -> n <> "set_volume" -> n <> "create_report" ->
    let st' := onmessage cl env m st in
    (exists rs,
        sent st' = sent st ++ [(sid, sendToolResponse rs)] /\
        In {| fr_id := i; fr_name := n;
              fr_result := "Function executed successfully." |} rs) /\
    (Forall (fun fc => exists i n a, fc = other_call i n a) calls ->
     handleToolCall env calls st
     = send (sendToolResponse (map responseOf calls))
         (appendLog (logEntry env "sys" jarvis (toolLogText calls)) st)).
Proof.
  intros cl env m calls sid st i n a Hm Hs Hin _ _ _ st'.
  split.
  - pose proof (onmessage_tool_sent cl env m calls sid st Hm Hs) as E.
    fold st' in E.
    assert (Hd : In (other_call i n a) (answeredAtOnce calls)).
    { apply filter_In. split; [exact Hin|reflexivity]. }
    destruct (answeredAtOnce calls) as [|fc direct] eqn:Ed; [destruct Hd|].
    eexists. split; [exact E|].
    change {| fr_id := i; fr_name := n;
              fr_result := "Function executed successfully." |}
      with (responseOf (other_call i n a)).
    apply in_map. exact Hd.
  - intros Hall. unfold handleToolCall. cbv zeta.
    set (st1 := appendLog _ st).
    pose proof (fold_execCall_others env calls st1 [] Hall) as E1.
    pose proof (fold_execCall_responses env calls st1 []) as E2.
    destruct (fold_left _ _ _) as [st2 rs]. cbn [fst snd app] in E1, E2.
    subst st2 rs.
    assert (Ea : answeredAtOnce calls = calls).
    { unfold answeredAtOnce. clear -Hall.
      induction Hall as [|fc l (i & n & a & ->) _ IH]; [reflexivity|].
      cbn [filter is_create_report negb]. rewrite IH. reflexivity. }
    rewrite Ea. destruct calls as [|fc calls]; [destruct Hin|]. reflexivity.
Qed.

Lemma unknown_function_is_answered_as_done_witness :
  exists rs,
    sent (onmessage (render (connectedAt 1000)) (envAt 2000 0)
            (toolCallMessage [other_call "x" "open_pod_bay_doors" "{}"])
            (connectedAt 1000))
    = sent (connectedAt 1000) ++ [(0%nat, sendToolResponse rs)] /\
    In {| fr_id := "x"; fr_name := "open_pod_bay_doors";
          fr_result := "Function executed successfully." |} rs.
Proof.
  destruct (unknown_function_is_answered_as_done (render (connectedAt 1000))
              (envAt 2000 0)
              (toolCallMessage [other_call "x" "open_pod_bay_doors" "{}"])
              [other_call "x" "open_pod_bay_doors" "{}"] 0%nat
              (connectedAt 1000) "x" "open_pod_bay_doors" "{}"
              eq_refl eq_refl (or_introl eq_refl))
    as (H & _); try discriminate.
  exact H.
Defined.

(** ** A connect that goes through *)

(** X23. A connect that goes through.  In a reachable state that is
    neither connected nor connecting, with the key present and the
    microphone granted, the power button leaves the state [CONNECTING]
    with no error message: both audio contexts exist, the microphone
    stream is held, one session has been created with the state of the
    current render captured, it is the session held, the manual-disconnect
    flag is clear and no reconnect timer is pending.  When that session
    opens, the state is [CONNECTED] and one audio processor is added,
    which carries the same captured state. *)
Theorem connect_goes_through :
  forall st env,
    reachable st ->
    connectionState st = DISCONNECTED \/ connectionState st = ERROR ->
    e_apiKey env = true -> e_mic env = true ->
    let fresh := List.length (sessions st) in
    let st1 := step (EvToggleConnection env) st in
    let st2 := step (EvOpen fresh) st1 in
    connectionState st1 = CONNECTING /\
    errorMsg st1 = None /\
    inputAudioContextRef st1 = true /\
    outputAudioContextRef st1 = true /\
    mediaStreamRef st1 = true /\
    sessions st1
    = sessions st ++ [{| s_closure := render st; s_isReconnect := false |}] /\
    sessionPromiseRef st1 = Some fresh /\
    isManuallyDisconnectedRef st1 = false /\
    reconnectTimers st1 = [] /\
    connectCalls st1 = connectCalls st ++ [false] /\
    connectionState st2 = CONNECTED /\
    processors st2 = processors st ++ [render st] /\
    sessionPromiseRef st2 = Some fresh.
Proof.
  intros st env Hreach Hc Hk Hm fresh st1 st2.
  pose proof (TimersOk_reachable st Hreach) as Hok.
  assert (Eh : handle (EvToggleConnection env) st
               = connectToGemini (render st) false env st).
  { unfold handle, toggleConnection. destruct Hc as [-> | ->]; reflexivity. }
  destruct (connectToGemini_outcome (render st) false env st Hok eq_refl)
    as (_ & Hsucc & Hi & Ho).
  destruct (Hsucc Hk Hm) as (E1 & E2 & E3 & E4 & E5 & E6 & _).
  pose proof (connectToGemini_flag (render st) false env st) as Ef.
  pose proof (connectToGemini_connectCalls (render st) false env st) as Ec.
  assert (Ep : processors (connectToGemini (render st) false env st)
               = processors st)
    by (apply connectToGemini_frame; by_fields).
  rewrite <- Eh in E1, E2, E3, E4, E5, E6, Hi, Ho, Ef, Ec, Ep.
  assert (F1 : forall {A} (p : State -> A),
             untouched p volumeRef -> untouched p storage ->
             p st1 = p (handle (EvToggleConnection env) st))
    by (intros A p ? ?; apply step_frame; assumption).
  assert (G1 : connectionState st1 = CONNECTING /\ errorMsg st1 = None /\
               inputAudioContextRef st1 = true /\
               outputAudioContextRef st1 = true /\
               mediaStreamRef st1 = true /\
               sessions st1
               = sessions st ++ [{| s_closure := render st;
                                    s_isReconnect := false |}] /\
               sessionPromiseRef st1 = Some fresh /\
               isManuallyDisconnectedRef st1 = false /\
               reconnectTimers st1 = [] /\
               connectCalls st1 = connectCalls st ++ [false] /\
               processors st1 = processors st).
  { rewrite !F1 by by_fields. repeat split; assumption. }
  clearbody st1. clear F1 Eh E1 E2 E3 E4 E5 E6 Hi Ho Ef Ec Ep.
  destruct G1 as (G1 & G2 & G3 & G4 & G5 & G6 & G7 & G8 & G9 & G10 & G11).
  assert (Hn : nth_error (sessions st1) fresh
               = Some {| s_closure := render st; s_isReconnect := false |}).
  { rewrite G6. unfold fresh. rewrite nth_error_app2 by lia.
    rewrite Nat.sub_diag. reflexivity. }
  assert (E3 : handle (EvOpen fresh) st1
               = (st1 {{ connectionState := CONNECTED }})
                   {{ processors ::= fun l => l ++ [render st] }}).
  { unfold handle, withSession. rewrite Hn. unfold onopen. cbv zeta.
    change (inputAudioContextRef (st1 {{ connectionState := CONNECTED }}))
      with (inputAudioContextRef st1).
    rewrite G3. reflexivity. }
  assert (F2 : st2 = commit ((st1 {{ connectionState := CONNECTED }})
                               {{ processors ::= fun l => l ++ [render st] }}))
    by (subst st2; unfold step; rewrite E3; reflexivity).
  clearbody st2. subst st2.
  repeat split; try assumption.
  unfold commit. record.simp. rewrite G11. reflexivity.
Qed.

Lemma connect_goes_through_witness :
  connectionState (connectedAt 1000) = CONNECTED /\
  processors (connectedAt 1000) = [render (mounted None)].
Proof.
  destruct (connect_goes_through (mounted None) (envAt 1000 0)
              (reachable_mounted None) (or_introl eq_refl) eq_refl eq_refl)
    as (_ & _ & _ & _ & _ & _ & _ & _ & _ & _ & E1 & E2 & _).
  split; [exact E1|exact E2].
Defined.

(** ** Storage that cannot be read *)

(** X24. When local storage holds nothing, or holds a value that is not
    an array, the page starts with an empty transcript, and the first
    effect replaces what was stored by the empty array. *)
Theorem unreadable_storage_is_discarded :
  forall saved,
    (forall items, saved <> Some (JArr items)) ->
    logs (mounted saved) = [] /\
    storage (mounted saved) = Some (JArr []).
Proof.
  intros saved H.
  assert (E : loadLogs saved = []).
  { unfold loadLogs. destruct saved as [[| | | |items|]|]; try reflexivity.
    exfalso. exact (H items eq_refl). }
  unfold mounted, commit, initialState. record.simp. rewrite E.
  split; reflexivity.
Qed.

Lemma unreadable_storage_is_discarded_witness :
  logs (mounted (Some (JObj [("id", JStr "1")]))) = [] /\
  storage (mounted (Some (JObj [("id", JStr "1")]))) = Some (JArr []).
Proof.
  destruct (unreadable_storage_is_discarded (Some (JObj [("id", JStr "1")])))
    as (E1 & E2).
  - intros items H. discriminate H.
  - split; [exact E1|exact E2].
Defined.

(** ** System sounds *)

(** X25. Every system sound is short and fades out.  With an audio
    context available, whatever the cue and the time: the oscillator
    starts at once and stops half a second later; the gain starts at no
    more than 0.1 and its last scheduled value is 0.001, reached before
    the oscillator stops; every scheduled time lies between start and
    stop; every scheduled value is positive, so that no exponential ramp
    is given the value 0 that the audio interface refuses; and the
    frequencies lie between 50 and 800 Hz.  Without an audio context
    nothing is played. *)
Theorem system_sounds_fade_out :
  forall now type,
    playSystemSound false now type = None /\
    exists s,
      playSystemSound true now type = Some s /\
      osc_start s = now /\
      (osc_stop s == now + (1 # 2))%Q /\
      Forall (fun e => (osc_start s <= eventTime e <= osc_stop s)%Q
                       /\ (0 < eventValue e)%Q)
        (osc_frequency s ++ gain_gain s) /\
      Forall (fun e => (50 <= eventValue e <= 800)%Q) (osc_frequency s) /\
      Forall (fun e => (eventValue e <= 1 # 10)%Q) (gain_gain s) /\
      (exists e, last (gain_gain s) (setValueAtTime 0 0) = e /\
                 (eventValue e == 1 # 1000)%Q /\
                 (eventTime e <= osc_stop s)%Q).
Proof.
  intros now type. split; [reflexivity|].
  assert (T : forall d, (0 <= d)%Q -> (d <= 5 # 10)%Q ->
                (now <= now + d <= now + (5 # 10))%Q).
  { intros d H0 H1. split.
    - rewrite <- (Qplus_0_r now) at 1. apply Qplus_le_r. exact H0.
    - apply Qplus_le_r. exact H1. }
  assert (T0 : (now <= now <= now + (5 # 10))%Q).
  { split; [apply Qle_refl|].
    rewrite <- (Qplus_0_r now) at 1. apply Qplus_le_r. discriminate. }
  assert (Estop : (now + (5 # 10) == now + (1 # 2))%Q)
    by (apply Qplus_comp; [reflexivity|unfold Qeq; reflexivity]).
  destruct type; (eexists; split; [reflexivity|]);
    cbn [osc_start osc_stop osc_frequency gain_gain app last];
    (split; [reflexivity|]); (split; [exact Estop|]);
    (split;
     [repeat (constructor;
              [cbn [eventTime eventValue];
               split; [first [exact T0|apply T; unfold Qle; cbn; lia]
                      |unfold Qlt; cbn; lia]|]);
      constructor|]);
    (split;
     [repeat (constructor;
              [cbn [eventValue]; split; unfold Qle; cbn; lia|]);
      constructor|]);
    (split;
     [repeat (constructor; [cbn [eventValue]; unfold Qle; cbn; lia|]);
      constructor|]);
    (eexists; split; [reflexivity|]; cbn [eventValue eventTime];
     split; [reflexivity|apply T; unfold Qle; cbn; lia]).
Qed.

(** ** Disconnecting by voice *)

(** X26. The disconnect phrases do what the power button does.  In a
    reachable state, an input fragment that makes the buffer match a
    disconnect phrase and no phrase of higher precedence, 2000 ms or more
    after the last command, closes the session that was held and puts
    the component at rest: state [DISCONNECTED], flag set, nothing held
    and no reconnect timer pending; the command is logged. *)
Theorem voice_disconnect_puts_at_rest :
  forall st sid s env m t,
    reachable st ->
    nth_error (sessions st) sid = Some s ->
    toolCall m = None ->
    outputTranscription m = None ->
    inputTranscription m = Some t ->
    matchCommand (Js.toLowerCase (currentInputTranscription st ++ t))
    = Some CmdDisconnect ->
    2000 <= e_now env - lastProcessedCommandRef st ->
    let st' := step (EvMessage sid env m) st in
    Quiet st' /\
    connectionState st' = DISCONNECTED /\
    closedSessions st'
    = closedSessions st
      ++ match sessionPromiseRef st with Some i => [i] | None => [] end /\
    sent st' = sent st.
Proof.
  intros st sid s env m t Hreach Hs Ht Ho Hi Hc Hd st'.
  pose proof (TimersOk_reachable st Hreach) as Hok.
  set (st1 := st {{ currentInputTranscription ::= fun b => (b ++ t)%string }}).
  assert (Hok1 : TimersOk st1) by exact Hok.
  assert (F : forall {A} (p : State -> A),
             untouched_by_playback p -> untouched p logs ->
             untouched p currentInputTranscription ->
             untouched p lastProcessedCommandRef ->
             untouched p volumeRef -> untouched p storage ->
             p st' = p (disconnect st1)).
  { intros A p ? ? ? ? ? ?. subst st'. rewrite step_frame by assumption.
    exact (handle_input_fragment p sid s env m t CmdDisconnect st
             Hs Ht Ho Hi Hc Hd ltac:(assumption) ltac:(assumption)
             ltac:(assumption) ltac:(assumption)). }
  destruct (Quiet_disconnect st1 Hok1) as (Q1 & Q2 & Q3 & Q4 & Q5 & Q6 & Q7).
  destruct (disconnect_effect st1) as (_ & _ & _ & _ & _ & _ & Ecl & Ecs & _).
  split.
  { unfold Quiet. rewrite !F by by_fields. repeat split; assumption. }
  rewrite !F by by_fields.
  split; [exact Ecs|]. split; [exact Ecl|].
  rewrite (disconnect_frame sent) by by_fields. reflexivity.
Qed.

Lemma voice_disconnect_puts_at_rest_witness :
  let m := {| toolCall := None; outputTranscription := None;
              inputTranscription := Some "Jarvis, shut down";
              turnComplete := false; inlineAudio := None;
              interrupted := false |} in
  Quiet (step (EvMessage 0 (envAt 9000 0) m) (connectedAt 1000)) /\
  closedSessions (step (EvMessage 0 (envAt 9000 0) m) (connectedAt 1000))
  = [0%nat].
Proof.
  intros m.
  destruct (voice_disconnect_puts_at_rest (connectedAt 1000) 0
              {| s_closure := render (mounted None); s_isReconnect := false |}
              (envAt 9000 0) m "Jarvis, shut down")
    as (Q & _ & E & _); try reflexivity.
  - unfold connectedAt, run. cbn [fold_left].
    apply reachable_step, reachable_step, reachable_mounted.
  - cbn. lia.
  - split; [exact Q|exact E].
Defined.
